(** * slack-itop-python: the mention/webhook bridge of [app.py]

    A shallow embedding of the ticket bridge in [src/app.py]: the tracker
    file of ticketed threads, the title and description formatter, the
    webhook text parser and the three handlers [raise_ticket],
    [ticket_assigned] and [ticket_resolved].

    Conventions of the model.
    - A Python [str] is a [list ascii]; a character is a code point below
      256 (Latin-1), which is where [str.lower], [str.isspace] and
      [html.escape] are defined here.
    - Indices that the source computes with [str.find] are integers ([Z]),
      with [-1] for "not found", and slices follow Python's clamping rules.
    - A handler is a computation in a small state-and-error monad over the
      tracker file and the trace of outbound calls; the answers of Slack
      and of iTop are supplied by an environment that sees the trace so far.
    - The sqlite table [users] is the list of its rows; failures of the
      local storage layer itself are outside the model. *)

From Stdlib Require Import Ascii String ZArith Lia List Bool.
From stdpp Require Import base list gmap sets strings.

Import ListNotations.
Local Open Scope Z_scope.
Local Open Scope list_scope.

Abbreviation str := (list ascii).

(** A string literal as a Python [str]. *)
Definition lit (s : string) : str := list_ascii_of_string s.

(** ** Python string primitives *)

Module Py.

(** Line feed, carriage return, and the quote characters. *)
Definition LF : ascii := ascii_of_nat 10.
Definition CR : ascii := ascii_of_nat 13.
Definition DQUOTE : ascii := ascii_of_nat 34.
Definition SQUOTE : ascii := ascii_of_nat 39.

(** [str.isspace] on one code point below 256. *)
Definition isspace (c : ascii) : bool :=
  let n := nat_of_ascii c in
  ((9 <=? n) && (n <=? 13) || (28 <=? n) && (n <=? 32)
   || (n =? 133) || (n =? 160))%nat.

(** [str.lower] on one code point below 256. *)
Definition lower_char (c : ascii) : ascii :=
  let n := nat_of_ascii c in
  if ((65 <=? n) && (n <=? 90) || (192 <=? n) && (n <=? 214)
      || (216 <=? n) && (n <=? 222))%nat
  then ascii_of_nat (n + 32) else c.

Definition lower (s : str) : str := map lower_char s.

(** [s.startswith(p)]. *)
Fixpoint startswith (p s : str) : bool :=
  match p, s with
  | [], _ => true
  | _ :: _, [] => false
  | a :: p', b :: s' => if ascii_dec a b then startswith p' s' else false
  end.

(** [sub in s]. *)
Fixpoint contains (sub s : str) : bool :=
  startswith sub s ||
  match s with
  | [] => false
  | _ :: s' => contains sub s'
  end.

(** [s.find(sub)] counted from the head of [s]; [None] when absent. *)
Fixpoint find_nat (sub s : str) : option nat :=
  if startswith sub s then Some 0%nat
  else match s with
       | [] => None
       | _ :: s' => option_map S (find_nat sub s')
       end.

(** Python's clamping of a slice bound [i] against a length [n]. *)
Definition clamp (n : nat) (i : Z) : nat :=
  if i <? 0 then Z.to_nat (Z.max (i + Z.of_nat n) 0)
  else Nat.min (Z.to_nat i) n.

(** [s[lo:hi]], a missing bound being [None]. *)
Definition slice (s : str) (lo hi : option Z) : str :=
  let n := length s in
  let a := match lo with Some i => clamp n i | None => 0%nat end in
  let b := match hi with Some i => clamp n i | None => n end in
  take (b - a) (drop a s).

(** [s.find(sub, start)] with Python's [-1] for "not found". *)
Definition find_from (sub s : str) (start : Z) : Z :=
  let a := clamp (length s) start in
  match find_nat sub (drop a s) with
  | Some i => Z.of_nat (a + i)
  | None => -1
  end.

Definition find (sub s : str) : Z := find_from sub s 0.

(** [s.lstrip()], [s.rstrip()], [s.strip()] and [s.rstrip(chars)]. *)
Fixpoint lstrip_by (f : ascii -> bool) (s : str) : str :=
  match s with
  | c :: s' => if f c then lstrip_by f s' else s
  | [] => []
  end.

Definition rstrip_by (f : ascii -> bool) (s : str) : str :=
  rev (lstrip_by f (rev s)).

Definition lstrip (s : str) : str := lstrip_by isspace s.
Definition rstrip (s : str) : str := rstrip_by isspace s.
Definition strip (s : str) : str := lstrip (rstrip s).
Definition rstrip_chars (chars s : str) : str :=
  rstrip_by (fun c => bool_decide (c ∈ chars)) s.

(** [s.split(sep)] for a non-empty [sep]: left to right, occurrences do
    not overlap.  [skip] counts the characters of a separator that are
    still to be passed over. *)
Fixpoint split_go (sep : str) (skip : nat) (s : str) : list str :=
  match s with
  | [] => [[]]
  | c :: s' =>
      match skip with
      | S k => split_go sep k s'
      | O =>
          if startswith sep s
          then [] :: split_go sep (length sep - 1) s'
          else match split_go sep 0 s' with
               | seg :: rest => (c :: seg) :: rest
               | [] => [[c]]
               end
      end
  end.

Definition split (sep s : str) : list str := split_go sep 0 s.

(** [s.replace(old, new)] for a non-empty [old]: every occurrence, left
    to right, occurrences do not overlap.  With an empty [old] Python puts
    [new] before every character and at the end. *)
Fixpoint replace_go (old new : str) (skip : nat) (s : str) : str :=
  match s with
  | [] => []
  | c :: s' =>
      match skip with
      | S k => replace_go old new k s'
      | O =>
          if startswith old s
          then new ++ replace_go old new (length old - 1) s'
          else c :: replace_go old new 0 s'
      end
  end.

Definition replace (old new s : str) : str :=
  match old with
  | [] => flat_map (fun c => new ++ [c]) s ++ new
  | _ :: _ => replace_go old new 0 s
  end.

(** [l[i]] for a list, negative indices counting from the end; [None]
    is Python's [IndexError]. *)
Definition index {A} (l : list A) (i : Z) : option A :=
  if i <? 0
  then (if - i <=? Z.of_nat (length l)
        then l !! Z.to_nat (Z.of_nat (length l) + i) else None)
  else l !! Z.to_nat i.

(** [html.escape(s)] with its default [quote=True]: five replacements,
    the ampersand first. *)
Definition html_escape (s : str) : str :=
  let s := replace (lit "&") (lit "&amp;") s in
  let s := replace (lit "<") (lit "&lt;") s in
  let s := replace (lit ">") (lit "&gt;") s in
  let s := replace [DQUOTE] (lit "&quot;") s in
  replace [SQUOTE] (lit "&#x27;") s.

End Py.

(** ** The title rules of [raise_ticket] (lines 238-253) *)

Definition title_of_message (message : str) : str :=
  if Py.contains (lit "slack") (Py.lower message)
     || Py.contains (lit "Slack") message
  then lit "Slack issue"
  else if Py.contains (lit "upload") message
          || Py.contains (lit "zoom.us") message
  then lit "Upload Consultation"
  else if Py.contains (lit "Shadowsocks") (Py.lower message)
          || Py.contains (lit "shadowsocks") message
          || Py.contains (lit "cannot connect to IPS") message
  then lit "Shadowsocks issue"
  else if Py.contains (lit "account") message
          || Py.contains (lit "disabled") message
  then lit "Google account disabled"
  else if Py.contains (lit "magic link") (Py.lower message)
          || Py.contains (lit "update email") (Py.lower message)
          || Py.contains (lit "change the email id") (Py.lower message)
  then lit "Expert / client email ID change request"
  else if Py.contains (lit "TnC") message
          || Py.contains (lit "renew") message
  then lit "TnC Issues"
  else if Py.contains (lit "hourly rate") message
  then lit "Financial rate change request"
  else [].

(** ** The description sanitiser of [raise_ticket] (lines 255-275) *)

Module Re.

(** [re.findall]: scan left to right; where the pattern matches, keep
    its group and go on after the match.  [m s] is the group and the
    length (at least 1) of the match of the pattern at the head of [s]. *)
Fixpoint findall_go (m : str -> option (str * nat)) (skip : nat)
    (s : str) : list str :=
  match s with
  | [] => []
  | _ :: s' =>
      match skip with
      | S k => findall_go m k s'
      | O =>
          match m s with
          | Some (g, n) => g :: findall_go m (n - 1) s'
          | None => findall_go m 0 s'
          end
      end
  end.

Definition findall (m : str -> option (str * nat)) (s : str) : list str :=
  findall_go m 0 s.

(** The longest prefix whose characters satisfy [f], and what follows. *)
Fixpoint span (f : ascii -> bool) (s : str) : str * str :=
  match s with
  | c :: s' => if f c then let '(a, b) := span f s' in (c :: a, b)
               else ([], s)
  | [] => ([], [])
  end.

(** [https?://\S+] at the head of [s]. *)
Definition url_at (s : str) : option (str * nat) :=
  let try (p : str) :=
    if Py.startswith p s then
      match span (fun c => negb (Py.isspace c)) (drop (length p) s) with
      | ([], _) => None
      | (run, _) => Some (p ++ run, length (p ++ run))
      end
    else None in
  match try (lit "https://") with
  | Some r => Some r
  | None => try (lit "http://")
  end.

(** [<([^>]+)>] at the head of [s]; the group is the text between the
    brackets. *)
Definition word_at (s : str) : option (str * nat) :=
  match s with
  | c :: r =>
      if ascii_dec c "<"%char then
        match span (fun d => negb (bool_decide (d = ">"%char))) r with
        | ([], _) => None
        | (run, _ :: _) => Some (run, (length run + 2)%nat)
        | (_, []) => None
        end
      else None
  | [] => None
  end.

End Re.

(** The mention that stands for the bot itself (line 269) and the label put
    in its place (line 270). *)
Definition special_mention : str := lit "@XXXXXXXXXX".
Definition special_label : str := lit "xxx Ticketing System".

(** Lines 258-263: the loop over the URLs found in the description. *)
Definition url_loop (description : str) : str :=
  fold_left
    (fun d hyperlink =>
       let hyperlink := Py.rstrip_chars (lit ">") hyperlink in
       Py.replace hyperlink hyperlink d)
    (Re.findall Re.url_at description) description.

(** Lines 265-272: the loop over the bracketed words found in the message. *)
Definition word_step (special : str) (d word : str) : str :=
  if decide (word = special)
  then Py.replace (lit "<" ++ word ++ lit ">") special_label d
  else Py.replace (lit "<" ++ word ++ lit ">") word d.

Definition word_loop (special : str) (message description : str) : str :=
  fold_left (word_step special) (Re.findall Re.word_at message) description.

(** Lines 255-275, with the special mention as a parameter. *)
Definition sanitize_with (special : str) (message : str) : str :=
  let description := message in
  let description := url_loop description in
  let description := word_loop special message description in
  Py.html_escape description.

Definition sanitize_description : str -> str := sanitize_with special_mention.

(** ** The tracker file [ticketed_threads.txt] *)

(** Text-mode reading translates [\r\n] and a lone [\r] into [\n]; what is
    written is stored as it is (the line separator of the host is [\n]). *)
Fixpoint universal_newlines (s : str) : str :=
  match s with
  | [] => []
  | c :: s' =>
      if ascii_dec c Py.CR then
        Py.LF :: match s' with
                 | d :: s'' => if ascii_dec d Py.LF then universal_newlines s''
                               else universal_newlines s'
                 | [] => []
                 end
      else c :: universal_newlines s'
  end.

(** The lines of a text, each with its terminator, as [for line in f] and
    [f.readlines()] give them. *)
Fixpoint lines_of (s : str) : list str :=
  match s with
  | [] => []
  | c :: s' =>
      if ascii_dec c Py.LF then [Py.LF] :: lines_of s'
      else match lines_of s' with
           | l :: rest => (c :: l) :: rest
           | [] => [[c]]
           end
  end.

Definition readlines (content : str) : list str :=
  lines_of (universal_newlines content).

(** [load_ticketed_threads] (lines 45-51) on the file, [None] when it does
    not exist. *)
Definition load_ticketed_threads_from (file : option str) : gset str :=
  match file with
  | Some content => list_to_set (map Py.rstrip (readlines content))
  | None => ∅
  end.

(** [save_ticketed_threads] (lines 54-57): what is written, given the order
    in which the set is iterated. *)
Definition saved_content (iter : gset str -> list str) (threads : gset str)
    : str :=
  concat (map (fun thread_ts => thread_ts ++ [Py.LF]) (iter threads)).

(** The tracker operations of the spec, as the handlers perform them:
    [isOpen] is lines 213-216, [markOpen] lines 213 and 222-223, [markClosed]
    lines 528-532.  [markClosed] gives the file afterwards; on a file that
    does not exist the source raises and there is still no file. *)
Definition isOpen (t : str) (file : option str) : bool :=
  bool_decide (t ∈ load_ticketed_threads_from file).

Definition markOpen (iter : gset str -> list str) (t : str)
    (file : option str) : option str :=
  Some (saved_content iter (load_ticketed_threads_from file ∪ {[ t ]})).

Definition kept_lines (t : str) (lines : list str) : list str :=
  List.filter (fun line => negb (Py.contains t line)) lines.

Definition markClosed (t : str) (file : option str) : option str :=
  match file with
  | Some content => Some (concat (kept_lines t (readlines content)))
  | None => None
  end.

(** ** The identity store *)

Record user_row := {
  u_id : str;
  u_username : str;
  u_first_name : str;
  u_last_name : str;
  u_real_name : str;
  u_email : str;
  u_is_admin : bool;
}.

(** [get_assigned_user_id] (lines 60-75). *)
Definition get_assigned_user_id (db : list user_row) (name : str)
    : option str :=
  match List.find (fun r => bool_decide (u_real_name r = name)) db with
  | Some r => Some (u_id r)
  | None => None
  end.

(** [get_user_info_from_db] (lines 142-154). *)
Definition get_user_info_from_db (db : list user_row) (user_id : str)
    : str * str :=
  match List.find (fun r => bool_decide (u_id r = user_id)) db with
  | Some r => (u_first_name r, u_last_name r)
  | None => ([], [])
  end.

(** ** Handlers: outbound calls, answers, and the handler monad *)

Inductive exn :=
  | IndexError
  | KeyError
  | UnboundLocalError
  | FileNotFoundError
  | AttributeError
  | SlackApiError
  | RequestException.

Inductive outcome (A : Type) :=
  | Ok (a : A)
  | Raise (e : exn).
Arguments Ok {A} a.
Arguments Raise {A} e.

(** A Slack message: a dict whose keys may be missing. *)
Record message := {
  m_user : option str;
  m_text : option str;
  m_bot_id : option str;
}.

(** The [fields] of the [core/create] request (lines 283-298). *)
Record create_fields := {
  org_id : str;
  caller_name : str;
  caller_first_name : str;
  description : str;
  title : str;
  slack_address : str;
}.

(** What iTop answers: the status, the body as text, and from the decoded
    body the [friendlyname] of each member of [objects] ([None] when
    [objects] is null). *)
Record http_response := {
  status_code : Z;
  response_text : str;
  response_objects : option (list str);
}.

(** The body of a webhook: the [text.text] of each block. *)
Record webhook := { blocks : list str }.

(** The mention event (lines 209-210, 231, 235). *)
Record mention_event := {
  ev_channel : str;
  ev_thread_ts : option str;
  ev_ts : str;
  ev_user : str;
  ev_text : str;
}.

(** Everything a handler does to the outside, in order. *)
Inductive action :=
  | Ack
  | ChatPostMessage (channel text : str) (thread_ts : option str)
  | ReactionsGet (channel timestamp : str)
  | ReactionsAdd (name channel timestamp : str)
  | ReactionsRemove (name channel timestamp : str)
  | ConversationsHistory (channel oldest : str)
  | ConversationsOpen (users : option str)
  | ConversationsReplies (channel ts : str)
  | ItopCreate (fields : create_fields)
  | ItopUpdate (ref public_log : str)
  | WriteTracker (content : str)
  | LogError (msg : str)
  | LogInfo (msg : str)
  | Print (msg : str)
  | PrintData (data : webhook).

(** The answers of the outside world; each sees the trace up to and
    including the call it answers. *)
Record env := {
  on_chat_postMessage : list action -> outcome unit;
  on_reactions_get : list action -> outcome (option (list str));
  on_reactions_add : list action -> outcome unit;
  on_reactions_remove : list action -> outcome unit;
  on_conversations_history : list action -> outcome (list message);
  on_conversations_open : list action -> outcome str;
  on_conversations_replies : list action -> outcome (list message);
  on_requests_post : list action -> outcome http_response;
}.

Record world := {
  tracker_file : option str;
  trace : list action;
}.

Definition M (A : Type) : Type := world -> outcome A * world.

Definition ret {A} (a : A) : M A := fun w => (Ok a, w).

Definition bind {A B} (m : M A) (f : A -> M B) : M B :=
  fun w =>
    match m w with
    | (Ok a, w') => f a w'
    | (Raise e, w') => (Raise e, w')
    end.

Definition raise {A} (e : exn) : M A := fun w => (Raise e, w).

Definition emit (a : action) : M unit :=
  fun w => (Ok tt, {| tracker_file := tracker_file w; trace := trace w ++ [a] |}).

(** An outbound call: it is recorded, then answered. *)
Definition call {A} (a : action) (answer : list action -> outcome A) : M A :=
  fun w =>
    let tr := trace w ++ [a] in
    (answer tr, {| tracker_file := tracker_file w; trace := tr |}).

(** [try: m except: h], the bare [except] that catches everything. *)
Definition try_except {A} (m : M A) (h : M A) : M A :=
  fun w =>
    match m w with
    | (Ok a, w') => (Ok a, w')
    | (Raise _, w') => h w'
    end.

Definition read_tracker : M (option str) := fun w => (Ok (tracker_file w), w).

Definition write_tracker (content : str) : M unit :=
  fun w => (Ok tt, {| tracker_file := Some content;
                      trace := trace w ++ [WriteTracker content] |}).

Definition of_option {A} (e : exn) (o : option A) : M A :=
  match o with
  | Some a => ret a
  | None => raise e
  end.

Definition of_outcome {A} (o : outcome A) : M A := fun w => (o, w).

Global Instance M_ret : MRet M := @ret.
Global Instance M_bind : MBind M := fun A B f m => bind m f.

(** Python truthiness of [d.get(key)] for a string value. *)
Definition truthy (o : option str) : bool :=
  match o with
  | Some (_ :: _) => true
  | _ => false
  end.

(** How an f-string shows a value that may be [None]. *)
Definition show (o : option str) : str :=
  match o with
  | Some s => s
  | None => lit "None"
  end.

Section Handlers.

Variable iter : gset str -> list str.
Variable db : list user_row.
Variable E : env.

Definition load_ticketed_threads : M (gset str) :=
  file ← read_tracker; ret (load_ticketed_threads_from file).

Definition save_ticketed_threads (ticketed_threads : gset str) : M unit :=
  write_tracker (saved_content iter ticketed_threads).

(** Line 210: [event.get('thread_ts') or event['ts']]. *)
Definition thread_of (event : mention_event) : str :=
  match ev_thread_ts event with
  | Some (c :: s) => c :: s
  | _ => ev_ts event
  end.

Definition resolving_reply (user : str) : str :=
  lit "Hi <@" ++ user ++
  lit ">, we are resolving the ticket... Once we have any update, you will see it here. Stay tuned.".

Definition created_reply (user ticket : str) : str :=
  lit "Hi <@" ++ user ++
  lit ">, your request has been received and a ticket has been created with ticket number "
  ++ ticket ++ lit ". You will be updated with the progress of this ticket.".

(** Lines 225-298: the fields of the creation request, [thread_ts_fixed]
    being the thread token without its dots. *)
Definition ticket_fields (event : mention_event) (thread_ts_fixed : str)
    : create_fields :=
  let channel_id := ev_channel event in
  let slack_address :=
    lit "https://xxx.slack.com/archives/" ++ channel_id ++ lit "/p"
    ++ thread_ts_fixed in
  let user_id := ev_user event in
  let '(first_name, last_name) := get_user_info_from_db db user_id in
  let message := ev_text event in
  let title := title_of_message message in
  let description := sanitize_description message in
  {| org_id := lit "SELECT Organization WHERE name = " ++ [Py.DQUOTE]
               ++ lit "xxx" ++ [Py.DQUOTE];
     caller_name := last_name;
     caller_first_name := first_name;
     description := description;
     title := title;
     slack_address := slack_address |}.

(** [raise_ticket] (lines 203-315). *)
Definition raise_ticket (event : mention_event) : M unit :=
  emit Ack ;;
  let channel_id := ev_channel event in
  let thread_ts := thread_of event in
  ticketed_threads ← load_ticketed_threads;
  if bool_decide (thread_ts ∈ ticketed_threads) then
    call (ChatPostMessage channel_id (resolving_reply (ev_user event))
            (Some thread_ts)) (on_chat_postMessage E)
  else
    let ticketed_threads := ticketed_threads ∪ {[ thread_ts ]} in
    save_ticketed_threads ticketed_threads ;;
    thread_ts_fixed ←
      match thread_ts with
      | _ :: _ => ret (concat (Py.split (lit ".") thread_ts))
      | [] => raise UnboundLocalError
      end;
    let data := ticket_fields event thread_ts_fixed in
    response ← call (ItopCreate data) (on_requests_post E);
    if negb (status_code response =? 200) then
      emit (LogError (lit "Failed to create iTop ticket: "
                      ++ response_text response))
    else
      objects ← of_option AttributeError (response_objects response);
      ticket_friendly_name ← of_option IndexError (Py.index objects 0);
      call (ChatPostMessage channel_id
              (created_reply (ev_user event) ticket_friendly_name)
              (Some thread_ts)) (on_chat_postMessage E).

(** *** The text block of a webhook (lines 412-443 and 489-507) *)

Definition link_of (text : str) : str :=
  let start_index := Py.find (lit "Link to Slack:") text in
  Py.strip (Py.slice text (Some start_index) None).

Definition slack_address_of (link : str) : option str :=
  slack_address ← Py.index (Py.split (lit "/p") link) 1;
  let slack_address := Py.strip slack_address in
  Some (Py.slice slack_address None (Some 10) ++ lit "."
        ++ Py.slice slack_address (Some 10) None).

Definition channel_id_of (link : str) : option str :=
  channel_id ← Py.index (Py.split (lit "/") link) (-2);
  Some (Py.strip channel_id).

Definition ticket_number_of (text : str) : str :=
  let start_ticket := Py.find (lit "R-") text in
  let end_ticket := start_ticket + 8 in
  Py.slice text (Some start_ticket) (Some end_ticket).

Definition assigned_person_name_of (text : str) : option str :=
  let assigned_person_start_index := Py.find (lit "Assigned to:") text in
  let newline_index :=
    Py.find_from [Py.LF] text assigned_person_start_index in
  name ← Py.index
           (Py.split (lit "Assigned to:")
              (Py.slice text (Some assigned_person_start_index)
                 (Some newline_index))) 1;
  Some (Py.strip name).

(** [for message in messages: user_id = message["user"]]: the user of the
    last message, unbound ([None]) when there is none; a message without
    the key raises. *)
Fixpoint last_user (user_id : option str) (messages : list message)
    : outcome (option str) :=
  match messages with
  | [] => Ok user_id
  | message :: rest =>
      match m_user message with
      | Some u => last_user (Some u) rest
      | None => Raise KeyError
      end
  end.

Definition assigned_reply (user_id name : str) : str :=
  lit "Hi <@" ++ user_id ++ lit ">, your ticket is assigned to " ++ name
  ++ lit ".".

Definition assignee_notice (assigned_user_id : option str)
    (ticket_number link : str) : str :=
  lit "Hi <@" ++ show assigned_user_id ++ lit ">, you have been assigned to "
  ++ ticket_number ++ lit ". " ++ [Py.LF; Py.LF] ++ link.

Definition resolved_reply (user_id : str) : str :=
  lit "Hi <@" ++ user_id
  ++ lit ">, your ticket has been resolved, please check.".

(** Lines 449-464: the guarded check for the [eyes] reaction. *)
Definition ensure_eyes (channel_id slack_address : str) : M unit :=
  try_except
    (reactions_response ←
       call (ReactionsGet channel_id slack_address) (on_reactions_get E);
     match reactions_response with
     | Some reactions =>
         let eyes_reaction_exists :=
           existsb (fun name => bool_decide (name = lit "eyes")) reactions in
         if negb eyes_reaction_exists then
           call (ReactionsAdd (lit "eyes") channel_id slack_address)
             (on_reactions_add E)
         else ret tt
     | None => ret tt
     end)
    (emit (Print (lit "Error checking for reactions"))).

(** [ticket_assigned] (lines 402-475); the result is the status code. *)
Definition ticket_assigned (data : webhook) : M Z :=
  text ← of_option IndexError (Py.index (blocks data) 0);
  let link := link_of text in
  slack_address ← of_option IndexError (slack_address_of link);
  channel_id ← of_option IndexError (channel_id_of link);
  messages ← call (ConversationsHistory channel_id slack_address)
               (on_conversations_history E);
  user_id ← of_outcome (last_user None messages);
  let ticket_number := ticket_number_of text in
  assigned_person_name ←
    of_option IndexError (assigned_person_name_of text);
  let assigned_user_id := get_assigned_user_id db assigned_person_name in
  ensure_eyes channel_id slack_address ;;
  user_id ← of_option UnboundLocalError user_id;
  call (ChatPostMessage channel_id
          (assigned_reply user_id assigned_person_name)
          (Some slack_address)) (on_chat_postMessage E) ;;
  direct_message_channel_id ←
    call (ConversationsOpen assigned_user_id) (on_conversations_open E);
  call (ChatPostMessage direct_message_channel_id
          (assignee_notice assigned_user_id ticket_number link) None)
    (on_chat_postMessage E) ;;
  ret 200.

(** [send_conversation_to_itop] (lines 157-197): the loop over the
    messages, which stops at the first update that fails. *)
Fixpoint send_messages (first_message : bool) (output : list message)
    (ticket_number : str) : M unit :=
  match output with
  | [] => ret tt
  | message :: rest =>
      if truthy (m_user message) && truthy (m_text message)
         && negb (truthy (m_bot_id message))
      then
        if first_message then send_messages false rest ticket_number
        else
          let text := default [] (m_text message) in
          response ← call (ItopUpdate ticket_number text)
                       (on_requests_post E);
          if negb (status_code response =? 200) then
            emit (LogError (lit "Failed to send conversation to iTop: "
                            ++ response_text response))
          else
            emit (LogInfo (lit "Successfully sent conversation to iTop")) ;;
            send_messages false rest ticket_number
      else send_messages first_message rest ticket_number
  end.

Definition send_conversation_to_itop (conversation : list message)
    (ticket_number : str) : M unit :=
  send_messages true conversation ticket_number.

(** [ticket_resolved] (lines 478-539); the result is the status code. *)
Definition ticket_resolved (data : webhook) : M Z :=
  emit (PrintData data) ;;
  text ← of_option IndexError (Py.index (blocks data) 0);
  let link := link_of text in
  slack_address ← of_option IndexError (slack_address_of link);
  channel_id ← of_option IndexError (channel_id_of link);
  let ticket_number := ticket_number_of text in
  emit (Print ticket_number) ;;
  messages ← call (ConversationsHistory channel_id slack_address)
               (on_conversations_history E);
  user_id ← of_outcome (last_user None messages);
  call (ReactionsAdd (lit "white_check_mark") channel_id slack_address)
    (on_reactions_add E) ;;
  call (ReactionsRemove (lit "eyes") channel_id slack_address)
    (on_reactions_remove E) ;;
  user_id ← of_option UnboundLocalError user_id;
  call (ChatPostMessage channel_id (resolved_reply user_id)
          (Some slack_address)) (on_chat_postMessage E) ;;
  file ← read_tracker;
  content ← of_option FileNotFoundError (markClosed slack_address file);
  write_tracker content ;;
  conversation ← call (ConversationsReplies channel_id slack_address)
                   (on_conversations_replies E);
  send_conversation_to_itop conversation ticket_number ;;
  ret 200.

End Handlers.

(** Running a handler from a tracker file and an empty trace. *)
Definition run {A} (m : M A) (file : option str) : outcome A * world :=
  m {| tracker_file := file; trace := [] |}.

(** ** Notions used to state the properties *)

(** [sub] occurs in [s]. *)
Definition infix (sub s : str) : Prop := exists a b, s = a ++ sub ++ b.

(** A letter of ASCII in lower case, any other character as it is. *)
Definition ascii_fold (c : ascii) : ascii :=
  let n := nat_of_ascii c in
  if ((65 <=? n) && (n <=? 90))%nat then ascii_of_nat (n + 32) else c.

Definition ignoring_case (s : str) : str := map ascii_fold s.

(** [word] occurs in [m] when the case of the letters of ASCII is
    ignored. *)
Definition occurs_ignoring_case (word m : str) : Prop :=
  infix (ignoring_case word) (ignoring_case m).

(** The rule table of the title derivation as the specification words it
    (section 4.2): each row a predicate on the message and a title, the last
    row being "else".  A keyword is looked for as it is written; "either
    case" and "case-insensitive" are read as [occurs_ignoring_case]. *)
Definition spec_title_rules : list ((str -> Prop) * str) :=
  [ (fun m => occurs_ignoring_case (lit "slack") m,
     lit "Slack issue");
    (fun m => infix (lit "upload") m \/ infix (lit "zoom.us") m,
     lit "Upload Consultation");
    (fun m => infix (lit "Shadowsocks") m \/ infix (lit "shadowsocks") m
              \/ infix (lit "cannot connect to IPS") m,
     lit "Shadowsocks issue");
    (fun m => infix (lit "account") m \/ infix (lit "disabled") m,
     lit "Google account disabled");
    (fun m => occurs_ignoring_case (lit "magic link") m
              \/ occurs_ignoring_case (lit "update email") m
              \/ occurs_ignoring_case (lit "change the email id") m,
     lit "Expert / client email ID change request");
    (fun m => infix (lit "TnC") m \/ infix (lit "renew") m,
     lit "TnC Issues");
    (fun m => infix (lit "hourly rate") m,
     lit "Financial rate change request");
    (fun _ => True, []) ].

(** Top-to-bottom evaluation of a rule table: [label] is the title of the
    first row whose predicate holds of [m]. *)
Definition first_rule (rules : list ((str -> Prop) * str)) (m label : str)
    : Prop :=
  exists i p,
    rules !! i = Some (p, label) /\ p m /\
    forall j q l, (j < i)%nat -> rules !! j = Some (q, l) -> ~ q m.

(** The messages on which the third row is decided by the capitalised
    spelling alone: "Shadowsocks" occurs, no earlier row holds, and neither
    of the other two keywords of the row occurs. *)
Definition capital_Shadowsocks_only (m : str) : Prop :=
  infix (lit "Shadowsocks") m /\
  ~ occurs_ignoring_case (lit "slack") m /\
  ~ infix (lit "upload") m /\ ~ infix (lit "zoom.us") m /\
  ~ infix (lit "shadowsocks") m /\ ~ infix (lit "cannot connect to IPS") m.

(** The shape of the lines of a text: every line ends with the line feed and
    has none inside, except that the last one may lack its terminator. *)
Inductive wf_lines : list str -> Prop :=
  | wf_lines_nil : wf_lines []
  | wf_lines_last body :
      body <> [] -> Py.LF ∉ body -> wf_lines [body]
  | wf_lines_cons body rest :
      Py.LF ∉ body -> wf_lines rest -> wf_lines ((body ++ [Py.LF]) :: rest).

(** A thread token that survives the tracker file as it is: not empty, on
    one line, and without white space at its end. *)
Definition thread_token (t : str) : Prop :=
  t <> [] /\ (Py.LF ∉ t) /\ (Py.CR ∉ t) /\ Py.rstrip t = t.

(** The number of ticket-creation requests in a trace. *)
Definition is_create (a : action) : bool :=
  match a with
  | ItopCreate _ => true
  | _ => false
  end.

Definition creations (tr : list action) : nat :=
  length (List.filter is_create tr).

(** What is needed of the order in which a set is iterated. *)
Definition iterates (iter : gset str -> list str) : Prop :=
  forall threads, iter threads ≡ₚ elements threads.

(** The world with this tracker file and this trace. *)
Definition world_of (file : option str) (tr : list action) : world :=
  {| tracker_file := file; trace := tr |}.

(** What the handler prints when the guarded block fails. *)
Definition eyes_error : action := Print (lit "Error checking for reactions").

(** [sub] occurs in [s] at offset [n] and at no smaller offset. *)
Definition first_at (sub s : str) (n : nat) : Prop :=
  (exists r, drop n s = sub ++ r) /\
  (forall m, (m < n)%nat -> ~ exists r, drop m s = sub ++ r).

(** The decimal digits. *)
Definition is_digit (c : ascii) : bool :=
  let n := nat_of_ascii c in ((48 <=? n) && (n <=? 57))%nat.

(** A computation that only adds to the trace. *)
Definition extends {A} (m : M A) : Prop :=
  forall w, exists rest, trace (m w).2 = trace w ++ rest.

(** ** The sanitiser as the specification words it *)

(** Following the specification (4.2 b): one pass over the message in which
    every bracketed token [<word>] is replaced, the special mention by the
    label and any other token by its inner text. *)
Fixpoint unwrap_tokens_go (special : str) (skip : nat) (s : str) : str :=
  match s with
  | [] => []
  | c :: s' =>
      match skip with
      | S k => unwrap_tokens_go special k s'
      | O =>
          match Re.word_at s with
          | Some (word, n) =>
              (if decide (word = special) then special_label else word)
              ++ unwrap_tokens_go special (n - 1) s'
          | None => c :: unwrap_tokens_go special 0 s'
          end
      end
  end.

Definition unwrap_tokens (special message : str) : str :=
  unwrap_tokens_go special 0 message.

(** Following the specification (4.2 a-c): bare URLs as they are, tokens
    unwrapped, the result escaped once. *)
Definition sanitize_spec (special message : str) : str :=
  Py.html_escape (unwrap_tokens special message).

(** A message as its pieces: plain characters and bracketed tokens. *)
Inductive piece :=
  | Plain (c : ascii)
  | Token (word : str).

Definition render_piece (p : piece) : str :=
  match p with
  | Plain c => [c]
  | Token word => "<"%char :: word ++ [">"%char]
  end.

Definition render (ps : list piece) : str := flat_map render_piece ps.

(** Brackets only delimit tokens: no plain character is an opening bracket,
    and the inner text of a token is not empty and has no bracket in it. *)
Definition bracketed (p : piece) : Prop :=
  match p with
  | Plain c => c <> "<"%char
  | Token word => word <> [] /\ ("<"%char ∉ word) /\ (">"%char ∉ word)
  end.

Definition unwrap_word (special word : str) : str :=
  if decide (word = special) then special_label else word.

Definition unwrap_piece (special : str) (p : piece) : str :=
  match p with
  | Plain c => [c]
  | Token word => unwrap_word special word
  end.

(** The message after the tokens whose word is in [done] were unwrapped. *)
Definition settle (special : str) (done : list str) (p : piece)
    : list piece :=
  match p with
  | Plain c => [Plain c]
  | Token word =>
      if decide (word ∈ done) then map Plain (unwrap_word special word)
      else [Token word]
  end.

Definition words_of (ps : list piece) : list str :=
  flat_map (fun p => match p with Plain _ => [] | Token word => [word] end) ps.

(** One replacement step on the pieces: the tokens of [word] become the
    plain text [new]. *)
Definition settle_one (word new : str) (p : piece) : list piece :=
  match p with
  | Plain c => [Plain c]
  | Token word' =>
      if decide (word' = word) then map Plain new else [Token word']
  end.

(** A computation that leaves the tracker file as it is. *)
Definition keeps_file {A} (m : M A) : Prop :=
  forall w, tracker_file (m w).2 = tracker_file w.

(** ** Sample data *)

(** An outside world in which every call succeeds: iTop answers [status]
    with one object named [name], Slack finds the messages [msgs]. *)
Definition answering (status : Z) (name : str) (msgs : list message) : env :=
  {| on_chat_postMessage := fun _ => Ok tt;
     on_reactions_get := fun _ => Ok (Some []);
     on_reactions_add := fun _ => Ok tt;
     on_reactions_remove := fun _ => Ok tt;
     on_conversations_history := fun _ => Ok msgs;
     on_conversations_open := fun _ => Ok (lit "D0001");
     on_conversations_replies := fun _ => Ok msgs;
     on_requests_post := fun _ =>
       Ok {| status_code := status;
             response_text := lit "body";
             response_objects := Some [name] |} |}.

Definition sample_mention : mention_event :=
  {| ev_channel := lit "C1";
     ev_thread_ts := None;
     ev_ts := lit "1699999999.123456";
     ev_user := lit "U42";
     ev_text := lit "cannot upload the recording" |}.

(** The same world, except that reading the reactions fails. *)
Definition unreadable_reactions (E : env) : env :=
  {| on_chat_postMessage := on_chat_postMessage E;
     on_reactions_get := fun _ => Raise SlackApiError;
     on_reactions_add := on_reactions_add E;
     on_reactions_remove := on_reactions_remove E;
     on_conversations_history := on_conversations_history E;
     on_conversations_open := on_conversations_open E;
     on_conversations_replies := on_conversations_replies E;
     on_requests_post := on_requests_post E |}.

(** The same world, except that no direct-message channel can be opened. *)
Definition unopenable_channel (E : env) : env :=
  {| on_chat_postMessage := on_chat_postMessage E;
     on_reactions_get := on_reactions_get E;
     on_reactions_add := on_reactions_add E;
     on_reactions_remove := on_reactions_remove E;
     on_conversations_history := on_conversations_history E;
     on_conversations_open := fun _ => Raise SlackApiError;
     on_conversations_replies := on_conversations_replies E;
     on_requests_post := on_requests_post E |}.

Definition sample_row (id real_name : string) : user_row :=
  {| u_id := lit id;
     u_username := lit "user";
     u_first_name := lit "First";
     u_last_name := lit "Last";
     u_real_name := lit real_name;
     u_email := lit "user@xxx.com";
     u_is_admin := false |}.

Definition sample_db : list user_row :=
  [sample_row "U7" "John Roe"; sample_row "U8" "Ann Lee"].

Definition first_post : message :=
  {| m_user := Some (lit "U42");
     m_text := Some (lit "cannot upload the recording");
     m_bot_id := None |}.

(** An assignment webhook whose text ends with the link. *)
Definition sample_assignment : webhook :=
  {| blocks :=
       [lit "Ticket R-000111 was assigned." ++ [Py.LF]
        ++ lit "Assigned to: Jane Doe" ++ [Py.LF]
        ++ lit "Link to Slack: https://x.slack.com/archives/C1/p1699999999123456"] |}.

(** The text of the end-to-end scenario of the specification, its ellipses
    as written. *)
Definition scenario_text : str :=
  lit "...Link to Slack: https://x.slack.com/archives/C1/p1699999999123456 ... R-000111 ... Assigned to: Jane Doe"
  ++ [Py.LF] ++ lit "...".

(** ** Further notions *)

(** A token as the tracker file stores it: on one line and without white
    space at its end (it may be empty). *)
Definition stored_token (x : str) : Prop :=
  (Py.LF ∉ x) /\ (Py.CR ∉ x) /\ Py.rstrip x = x.

(** What [html.escape] makes of one character. *)
Definition escape_char (c : ascii) : str :=
  if ascii_dec c "&"%char then lit "&amp;"
  else if ascii_dec c "<"%char then lit "&lt;"
  else if ascii_dec c ">"%char then lit "&gt;"
  else if ascii_dec c Py.DQUOTE then lit "&quot;"
  else if ascii_dec c Py.SQUOTE then lit "&#x27;"
  else [c].

(** A computation all of whose new actions satisfy [P]. *)
Definition emits (P : action -> bool) {A} (m : M A) : Prop :=
  forall w, exists rest,
    trace (m w).2 = trace w ++ rest /\ forallb P rest = true.

(** The calls to Slack that read or post, and the prints. *)
Definition slack_or_print (a : action) : bool :=
  match a with
  | ChatPostMessage _ _ _ | ReactionsGet _ _ | ReactionsAdd _ _ _
  | ReactionsRemove _ _ _ | ConversationsHistory _ _
  | ConversationsOpen _ | ConversationsReplies _ _ | Print _ => true
  | _ => false
  end.

Definition is_write (a : action) : bool :=
  match a with
  | WriteTracker _ => true
  | _ => false
  end.

Definition is_post (a : action) : bool :=
  match a with
  | ChatPostMessage _ _ _ => true
  | _ => false
  end.

Definition count (P : action -> bool) (tr : list action) : nat :=
  length (List.filter P tr).

(** The messages of a thread that [send_conversation_to_itop] considers:
    with a user and a text, and not from a bot. *)
Definition eligible (m : message) : bool :=
  truthy (m_user m) && truthy (m_text m) && negb (truthy (m_bot_id m)).

Definition text_of (m : message) : str := default [] (m_text m).

(** The texts to forward: those of the eligible messages, the first one
    left out when [first_message] is still set. *)
Definition texts_to_forward (first_message : bool) (output : list message)
    : list str :=
  let chosen := List.filter eligible output in
  map text_of (if first_message then tail chosen else chosen).

(** The actions of forwarding [texts] one by one with success. *)
Definition forwarding (ticket : str) (texts : list str) : list action :=
  flat_map
    (fun t => [ItopUpdate ticket t;
               LogInfo (lit "Successfully sent conversation to iTop")])
    texts.

(** An iTop that answers 200 to every request. *)
Definition always_200 (E : env) : Prop :=
  forall tr, exists response,
    on_requests_post E tr = Ok response /\ status_code response = 200.

(** An iTop that answers every request, with whatever status. *)
Definition always_answers (E : env) : Prop :=
  forall tr, exists response, on_requests_post E tr = Ok response.

(** A Slack in which the calls of the resolve path after the lookup all
    succeed. *)
Definition slack_succeeds (E : env) : Prop :=
  (forall tr, on_reactions_add E tr = Ok tt) /\
  (forall tr, on_reactions_remove E tr = Ok tt) /\
  (forall tr, on_chat_postMessage E tr = Ok tt) /\
  (forall tr, exists conversation,
      on_conversations_replies E tr = Ok conversation).

(** A Slack timestamp: ten digits, a point, and digits. *)
Definition slack_timestamp (secs micros : str) : Prop :=
  length secs = 10%nat /\
  Forall (fun c => is_digit c = true) secs /\
  Forall (fun c => is_digit c = true) micros.

(** A channel identifier that can stand in a back-link: no white space, no
    slash, and not starting with [p]. *)
Definition linkable_channel (channel : str) : Prop :=
  Forall (fun c => Py.isspace c = false /\ c <> "/"%char) channel /\
  head channel <> Some "p"%char.

(** ** The administration commands

    [store_user_info] (lines 78-119), [is_user_admin] (lines 122-139) and
    the two slash commands [handle_store_user_info] (lines 318-329) and
    [handle_update_user_info] (lines 332-395).

    Conventions of this part of the model.
    - The database is what the other connections see: no file, a file
      without the table [users], or the rows of the table in the order of
      their row identifiers, which is the order in which a query without
      [ORDER BY] scans them.  [sqlite3.connect] creates the file;
      [CREATE TABLE] is not part of a transaction and takes effect at once;
      the rows inserted and deleted are those of a transaction that only
      [conn.commit()] makes visible, and that is lost when the handler
      fails before.
    - A Slack user is the dictionary of [users.list]: a key that the code
      reads may be absent, which [user[key]] answers with a [KeyError] and
      [user.get(key, default)] with the default.
    - A statement with more parameters than [variable_limit] fails with
      SQLite's [OperationalError]; the seven parameters of an [INSERT] are
      within the limit.
    - The loop over the pages of [users.list] has no bound in the source;
      here it runs for at most [fuel] rounds and ends with [OutOfFuel]
      when Slack still gives a cursor then. *)

Module Admin.

Inductive exn :=
  | KeyError
  | SlackApiError
  | OperationalError.

Inductive outcome (A : Type) :=
  | Ok (a : A)
  | Raise (e : exn)
  | OutOfFuel.
Arguments Ok {A} a.
Arguments Raise {A} e.
Arguments OutOfFuel {A}.

Record profile := {
  pf_email : option str;
  pf_first_name : option str;
  pf_last_name : option str;
  pf_real_name : option str;
}.

Record member := {
  mb_id : option str;
  mb_name : option str;
  mb_deleted : option bool;
  mb_is_bot : option bool;
  mb_is_app_user : option bool;
  mb_is_admin : option bool;
  mb_profile : option profile;
}.

(** One page of [users.list]: its members and
    [response_metadata.next_cursor]. *)
Record listing := {
  members : list member;
  next_cursor : option str;
}.

(** The body of a slash command. *)
Record command := {
  user_id : str;
  channel_id : str;
}.

Inductive action :=
  | Ack (text : option str)
  | UsersInfo (user : str)
  | UsersList (cursor : option str)
  | ChatPostEphemeral (channel user text : str).

Inductive database :=
  | NoFile
  | NoTable
  | Users (rows : list user_row).

Record world := {
  db : database;
  trace : list action;
}.

(** What Slack answers to a call, given the calls made so far, the call
    included. *)
Record env := {
  on_users_info : list action -> member + exn;
  on_users_list : list action -> listing + exn;
  on_chat_postEphemeral : list action -> unit + exn;
}.

(** *** Computations that may fail, and commands on the world *)

Definition outcome_bind {A B} (o : outcome A) (f : A -> outcome B)
    : outcome B :=
  match o with
  | Ok a => f a
  | Raise e => Raise e
  | OutOfFuel => OutOfFuel
  end.

Global Instance outcome_ret : MRet outcome := @Ok.
Global Instance outcome_mbind : MBind outcome :=
  fun A B f o => outcome_bind o f.

Definition Cmd (A : Type) : Type := world -> outcome A * world.

Definition ret {A} (a : A) : Cmd A := fun w => (Ok a, w).

Definition bind {A B} (m : Cmd A) (f : A -> Cmd B) : Cmd B :=
  fun w =>
    match m w with
    | (Ok a, w') => f a w'
    | (Raise e, w') => (Raise e, w')
    | (OutOfFuel, w') => (OutOfFuel, w')
    end.

Global Instance Cmd_ret : MRet Cmd := @ret.
Global Instance Cmd_bind : MBind Cmd := fun A B f m => bind m f.

Definition raise {A} (e : exn) : Cmd A := fun w => (Raise e, w).

Definition out_of_fuel {A} : Cmd A := fun w => (OutOfFuel, w).

Definition of_outcome {A} (o : outcome A) : Cmd A := fun w => (o, w).

Definition emit (a : action) : Cmd unit :=
  fun w => (Ok tt, {| db := db w; trace := trace w ++ [a] |}).

Definition answered {A} (r : A + exn) : outcome A :=
  match r with
  | inl a => Ok a
  | inr e => Raise e
  end.

(** An outbound call: it is recorded, then answered. *)
Definition call {A} (a : action) (answer : list action -> A + exn)
    : Cmd A :=
  fun w =>
    let tr := trace w ++ [a] in
    (answered (answer tr), {| db := db w; trace := tr |}).

(** [d[key]]. *)
Definition key {A} (v : option A) : outcome A :=
  match v with
  | Some a => Ok a
  | None => Raise KeyError
  end.

(** A [for] loop that threads a state. *)
Fixpoint for_each {A S} (body : S -> A -> outcome S) (items : list A)
    (s : S) : outcome S :=
  match items with
  | [] => Ok s
  | x :: rest => s' ← body s x; for_each body rest s'
  end.

(** *** The database *)

(** [get_db_connection] (lines 36-42): connecting creates the file. *)
Definition get_db_connection : Cmd unit :=
  fun w =>
    (Ok tt,
     {| db := match db w with NoFile => NoTable | d => d end;
        trace := trace w |}).

(** [CREATE TABLE IF NOT EXISTS users (...)]. *)
Definition create_table : Cmd unit :=
  fun w =>
    (Ok tt,
     {| db := match db w with Users rows => Users rows | _ => Users [] end;
        trace := trace w |}).

Definition read_db : Cmd database := fun w => (Ok (db w), w).

(** [conn.commit()]. *)
Definition commit (d : database) : Cmd unit :=
  fun w => (Ok tt, {| db := d; trace := trace w |}).

Definition has_id (ident : str) (r : user_row) : bool :=
  bool_decide (u_id r = ident).

(** [INSERT OR REPLACE INTO users VALUES (...)], [id] being the primary
    key: the row with this [id] goes, the new row comes last. *)
Definition insert_or_replace (row : user_row) (d : database)
    : outcome database :=
  match d with
  | Users rows =>
      Ok (Users (List.filter (fun r => negb (has_id (u_id row) r)) rows
                 ++ [row]))
  | _ => Raise OperationalError
  end.

(** SQLite's [LIKE] folds the case of the letters of ASCII only. *)
Definition fold_case (c : ascii) : ascii :=
  let n := nat_of_ascii c in
  if ((65 <=? n) && (n <=? 90))%nat then ascii_of_nat (n + 32) else c.

(** [s LIKE '%suffix'], for a [suffix] without wild card. *)
Definition like_suffix (suffix s : str) : bool :=
  (length suffix <=? length s)%nat
  && bool_decide (map fold_case (drop (length s - length suffix) s)
                  = map fold_case suffix).

Definition invalid_email_domains : str * str :=
  (lit "@xxx.com", lit "@xxxx.com").

(** The rows that the [SELECT] of line 381 finds: [AND] binds tighter than
    [OR]. *)
Definition inactive_or_invalid (active_user_ids : list str) (r : user_row)
    : bool :=
  negb (bool_decide (u_id r ∈ active_user_ids))
  || (negb (like_suffix invalid_email_domains.1 (u_email r))
      && negb (like_suffix invalid_email_domains.2 (u_email r))).

Section Commands.

Variable E : env.

(** The largest number of [?] that SQLite accepts in one statement. *)
Variable variable_limit : nat.

(** [is_user_admin] (lines 122-139); the result is the truth value that
    the callers test. *)
Definition is_user_admin (user : str) : Cmd bool :=
  d ← read_db;
  match d with
  | Users rows =>
      get_db_connection ;;
      match List.find (has_id user) rows with
      | Some r => ret (u_is_admin r)
      | None => ret false
      end
  | NoTable => get_db_connection ;; raise OperationalError
  | NoFile =>
      user_info ← call (UsersInfo user) (on_users_info E);
      ret (default false (mb_is_admin user_info))
  end.

(** Lines 82-91 and 346-355: all the pages of [users.list]. *)
Fixpoint users_list (fuel : nat) (cursor : option str)
    (users : list member) : Cmd (list member) :=
  match fuel with
  | O => out_of_fuel
  | S fuel =>
      response ← call (UsersList cursor) (on_users_list E);
      let users := users ++ members response in
      let cursor := next_cursor response in
      if truthy cursor then users_list fuel cursor users else ret users
  end.

(** [[user["id"] for user in users if not user["deleted"]]]. *)
Fixpoint active_user_ids_of (users : list member) : outcome (list str) :=
  match users with
  | [] => Ok []
  | user :: rest =>
      deleted ← key (mb_deleted user);
      if negb deleted then
        ident ← key (mb_id user);
        ids ← active_user_ids_of rest;
        Ok (ident :: ids)
      else active_user_ids_of rest
  end.

(** [user_info['is_bot'] or user_info['is_app_user']]. *)
Definition is_bot_or_app_user (user_info : member) : outcome bool :=
  is_bot ← key (mb_is_bot user_info);
  if (is_bot : bool) then Ok true else key (mb_is_app_user user_info).

(** Lines 104-117: the body of the loop of [store_user_info]. *)
Definition store_member (active_user_ids : list str) (d : database)
    (user_info : member) : outcome database :=
  skip ← is_bot_or_app_user user_info;
  if (skip : bool) then Ok d
  else
    ident ← key (mb_id user_info);
    if bool_decide (ident ∈ active_user_ids) then
      profile ← key (mb_profile user_info);
      let email := default [] (pf_email profile) in
      let is_admin := default false (mb_is_admin user_info) in
      username ← key (mb_name user_info);
      let first_name := default [] (pf_first_name profile) in
      let last_name := default [] (pf_last_name profile) in
      real_name ← key (pf_real_name profile);
      insert_or_replace
        {| u_id := ident;
           u_username := username;
           u_first_name := first_name;
           u_last_name := last_name;
           u_real_name := real_name;
           u_email := email;
           u_is_admin := is_admin |} d
    else Ok d.

(** [store_user_info] (lines 78-119). *)
Definition store_user_info (fuel : nat) (channel user : str) : Cmd unit :=
  users ← users_list fuel None [];
  active_user_ids ← of_outcome (active_user_ids_of users);
  get_db_connection ;;
  create_table ;;
  d ← read_db;
  d ← of_outcome (for_each (store_member active_user_ids) users d);
  commit d ;;
  call (ChatPostEphemeral channel user
          (lit "User information has been stored in the database"))
    (on_chat_postEphemeral E).

(** [handle_store_user_info] (lines 318-329). *)
Definition handle_store_user_info (fuel : nat) (body : command)
    : Cmd unit :=
  emit (Ack None) ;;
  admin ← is_user_admin (user_id body);
  if negb admin then
    emit (Ack (Some (lit "You do not have sufficient permissions to run this command.")))
  else store_user_info fuel (channel_id body) (user_id body).

(** Lines 365-379: the body of the loop of [handle_update_user_info]. *)
Definition update_member (active_user_ids : list str) (d : database)
    (user_info : member) : outcome database :=
  skip ← is_bot_or_app_user user_info;
  if (skip : bool) then Ok d
  else
    ident ← key (mb_id user_info);
    if bool_decide (ident ∈ active_user_ids) then
      profile ← key (mb_profile user_info);
      let email := default [] (pf_email profile) in
      let first_name := default [] (pf_first_name profile) in
      let last_name := default [] (pf_last_name profile) in
      username ← key (mb_name user_info);
      is_admin ← key (mb_is_admin user_info);
      real_name ← key (pf_real_name profile);
      insert_or_replace
        {| u_id := ident;
           u_username := username;
           u_first_name := first_name;
           u_last_name := last_name;
           u_real_name := real_name;
           u_email := email;
           u_is_admin := is_admin |} d
    else Ok d.

(** A statement with [n] parameters on the table [users]. *)
Definition with_table (n : nat) (d : database) : outcome (list user_row) :=
  match d with
  | Users rows =>
      if (variable_limit <? n)%nat then Raise OperationalError else Ok rows
  | _ => Raise OperationalError
  end.

(** Lines 381-388: the identifiers to delete, empty ones and duplicates
    removed, and the [DELETE]. *)
Definition delete_inactive_and_invalid (active_user_ids : list str)
    (d : database) : outcome database :=
  rows ← with_table (length active_user_ids) d;
  let inactive_and_invalid_user_ids :=
    map u_id (List.filter (inactive_or_invalid active_user_ids) rows) in
  match inactive_and_invalid_user_ids with
  | [] => Ok d
  | _ :: _ =>
      let inactive_and_invalid_user_ids :=
        remove_dups
          (List.filter (fun ident => truthy (Some ident))
             inactive_and_invalid_user_ids) in
      rows ← with_table (length inactive_and_invalid_user_ids) d;
      Ok (Users
            (List.filter
               (fun r =>
                  negb (bool_decide
                          (u_id r ∈ inactive_and_invalid_user_ids)))
               rows))
  end.

(** [handle_update_user_info] (lines 332-395). *)
Definition handle_update_user_info (fuel : nat) (body : command)
    : Cmd unit :=
  emit (Ack None) ;;
  admin ← is_user_admin (user_id body);
  if negb admin then
    call (ChatPostEphemeral (channel_id body) (user_id body)
            (lit "You do not have sufficient permissions to run this command."))
      (on_chat_postEphemeral E)
  else
    users ← users_list fuel None [];
    active_user_ids ← of_outcome (active_user_ids_of users);
    get_db_connection ;;
    d ← read_db;
    d ← of_outcome (for_each (update_member active_user_ids) users d);
    d ← of_outcome (delete_inactive_and_invalid active_user_ids d);
    commit d ;;
    call (ChatPostEphemeral (channel_id body) (user_id body)
            (lit "User information has been updated in the database"))
      (on_chat_postEphemeral E).

End Commands.

Definition run {A} (m : Cmd A) (d : database) : outcome A * world :=
  m {| db := d; trace := [] |}.

(** *** Notions used to state the properties *)

(** Slack answers the calls of the loop, made after the calls [tr] and
    starting with [cursor], with [pages]: every page but the last gives a
    cursor, the last gives none. *)
Inductive paged (E : env) : list action -> option str -> list listing -> Prop :=
  | paged_last tr cursor page :
      on_users_list E (tr ++ [UsersList cursor]) = inl page ->
      truthy (next_cursor page) = false ->
      paged E tr cursor [page]
  | paged_more tr cursor page pages :
      on_users_list E (tr ++ [UsersList cursor]) = inl page ->
      truthy (next_cursor page) = true ->
      paged E (tr ++ [UsersList cursor]) (next_cursor page) pages ->
      paged E tr cursor (page :: pages).

(** The calls that fetch [pages], the first one with [cursor]. *)
Fixpoint list_calls (cursor : option str) (pages : list listing)
    : list action :=
  match pages with
  | [] => []
  | page :: rest => UsersList cursor :: list_calls (next_cursor page) rest
  end.

(** A user with the keys that the code reads with [user[key]], the flag
    [is_admin] apart. *)
Definition well_formed (m : member) : Prop :=
  is_Some (mb_id m) /\ is_Some (mb_name m) /\ is_Some (mb_deleted m) /\
  is_Some (mb_is_bot m) /\ is_Some (mb_is_app_user m) /\
  exists p, mb_profile m = Some p /\ is_Some (pf_real_name p).

(** [ident] is the identifier of a listed user that is not deleted. *)
Definition active_id (users : list member) (ident : str) : Prop :=
  exists m, m ∈ users /\ mb_deleted m = Some false /\ mb_id m = Some ident.

(** A listed user that the loops write to the table: neither a bot nor an
    app user, its identifier [ident] that of a user that is not deleted. *)
Definition written (users : list member) (m : member) (ident : str)
    : Prop :=
  mb_is_bot m = Some false /\ mb_is_app_user m = Some false /\
  mb_id m = Some ident /\ active_id users ident.

(** The rows of the table, none when there is no table. *)
Definition rows_of (d : database) : list user_row :=
  match d with
  | Users rows => rows
  | _ => []
  end.

(** The row [r] holds what Slack says of the user [m]. *)
Definition describes (m : member) (r : user_row) : Prop :=
  mb_id m = Some (u_id r) /\ mb_name m = Some (u_username r) /\
  u_is_admin r = default false (mb_is_admin m) /\
  exists p,
    mb_profile m = Some p /\ pf_real_name p = Some (u_real_name r) /\
    u_first_name r = default [] (pf_first_name p) /\
    u_last_name r = default [] (pf_last_name p) /\
    u_email r = default [] (pf_email p).

(** The email address that the loops store for the user [m]. *)
Definition email_of (m : member) : str :=
  match mb_profile m with
  | Some p => default [] (pf_email p)
  | None => []
  end.

(** [m] is the only listed user with its identifier. *)
Definition listed_once (users : list member) (m : member) : Prop :=
  forall m', m' ∈ users -> mb_id m' = mb_id m -> m' = m.

(** The table after [INSERT OR REPLACE] of [row]. *)
Definition upsert (row : user_row) (rows : list user_row) : list user_row :=
  List.filter (fun r => negb (has_id (u_id row) r)) rows ++ [row].

(** An email address at one of the two domains of line 380. *)
Definition at_listed_domain (email : str) : Prop :=
  like_suffix invalid_email_domains.1 email = true \/
  like_suffix invalid_email_domains.2 email = true.

(** *** Sample data *)

Definition sample_member (ident real_name email : string)
    (is_bot is_admin : bool) : member :=
  {| mb_id := Some (lit ident);
     mb_name := Some (lit "user");
     mb_deleted := Some false;
     mb_is_bot := Some is_bot;
     mb_is_app_user := Some false;
     mb_is_admin := Some is_admin;
     mb_profile :=
       Some {| pf_email := Some (lit email);
               pf_first_name := Some (lit "First");
               pf_last_name := None;
               pf_real_name := Some (lit real_name) |} |}.

Definition is_list_call (a : action) : bool :=
  match a with
  | UsersList _ => true
  | _ => false
  end.

(** A Slack that gives [pages] one after the other and accepts every
    post. *)
Definition paging (pages : list listing) : env :=
  {| on_users_info := fun _ => inr SlackApiError;
     on_users_list := fun tr =>
       match nth_error pages (length (List.filter is_list_call tr) - 1) with
       | Some page => inl page
       | None => inr SlackApiError
       end;
     on_chat_postEphemeral := fun _ => inl tt |}.

Definition sample_pages : list listing :=
  [{| members := [sample_member "U1" "Jane Doe" "jane@xxx.com" false true;
                  sample_member "B1" "Helper" "bot@xxx.com" true false];
      next_cursor := Some (lit "dXNlcjpVMg==") |};
   {| members := [sample_member "U2" "John Roe" "john@elsewhere.org" false false];
      next_cursor := Some [] |}].

(** A row of an administrator. *)
Definition sample_admin : user_row :=
  {| u_id := lit "U1";
     u_username := lit "jane";
     u_first_name := lit "Jane";
     u_last_name := lit "Doe";
     u_real_name := lit "Jane Doe";
     u_email := lit "jane@xxx.com";
     u_is_admin := true |}.

Definition sample_command : command :=
  {| user_id := lit "U1"; channel_id := lit "C1" |}.

End Admin.
(** * Properties *)

Arguments ascii_dec : simpl never.

(** Closed decidable facts, by evaluation. *)
Ltac by_compute :=
  match goal with
  | |- ?P =>
      let d := constr:(_ : Decision P) in
      apply (@bool_decide_unpack P d); vm_compute; exact I
  end.

(** ** Prefixes and substrings *)

Lemma startswith_true p s :
  Py.startswith p s = true <-> exists r, s = p ++ r.
Proof.
  revert s; induction p as [|a p IH]; intros s; simpl.
  - split; [intros _; exists s; reflexivity | reflexivity].
  - destruct s as [|b s].
    + split; [discriminate | intros [r Hr]; discriminate].
    + destruct (ascii_dec a b) as [->|Hne].
      * rewrite IH. split; intros [r Hr]; exists r; simpl in *; congruence.
      * split; [discriminate | intros [r Hr]; simpl in Hr; congruence].
Qed.

Lemma startswith_app p r : Py.startswith p (p ++ r) = true.
Proof. apply startswith_true; eauto. Qed.

Lemma contains_true sub s : Py.contains sub s = true <-> infix sub s.
Proof.
  induction s as [|c s IH]; simpl.
  - rewrite orb_false_r, startswith_true. split.
    + intros [r Hr]. exists [], r. exact Hr.
    + intros (a & b & Hab). destruct a; [eauto|discriminate].
  - rewrite orb_true_iff, startswith_true, IH. split.
    + intros [[r Hr]|(a & b & Hab)].
      * exists [], r. exact Hr.
      * exists (c :: a), b. simpl. congruence.
    + intros (a & b & Hab). destruct a as [|c' a]; simpl in Hab.
      * left. eauto.
      * right. exists a, b. congruence.
Qed.

Lemma contains_false sub s : Py.contains sub s = false <-> ~ infix sub s.
Proof.
  rewrite <- contains_true. destruct (Py.contains sub s); split;
    congruence || tauto.
Qed.

Lemma infix_map (f : ascii -> ascii) sub s :
  infix sub s -> infix (map f sub) (map f s).
Proof.
  intros (a & b & ->). exists (map f a), (map f b).
  now rewrite !map_app.
Qed.

Lemma infix_elem sub s c : infix sub s -> c ∈ sub -> c ∈ s.
Proof.
  intros (a & b & ->) Hc. rewrite !elem_of_app. tauto.
Qed.

(** ** Lower-casing *)

Lemma lower_char_not_upper_S c : Py.lower_char c <> "S"%char.
Proof. destruct c as [[] [] [] [] [] [] [] []]; vm_compute; discriminate. Qed.

Lemma contains_lower sub s :
  Py.contains sub s = true ->
  Py.contains (Py.lower sub) (Py.lower s) = true.
Proof. rewrite !contains_true. apply infix_map. Qed.

Lemma capital_S_not_in_lower sub s :
  "S"%char ∈ sub -> Py.contains sub (Py.lower s) = false.
Proof.
  intros HS. apply contains_false. intros Hin.
  pose proof (infix_elem _ _ _ Hin HS) as Hs.
  unfold Py.lower in Hs. apply list_elem_of_fmap in Hs as (c & Hc & _).
  symmetry in Hc. exact (lower_char_not_upper_S c Hc).
Qed.

(** ** Title derivation *)

Lemma lower_char_fold x :
  Py.lower_char x = ascii_fold x \/
  ((128 <=? nat_of_ascii (Py.lower_char x))%nat
   && (128 <=? nat_of_ascii (ascii_fold x))%nat = true).
Proof.
  destruct x as [[] [] [] [] [] [] [] []]; vm_compute;
    first [left; reflexivity | right; reflexivity].
Qed.

Lemma lower_fold_same x c :
  (nat_of_ascii c <? 128)%nat = true ->
  Py.lower_char x = c <-> ascii_fold x = c.
Proof.
  intros Hc. destruct (lower_char_fold x) as [->|Hhigh]; [reflexivity|].
  apply andb_true_iff in Hhigh as [H1 H2].
  apply Nat.leb_le in H1, H2. apply Nat.ltb_lt in Hc.
  split; intros <-; lia.
Qed.

Lemma map_lower_fold w p :
  Forall (fun c => (nat_of_ascii c <? 128)%nat = true) p ->
  map Py.lower_char w = p <-> map ascii_fold w = p.
Proof.
  intros Hp. revert w.
  induction Hp as [|c p Hc Hp IH]; intros [|x w]; cbn [map];
    try (split; (discriminate || reflexivity)).
  split; intros [= Hx Hw]; f_equal;
    first [now apply (lower_fold_same x c Hc) | now apply IH].
Qed.

Lemma infix_map_inv (f : ascii -> ascii) p m :
  infix p (map f m) <-> exists a w b, m = a ++ w ++ b /\ map f w = p.
Proof.
  split.
  - intros (a' & b' & H).
    apply (fmap_app_inv f) in H as (a & r & _ & Hr & ->).
    symmetry in Hr.
    apply (fmap_app_inv f) in Hr as (w & b & -> & _ & ->).
    exists a, w, b. split; reflexivity.
  - intros (a & w & b & -> & <-). exists (map f a), (map f b).
    now rewrite !map_app.
Qed.

Lemma infix_lower_fold p m :
  Forall (fun c => (nat_of_ascii c <? 128)%nat = true) p ->
  infix p (Py.lower m) <-> infix p (ignoring_case m).
Proof.
  intros Hp. unfold Py.lower, ignoring_case. rewrite !infix_map_inv.
  split; intros (a & w & b & -> & Hw); exists a, w, b;
    (split; [reflexivity|]); now apply (map_lower_fold w p Hp).
Qed.

(** Looking for a word of ASCII written in lower case in the lower-cased
    message is looking for the word in whatever case. *)
Lemma contains_in_lower word m :
  Forall (fun c => (nat_of_ascii c <? 128)%nat = true) word ->
  ignoring_case word = word ->
  Py.contains word (Py.lower m) = true <-> occurs_ignoring_case word m.
Proof.
  intros Hword Hfold. unfold occurs_ignoring_case.
  rewrite Hfold, contains_true. now apply infix_lower_fold.
Qed.

Ltac word_of_ascii := split; [by_compute | reflexivity].

Lemma contains_in_lower_word word m :
  (Forall (fun c => (nat_of_ascii c <? 128)%nat = true) word /\
   ignoring_case word = word) ->
  Py.contains word (Py.lower m) = true <-> occurs_ignoring_case word m.
Proof. intros [H1 H2]. now apply contains_in_lower. Qed.

Lemma orb_contains a b m :
  Py.contains a m || Py.contains b m = true <-> infix a m \/ infix b m.
Proof. now rewrite orb_true_iff, !contains_true. Qed.

(** The test of each row of the source against the row of the table. *)
Lemma row_slack m :
  Py.contains (lit "slack") (Py.lower m) || Py.contains (lit "Slack") m = true
  <-> occurs_ignoring_case (lit "slack") m.
Proof.
  rewrite <- (contains_in_lower_word (lit "slack") m) by word_of_ascii.
  rewrite orb_true_iff. split; [|now left].
  intros [H|H]; [exact H|].
  apply contains_lower in H. exact H.
Qed.

Lemma row_Shadowsocks m :
  Py.contains (lit "Shadowsocks") (Py.lower m)
  || Py.contains (lit "shadowsocks") m
  || Py.contains (lit "cannot connect to IPS") m = true
  <-> infix (lit "shadowsocks") m \/ infix (lit "cannot connect to IPS") m.
Proof.
  rewrite capital_S_not_in_lower by (vm_compute; set_solver).
  cbn [orb]. apply orb_contains.
Qed.

Lemma row_email m :
  Py.contains (lit "magic link") (Py.lower m)
  || Py.contains (lit "update email") (Py.lower m)
  || Py.contains (lit "change the email id") (Py.lower m) = true
  <-> occurs_ignoring_case (lit "magic link") m
      \/ occurs_ignoring_case (lit "update email") m
      \/ occurs_ignoring_case (lit "change the email id") m.
Proof.
  rewrite !orb_true_iff.
  rewrite (contains_in_lower_word (lit "magic link") m) by word_of_ascii.
  rewrite (contains_in_lower_word (lit "update email") m) by word_of_ascii.
  rewrite (contains_in_lower_word (lit "change the email id") m)
    by word_of_ascii.
  tauto.
Qed.

Lemma first_rule_functional rules m l1 l2 :
  first_rule rules m l1 -> first_rule rules m l2 -> l1 = l2.
Proof.
  intros (i & p & Hi & Hp & Hbi) (j & q & Hj & Hq & Hbj).
  destruct (lt_eq_lt_dec i j) as [[Hlt| ->]|Hgt].
  - exfalso. exact (Hbj i p l1 Hlt Hi Hp).
  - rewrite Hi in Hj. now injection Hj.
  - exfalso. exact (Hbi j q l2 Hgt Hj Hq).
Qed.

(** No row above the one chosen holds. *)
Ltac rows_above :=
  let j := fresh "j" in
  let q := fresh "q" in
  let l := fresh "l" in
  let Hj := fresh "Hj" in
  let Hq := fresh "Hq" in
  intros j q l Hj Hq;
  repeat (destruct j as [|j];
          [injection Hq as <- _; cbv beta; tauto|]);
  lia.

Ltac row n := exists n; eexists; split; [reflexivity|]; split.

(** With the rows above the third not holding and the two other keywords of
    the third row decided, the source chooses as the table does as soon as
    "Shadowsocks" itself is out of the way. *)
Lemma title_of_message_below m :
  ~ occurs_ignoring_case (lit "slack") m ->
  ~ (infix (lit "upload") m \/ infix (lit "zoom.us") m) ->
  ~ (infix (lit "shadowsocks") m \/ infix (lit "cannot connect to IPS") m) ->
  title_of_message m <> lit "Shadowsocks issue" /\
  (~ infix (lit "Shadowsocks") m ->
   first_rule spec_title_rules m (title_of_message m)).
Proof.
  intros N1 N2 N3'. unfold title_of_message.
  destruct (_ || _) eqn:H1; [apply row_slack in H1; contradiction|clear H1].
  destruct (_ || _) eqn:H2;
    [apply orb_contains in H2; contradiction|clear H2].
  destruct (_ || _ || _) eqn:H3;
    [apply row_Shadowsocks in H3; contradiction|clear H3].
  assert (Hne : forall s : string,
             s <> "Shadowsocks issue"%string ->
             lit s <> lit "Shadowsocks issue").
  { intros s Hs He. apply Hs. unfold lit in He.
    rewrite <- (string_of_list_ascii_of_string s), He.
    apply string_of_list_ascii_of_string. }
  destruct (_ || _) eqn:H4.
  { split; [apply Hne; discriminate|]. intros N3.
    apply orb_contains in H4. row 3%nat; [exact H4 | rows_above]. }
  assert (N4 : ~ (infix (lit "account") m \/ infix (lit "disabled") m))
    by (rewrite <- orb_contains, H4; discriminate).
  clear H4.
  destruct (_ || _ || _) eqn:H5.
  { split; [apply Hne; discriminate|]. intros N3.
    apply row_email in H5. row 4%nat; [exact H5 | rows_above]. }
  assert (N5 : ~ (occurs_ignoring_case (lit "magic link") m
                  \/ occurs_ignoring_case (lit "update email") m
                  \/ occurs_ignoring_case (lit "change the email id") m))
    by (rewrite <- row_email, H5; discriminate).
  clear H5.
  destruct (_ || _) eqn:H6.
  { split; [apply Hne; discriminate|]. intros N3.
    apply orb_contains in H6. row 5%nat; [exact H6 | rows_above]. }
  assert (N6 : ~ (infix (lit "TnC") m \/ infix (lit "renew") m))
    by (rewrite <- orb_contains, H6; discriminate).
  clear H6.
  destruct (Py.contains (lit "hourly rate") m) eqn:H7.
  { split; [apply Hne; discriminate|]. intros N3.
    apply contains_true in H7. row 6%nat; [exact H7 | rows_above]. }
  apply contains_false in H7.
  split; [discriminate|]. intros N3.
  row 7%nat; [exact I | rows_above].
Qed.

Lemma title_of_message_first_rule m :
  ~ capital_Shadowsocks_only m ->
  first_rule spec_title_rules m (title_of_message m).
Proof.
  intros Hnot.
  destruct (Py.contains (lit "slack") (Py.lower m)
            || Py.contains (lit "Slack") m) eqn:H1.
  { unfold title_of_message. rewrite H1. apply row_slack in H1.
    row 0%nat; [exact H1 | rows_above]. }
  assert (N1 : ~ occurs_ignoring_case (lit "slack") m)
    by (rewrite <- row_slack, H1; discriminate).
  destruct (Py.contains (lit "upload") m || Py.contains (lit "zoom.us") m)
    eqn:H2.
  { unfold title_of_message. rewrite H1, H2. apply orb_contains in H2.
    row 1%nat; [exact H2 | rows_above]. }
  assert (N2 : ~ (infix (lit "upload") m \/ infix (lit "zoom.us") m))
    by (rewrite <- orb_contains, H2; discriminate).
  destruct (Py.contains (lit "Shadowsocks") (Py.lower m)
            || Py.contains (lit "shadowsocks") m
            || Py.contains (lit "cannot connect to IPS") m) eqn:H3.
  { unfold title_of_message. rewrite H1, H2, H3.
    apply row_Shadowsocks in H3.
    row 2%nat; [tauto | rows_above]. }
  assert (N3' : ~ (infix (lit "shadowsocks") m
                   \/ infix (lit "cannot connect to IPS") m))
    by (rewrite <- row_Shadowsocks, H3; discriminate).
  apply title_of_message_below; try assumption.
  intros HS. apply Hnot. unfold capital_Shadowsocks_only. tauto.
Qed.

Lemma capital_Shadowsocks_only_titles m :
  capital_Shadowsocks_only m ->
  first_rule spec_title_rules m (lit "Shadowsocks issue") /\
  title_of_message m <> lit "Shadowsocks issue".
Proof.
  intros (HS & N1 & Nu & Nz & Ns & Ni). split.
  - row 2%nat; [now left | rows_above].
  - apply title_of_message_below; tauto.
Qed.

(** C3. The source does not evaluate the rule table of the specification
    on every message.  On "my Shadowsocks account is disabled" the third
    row is the first that holds, and the title is "Google account
    disabled": the capitalised spelling is looked for in the lower-cased
    message.  On every message on which "Shadowsocks" alone decides the
    third row, the table says "Shadowsocks issue" and the source something
    else; on every other message the title is the label of the first row
    that holds, the empty string when no keyword row holds.  A message
    that contains both "slack" and "upload" is titled "Slack issue", never
    "Upload Consultation". *)
Theorem title_is_first_rule_but_for_capital_Shadowsocks :
  first_rule spec_title_rules (lit "my Shadowsocks account is disabled")
    (lit "Shadowsocks issue") /\
  title_of_message (lit "my Shadowsocks account is disabled")
  = lit "Google account disabled" /\
  (forall m, capital_Shadowsocks_only m ->
     first_rule spec_title_rules m (lit "Shadowsocks issue") /\
     title_of_message m <> lit "Shadowsocks issue") /\
  (forall m label, ~ capital_Shadowsocks_only m ->
     first_rule spec_title_rules m label <-> title_of_message m = label) /\
  (forall m, infix (lit "slack") m -> infix (lit "upload") m ->
     title_of_message m = lit "Slack issue" /\
     title_of_message m <> lit "Upload Consultation").
Proof.
  split; [|split; [reflexivity|split; [|split]]].
  - apply capital_Shadowsocks_only_titles.
    unfold capital_Shadowsocks_only, occurs_ignoring_case.
    rewrite <- contains_true, <- !contains_false.
    repeat split; reflexivity.
  - apply capital_Shadowsocks_only_titles.
  - intros m label Hnot.
    pose proof (title_of_message_first_rule m Hnot) as Hcode.
    split.
    + intros Hlabel. exact (first_rule_functional _ _ _ _ Hcode Hlabel).
    + intros <-. exact Hcode.
  - intros m Hslack _.
    assert (Htitle : title_of_message m = lit "Slack issue").
    { unfold title_of_message.
      apply contains_true, contains_lower in Hslack.
      change (Py.lower (lit "slack")) with (lit "slack") in Hslack.
      now rewrite Hslack. }
    rewrite Htitle. split; [reflexivity | discriminate].
Qed.

Lemma title_is_first_rule_but_for_capital_Shadowsocks_witness :
  first_rule spec_title_rules (lit "cannot upload the recording to slack")
    (lit "Slack issue").
Proof.
  destruct title_is_first_rule_but_for_capital_Shadowsocks
    as (_ & _ & _ & Hrule & _).
  apply Hrule; [|reflexivity].
  intros (HS & _). apply contains_true in HS. vm_compute in HS.
  discriminate HS.
Defined.

(** C4. The capitalised spelling is looked for in the lower-cased message,
    where it can never occur: "Shadowsocks is down" contains "Shadowsocks",
    matches neither of the first two rules, and gets the empty title instead
    of "Shadowsocks issue". *)
Theorem capitalised_Shadowsocks_gets_no_title :
  (forall m, Py.contains (lit "Shadowsocks") (Py.lower m) = false) /\
  Py.contains (lit "Shadowsocks") (lit "Shadowsocks is down") = true /\
  Py.contains (lit "slack") (Py.lower (lit "Shadowsocks is down")) = false /\
  Py.contains (lit "Slack") (lit "Shadowsocks is down") = false /\
  Py.contains (lit "upload") (lit "Shadowsocks is down") = false /\
  Py.contains (lit "zoom.us") (lit "Shadowsocks is down") = false /\
  title_of_message (lit "Shadowsocks is down") = [] /\
  title_of_message (lit "Shadowsocks is down") <> lit "Shadowsocks issue".
Proof.
  split.
  - intros m. apply capital_S_not_in_lower. vm_compute. set_solver.
  - repeat split; try reflexivity. discriminate.
Qed.

(** ** Stripping *)

Lemma lstrip_by_suffix f s : exists w, s = w ++ Py.lstrip_by f s.
Proof.
  induction s as [|c s [w Hw]]; simpl.
  - exists []. reflexivity.
  - destruct (f c).
    + exists (c :: w). simpl. congruence.
    + exists []. reflexivity.
Qed.

Lemma rstrip_by_prefix f s : exists w, s = Py.rstrip_by f s ++ w.
Proof.
  unfold Py.rstrip_by.
  destruct (lstrip_by_suffix f (rev s)) as [w Hw].
  exists (rev w).
  rewrite <- rev_app_distr, <- Hw. symmetry. apply rev_involutive.
Qed.

Lemma rstrip_by_snoc f s c :
  f c = true -> Py.rstrip_by f (s ++ [c]) = Py.rstrip_by f s.
Proof.
  intros Hc. unfold Py.rstrip_by. rewrite rev_app_distr. simpl.
  now rewrite Hc.
Qed.

Lemma rstrip_line body : Py.rstrip (body ++ [Py.LF]) = Py.rstrip body.
Proof. apply rstrip_by_snoc. reflexivity. Qed.

Lemma rstrip_elem c s : c ∈ Py.rstrip s -> c ∈ s.
Proof.
  intros Hc. destruct (rstrip_by_prefix Py.isspace s) as [w Hw].
  rewrite Hw. apply elem_of_app. now left.
Qed.

Lemma rstrip_infix s : infix (Py.rstrip s) s.
Proof.
  destruct (rstrip_by_prefix Py.isspace s) as [w Hw].
  exists [], w. exact Hw.
Qed.

(** ** Lines of a text *)

Lemma universal_newlines_no_CR s : Py.CR ∉ universal_newlines s.
Proof.
  remember (length s) as n eqn:Hn. revert s Hn.
  induction n as [n IH] using lt_wf_ind. intros s ->.
  destruct s as [|c s]; simpl.
  - apply not_elem_of_nil.
  - destruct (ascii_dec c Py.CR) as [->|Hc].
    + apply not_elem_of_cons. split; [discriminate|].
      destruct s as [|d s]; [apply not_elem_of_nil|].
      destruct (ascii_dec d Py.LF).
      * apply (IH (length s)); simpl; [lia | reflexivity].
      * apply (IH (length (d :: s))); simpl; [lia | reflexivity].
    + apply not_elem_of_cons. split; [congruence|].
      apply (IH (length s)); simpl; [lia | reflexivity].
Qed.

Lemma universal_newlines_id s : Py.CR ∉ s -> universal_newlines s = s.
Proof.
  induction s as [|c s IH]; intros Hs; simpl; [reflexivity|].
  apply not_elem_of_cons in Hs as [Hc Hs].
  destruct (ascii_dec c Py.CR); [congruence|].
  now rewrite IH.
Qed.

Lemma concat_lines_of s : concat (lines_of s) = s.
Proof.
  induction s as [|c s IH]; simpl; [reflexivity|].
  destruct (ascii_dec c Py.LF) as [->|Hc]; simpl; [now rewrite IH|].
  destruct (lines_of s) as [|l rest]; simpl in *; now rewrite <- IH.
Qed.

Lemma lines_of_wf s : wf_lines (lines_of s).
Proof.
  induction s as [|c s IH]; simpl; [constructor|].
  destruct (ascii_dec c Py.LF) as [->|Hc].
  - apply (wf_lines_cons []); [apply not_elem_of_nil | exact IH].
  - inversion IH as [Hnil | body Hne Hbody Hone | body rest Hbody Hrest Hcons].
    + apply wf_lines_last; [discriminate|].
      apply not_elem_of_cons. split; [congruence | apply not_elem_of_nil].
    + apply wf_lines_last; [discriminate|].
      apply not_elem_of_cons. split; [congruence | exact Hbody].
    + apply (wf_lines_cons (c :: body)); [|exact Hrest].
      apply not_elem_of_cons. split; [congruence | exact Hbody].
Qed.

Lemma lines_of_terminated body rest :
  Py.LF ∉ body ->
  lines_of ((body ++ [Py.LF]) ++ rest) = (body ++ [Py.LF]) :: lines_of rest.
Proof.
  induction body as [|c body IH]; intros Hbody; simpl.
  - destruct (ascii_dec Py.LF Py.LF); [reflexivity | congruence].
  - apply not_elem_of_cons in Hbody as [Hc Hbody].
    destruct (ascii_dec c Py.LF); [congruence|].
    now rewrite IH.
Qed.

Lemma lines_of_unterminated body :
  body <> [] -> Py.LF ∉ body -> lines_of body = [body].
Proof.
  induction body as [|c body IH]; intros Hne Hbody; [congruence|].
  apply not_elem_of_cons in Hbody as [Hc Hbody]. simpl.
  destruct (ascii_dec c Py.LF); [congruence|].
  destruct body as [|d body]; [reflexivity|].
  now rewrite IH.
Qed.

Lemma lines_of_concat L : wf_lines L -> lines_of (concat L) = L.
Proof.
  induction 1 as [|body Hne Hbody|body rest Hbody Hrest IH]; simpl.
  - reflexivity.
  - rewrite app_nil_r. now apply lines_of_unterminated.
  - rewrite lines_of_terminated by assumption. now rewrite IH.
Qed.

Lemma wf_lines_filter f L : wf_lines L -> wf_lines (List.filter f L).
Proof.
  induction 1 as [|body Hne Hbody|body rest Hbody Hrest IH]; simpl.
  - constructor.
  - destruct (f body); now constructor.
  - destruct (f (body ++ [Py.LF])); [now constructor | exact IH].
Qed.

Lemma readlines_wf content : wf_lines (readlines content).
Proof. apply lines_of_wf. Qed.

Lemma elem_of_concat (c : ascii) (L : list str) :
  c ∈ concat L <-> exists line, c ∈ line /\ line ∈ L.
Proof.
  rewrite list_elem_of_In, in_concat. split.
  - intros (line & Hline & Hc). exists line.
    now rewrite !list_elem_of_In.
  - intros (line & Hc & Hline). exists line.
    now rewrite <- !list_elem_of_In.
Qed.

Lemma readlines_no_CR content line :
  line ∈ readlines content -> Py.CR ∉ line.
Proof.
  intros Hline HCR.
  apply (universal_newlines_no_CR content).
  unfold readlines in Hline.
  rewrite <- (concat_lines_of (universal_newlines content)).
  apply elem_of_concat. eauto.
Qed.

Lemma concat_no_CR (L : list str) :
  (forall line, line ∈ L -> Py.CR ∉ line) -> Py.CR ∉ concat L.
Proof.
  intros HL Hin. apply elem_of_concat in Hin as (line & Hc & Hline).
  exact (HL line Hline Hc).
Qed.

Lemma readlines_concat L :
  wf_lines L -> (forall line, line ∈ L -> Py.CR ∉ line) ->
  readlines (concat L) = L.
Proof.
  intros Hwf HCR. unfold readlines.
  rewrite universal_newlines_id by now apply concat_no_CR.
  now apply lines_of_concat.
Qed.

(** ** The tracker file *)

Lemma elem_of_kept_lines t lines line :
  line ∈ kept_lines t lines <-> line ∈ lines /\ ~ infix t line.
Proof.
  unfold kept_lines.
  rewrite !list_elem_of_In, filter_In, negb_true_iff, contains_false.
  reflexivity.
Qed.

Lemma elem_of_load content x :
  x ∈ load_ticketed_threads_from (Some content) <->
  exists line, line ∈ readlines content /\ x = Py.rstrip line.
Proof.
  simpl. rewrite elem_of_list_to_set.
  change (map Py.rstrip (readlines content))
    with (Py.rstrip <$> readlines content).
  rewrite list_elem_of_fmap. split; intros (line & ? & ?); eauto.
Qed.

Lemma readlines_kept t content :
  readlines (concat (kept_lines t (readlines content)))
  = kept_lines t (readlines content).
Proof.
  apply readlines_concat.
  - apply wf_lines_filter, readlines_wf.
  - intros line Hline. apply elem_of_kept_lines in Hline as [Hline _].
    exact (readlines_no_CR content line Hline).
Qed.

Lemma snoc_eq_app_last (body a k : str) (c : ascii) :
  body ++ [c] = a ++ k -> k <> [] -> c ∈ k.
Proof.
  intros Heq Hk.
  destruct (exists_last Hk) as (k' & d & ->).
  rewrite app_assoc in Heq. apply app_inj_tail in Heq as [_ ->].
  apply elem_of_app. right. apply list_elem_of_singleton. reflexivity.
Qed.

Lemma infix_concat_lines t L :
  wf_lines L -> t <> [] -> Py.LF ∉ t ->
  infix t (concat L) -> exists line, line ∈ L /\ infix t line.
Proof.
  intros Hwf Hne HLF.
  induction Hwf as [|body Hb Hbody|body rest Hbody Hrest IH]; simpl.
  - intros (a & b & Hab). destruct a, t; simpl in Hab; congruence.
  - rewrite app_nil_r. intros Hin. exists body. split; [|exact Hin].
    apply list_elem_of_singleton. reflexivity.
  - intros (a & b & Hab).
    assert (Hrest_in : infix t (concat rest) ->
            exists line, line ∈ (body ++ [Py.LF]) :: rest /\ infix t line).
    { intros Hin. destruct (IH Hin) as (line & Hline & Hinfix).
      exists line. split; [now apply elem_of_cons; right | exact Hinfix]. }
    symmetry in Hab. apply app_eq_inv in Hab as [(k & Ha & Hk)|(k & Hk & Htb)].
    + apply Hrest_in. exists k, b. exact Hk.
    + apply app_eq_inv in Htb as [(k' & Ht & Hc)|(k' & Hk' & Hb')].
      * destruct k as [|d k].
        -- apply Hrest_in. exists [], b. simpl in *. congruence.
        -- exfalso. apply HLF. rewrite Ht. apply elem_of_app. left.
           apply (snoc_eq_app_last body a (d :: k)); [exact Hk | discriminate].
      * exists (body ++ [Py.LF]). split; [apply elem_of_cons; now left|].
        exists a, k'. rewrite Hk, Hk'. reflexivity.
Qed.

Lemma wf_lines_body L line :
  wf_lines L -> line ∈ L ->
  exists body, (Py.LF ∉ body) /\ (line = body ++ [Py.LF] \/ line = body).
Proof.
  induction 1 as [|body Hne Hbody|body rest Hbody Hrest IH]; intros Hline.
  - now apply elem_of_nil in Hline.
  - apply list_elem_of_singleton in Hline as ->. eauto.
  - apply elem_of_cons in Hline as [->|Hline]; eauto.
Qed.

Lemma load_one_line file x :
  x ∈ load_ticketed_threads_from file -> (Py.LF ∉ x) /\ (Py.CR ∉ x).
Proof.
  destruct file as [content|]; [|intros H; now apply elem_of_empty in H].
  intros Hx. apply elem_of_load in Hx as (line & Hline & ->).
  pose proof (readlines_no_CR _ _ Hline) as HCR.
  destruct (wf_lines_body _ _ (readlines_wf content) Hline)
    as (body & Hbody & [->| ->]).
  - rewrite rstrip_line. split; intros Hc; apply rstrip_elem in Hc.
    + exact (Hbody Hc).
    + apply HCR, elem_of_app. now left.
  - split; intros Hc; apply rstrip_elem in Hc; auto.
Qed.

Lemma wf_lines_terminated (l : list str) :
  (forall x, x ∈ l -> Py.LF ∉ x) ->
  wf_lines (map (fun x => x ++ [Py.LF]) l).
Proof.
  induction l as [|x l IH]; intros Hl; simpl; constructor.
  - apply Hl, elem_of_cons. now left.
  - apply IH. intros y Hy. apply Hl, elem_of_cons. now right.
Qed.

Lemma load_saved (iter : gset str -> list str) (threads : gset str) t :
  (forall x, x ∈ iter threads -> (Py.LF ∉ x) /\ (Py.CR ∉ x)) ->
  t ∈ iter threads -> Py.rstrip t = t ->
  t ∈ load_ticketed_threads_from (Some (saved_content iter threads)).
Proof.
  intros Hclean Ht Hstrip. apply elem_of_load.
  exists (t ++ [Py.LF]). split; [|now rewrite rstrip_line].
  unfold saved_content. rewrite readlines_concat.
  - apply list_elem_of_In, in_map_iff. exists t.
    split; [reflexivity | now apply list_elem_of_In].
  - apply wf_lines_terminated. intros x Hx. now apply Hclean.
  - intros line Hline.
    apply list_elem_of_In, in_map_iff in Hline as (x & <- & Hx).
    apply list_elem_of_In in Hx. destruct (Hclean x Hx) as [_ HCR].
    intros Hc. apply elem_of_app in Hc as [Hc|Hc]; [exact (HCR Hc)|].
    apply list_elem_of_singleton in Hc. discriminate.
Qed.

Lemma iterates_elem (iter : gset str -> list str) threads x :
  iterates iter -> x ∈ iter threads <-> x ∈ threads.
Proof. intros Hiter. rewrite (Hiter threads). apply elem_of_elements. Qed.

Lemma isOpen_after_markOpen (iter : gset str -> list str) t file :
  iterates iter -> thread_token t -> isOpen t (markOpen iter t file) = true.
Proof.
  intros Hiter (Hne & HLF & HCR & Hstrip).
  unfold isOpen, markOpen. apply bool_decide_eq_true.
  apply load_saved; [|apply (iterates_elem _ _ _ Hiter); set_solver|exact Hstrip].
  intros x Hx. apply (iterates_elem _ _ _ Hiter) in Hx.
  apply elem_of_union in Hx as [Hx|Hx].
  - exact (load_one_line file x Hx).
  - apply elem_of_singleton in Hx as ->. auto.
Qed.

(** ** The create path *)

Arguments ticket_fields : simpl never.
Arguments saved_content : simpl never.
Arguments load_ticketed_threads_from : simpl never.
Arguments resolving_reply : simpl never.
Arguments created_reply : simpl never.
Arguments lit : simpl never.

Ltac unfold_handler :=
  unfold mbind, M_bind, mret, M_ret, bind, ret, raise, emit, call,
    of_option, of_outcome, read_tracker, write_tracker,
    load_ticketed_threads, save_ticketed_threads; simpl.

Lemma raise_ticket_tracked iter db E event w :
  thread_of event ∈ load_ticketed_threads_from (tracker_file w) ->
  raise_ticket iter db E event w =
  let tr := trace w ++
            [Ack; ChatPostMessage (ev_channel event)
                    (resolving_reply (ev_user event))
                    (Some (thread_of event))] in
  (on_chat_postMessage E tr, world_of (tracker_file w) tr).
Proof.
  intros Hin. unfold raise_ticket. unfold_handler.
  rewrite bool_decide_eq_true_2 by exact Hin.
  unfold world_of. simpl. rewrite <- app_assoc. reflexivity.
Qed.

Lemma raise_ticket_untracked iter db E event w :
  thread_of event ∉ load_ticketed_threads_from (tracker_file w) ->
  thread_of event <> [] ->
  raise_ticket iter db E event w =
  let t := thread_of event in
  let content :=
    saved_content iter (load_ticketed_threads_from (tracker_file w) ∪ {[ t ]}) in
  let data := ticket_fields db event (concat (Py.split (lit ".") t)) in
  let tr := trace w ++ [Ack; WriteTracker content; ItopCreate data] in
  match on_requests_post E tr with
  | Raise e => (Raise e, world_of (Some content) tr)
  | Ok response =>
      if negb (status_code response =? 200) then
        (Ok tt,
         world_of (Some content)
           (tr ++ [LogError (lit "Failed to create iTop ticket: "
                             ++ response_text response)]))
      else
        match response_objects response with
        | None => (Raise AttributeError, world_of (Some content) tr)
        | Some objects =>
            match Py.index objects 0 with
            | None => (Raise IndexError, world_of (Some content) tr)
            | Some name =>
                let tr' := tr ++ [ChatPostMessage (ev_channel event)
                                    (created_reply (ev_user event) name)
                                    (Some t)] in
                (on_chat_postMessage E tr', world_of (Some content) tr')
            end
        end
  end.
Proof.
  intros Hout Hne. unfold raise_ticket. unfold_handler.
  rewrite bool_decide_eq_false_2 by exact Hout.
  destruct (thread_of event) as [|c t] eqn:Ht; [congruence|].
  simpl. unfold world_of.
  repeat rewrite <- app_assoc. simpl.
  destruct (on_requests_post E _) as [response|e]; [|reflexivity].
  destruct (negb (status_code response =? 200)); [reflexivity|].
  destruct (response_objects response) as [objects|]; [|reflexivity].
  simpl. destruct (Py.index objects 0); reflexivity.
Qed.

Lemma raise_ticket_unbound iter db E event w :
  thread_of event ∉ load_ticketed_threads_from (tracker_file w) ->
  thread_of event = [] ->
  raise_ticket iter db E event w =
  let content :=
    saved_content iter (load_ticketed_threads_from (tracker_file w) ∪ {[ [] ]}) in
  (Raise UnboundLocalError,
   world_of (Some content) (trace w ++ [Ack; WriteTracker content])).
Proof.
  intros Hout He. unfold raise_ticket. unfold_handler.
  rewrite bool_decide_eq_false_2 by exact Hout.
  rewrite He. unfold world_of. simpl. now rewrite <- app_assoc.
Qed.

Lemma iterates_elements : iterates elements.
Proof. intros threads. reflexivity. Qed.

(** C1. A mention on a thread that is already in the tracker only gets the
    "we are resolving the ticket" reply in its thread; no creation request
    is made and the file is left as it is.  Hence two mentions on the same
    thread, the first on a thread not tracked yet, make exactly one creation
    request, and the second mention only replies. *)
Theorem duplicate_mention_creates_no_ticket
    (iter : gset str -> list str) (db1 db2 : list user_row) (E1 E2 : env)
    (event1 event2 : mention_event) (file : option str) :
  let t := thread_of event2 in
  let reply := ChatPostMessage (ev_channel event2)
                 (resolving_reply (ev_user event2)) (Some t) in
  (t ∈ load_ticketed_threads_from file ->
   run (raise_ticket iter db2 E2 event2) file
   = (on_chat_postMessage E2 [Ack; reply], world_of file [Ack; reply]) /\
   creations [Ack; reply] = 0%nat) /\
  (iterates iter -> thread_token t -> thread_of event1 = t ->
   t ∉ load_ticketed_threads_from file ->
   let w1 := (run (raise_ticket iter db1 E1 event1) file).2 in
   let w2 := (run (raise_ticket iter db2 E2 event2) (tracker_file w1)).2 in
   creations (trace w1) = 1%nat /\
   trace w2 = [Ack; reply] /\
   tracker_file w2 = tracker_file w1 /\
   creations (trace w1 ++ trace w2) = 1%nat).
Proof.
  intros t reply. split.
  - intros Hin. unfold run. rewrite raise_ticket_tracked by exact Hin.
    split; reflexivity.
  - intros Hiter Htoken Hsame Hout w1 w2.
    assert (Hfirst : creations (trace w1) = 1%nat /\
                     tracker_file w1 = markOpen iter t file).
    { subst w1. unfold run.
      rewrite raise_ticket_untracked; simpl;
        [|rewrite Hsame; exact Hout|rewrite Hsame; apply Htoken].
      rewrite Hsame. fold t.
      destruct (on_requests_post E1 _) as [response|e]; [|now split].
      destruct (negb (status_code response =? 200)); [now split|].
      destruct (response_objects response) as [objects|]; [|now split].
      destruct (Py.index objects 0); now split. }
    destruct Hfirst as [Hone Hfile].
    assert (Hsecond : trace w2 = [Ack; reply] /\
                      tracker_file w2 = tracker_file w1).
    { subst w2. unfold run. rewrite raise_ticket_tracked.
      - split; reflexivity.
      - simpl. rewrite Hfile.
        pose proof (isOpen_after_markOpen iter t file Hiter Htoken) as Hopen.
        unfold isOpen in Hopen. now apply bool_decide_eq_true in Hopen. }
    destruct Hsecond as [Htrace Hkeep].
    repeat split; try assumption.
    unfold creations in *. rewrite List.filter_app, length_app, Hone, Htrace.
    reflexivity.
Qed.

Lemma duplicate_mention_creates_no_ticket_witness :
  let first :=
    (run (raise_ticket elements [] (answering 200 (lit "R-000111") [])
            sample_mention) None).2 in
  let second :=
    (run (raise_ticket elements [] (answering 200 (lit "R-000111") [])
            sample_mention) (tracker_file first)).2 in
  creations (trace first ++ trace second) = 1%nat /\
  creations
    (trace (run (raise_ticket elements [] (answering 200 (lit "R-000111") [])
                   sample_mention)
              (Some (lit "1699999999.123456" ++ [Py.LF]))).2) = 0%nat.
Proof.
  split.
  - apply (duplicate_mention_creates_no_ticket elements [] []
             (answering 200 (lit "R-000111") [])
             (answering 200 (lit "R-000111") [])
             sample_mention sample_mention None).
    + exact iterates_elements.
    + repeat split; by_compute.
    + reflexivity.
    + apply not_elem_of_empty.
  - destruct (duplicate_mention_creates_no_ticket elements [] []
                (answering 200 (lit "R-000111") [])
                (answering 200 (lit "R-000111") [])
                sample_mention sample_mention
                (Some (lit "1699999999.123456" ++ [Py.LF]))) as [Hguard _].
    destruct Hguard as [Hrun Hnone]; [by_compute|].
    rewrite Hrun. exact Hnone.
Defined.

Lemma find_no_row (f : user_row -> bool) (db : list user_row) :
  (forall row, row ∈ db -> f row = false) -> List.find f db = None.
Proof.
  induction db as [|row db IH]; intros Hnone; simpl; [reflexivity|].
  rewrite (Hnone row) by (apply elem_of_cons; now left).
  apply IH. intros r Hr. apply Hnone, elem_of_cons. now right.
Qed.

(** C7. On a thread that is not tracked yet the create path writes the
    whole set, the new thread included, before it sends the creation
    request; the file stays as written whatever happens next.  When iTop
    answers with a status other than 200 the handler logs the failure and
    returns: the file still holds the thread, and no reply is posted. *)
Theorem failed_creation_is_not_rolled_back
    (iter : gset str -> list str) (db : list user_row) (E : env)
    (event : mention_event) (file : option str) :
  let t := thread_of event in
  let content :=
    saved_content iter (load_ticketed_threads_from file ∪ {[ t ]}) in
  let data := ticket_fields db event (concat (Py.split (lit ".") t)) in
  t ∉ load_ticketed_threads_from file ->
  (exists rest,
      (run (raise_ticket iter db E event) file).2
      = world_of (Some content) ([Ack; WriteTracker content] ++ rest) /\
      (t <> [] -> exists rest', rest = ItopCreate data :: rest')) /\
  (t <> [] ->
   forall response,
     on_requests_post E [Ack; WriteTracker content; ItopCreate data]
     = Ok response ->
     status_code response <> 200 ->
     run (raise_ticket iter db E event) file
     = (Ok tt,
        world_of (Some content)
          [Ack; WriteTracker content; ItopCreate data;
           LogError (lit "Failed to create iTop ticket: "
                     ++ response_text response)])) /\
  (iterates iter -> thread_token t -> isOpen t (Some content) = true).
Proof.
  intros t content data Hout. split; [|split].
  - destruct (decide (t = [])) as [He|Hne].
    + exists []. unfold run. rewrite raise_ticket_unbound by assumption.
      simpl. fold t. rewrite <- He. fold content. split; [reflexivity|].
      intros Hne. congruence.
    + unfold run. rewrite raise_ticket_untracked by assumption.
      simpl. fold t content data.
      destruct (on_requests_post E _) as [response|e];
        [|eexists; split; [reflexivity|eauto]].
      destruct (negb (status_code response =? 200));
        [eexists; split; [reflexivity|eauto]|].
      destruct (response_objects response) as [objects|];
        [|eexists; split; [reflexivity|eauto]].
      destruct (Py.index objects 0); eexists; (split; [reflexivity|eauto]).
  - intros Hne response Hanswer Hstatus.
    unfold run. rewrite raise_ticket_untracked by assumption.
    simpl. fold t content data. rewrite Hanswer.
    apply Z.eqb_neq in Hstatus. rewrite Hstatus. reflexivity.
  - intros Hiter Htoken.
    exact (isOpen_after_markOpen iter t file Hiter Htoken).
Qed.

Lemma failed_creation_is_not_rolled_back_witness :
  exists content data msg,
    run (raise_ticket elements [] (answering 500 [] []) sample_mention) None
    = (Ok tt,
       world_of (Some content)
         [Ack; WriteTracker content; ItopCreate data; LogError msg]) /\
    isOpen (lit "1699999999.123456") (Some content) = true.
Proof.
  destruct (failed_creation_is_not_rolled_back elements []
              (answering 500 [] []) sample_mention None)
    as (_ & Hfail & Hopen).
  - apply not_elem_of_empty.
  - do 3 eexists. split.
    + apply Hfail; [by_compute | reflexivity | by_compute].
    + apply Hopen; [exact iterates_elements | repeat split; by_compute].
Defined.

(** C10. For an author without a row in the identity store the name lookup
    gives the pair of empty strings, and on the create path (a thread that
    is not tracked, with the non-empty token of a mention) the creation
    request is still sent, its caller first name and name both empty. *)
Theorem unknown_author_gets_empty_caller
    (iter : gset str -> list str) (db : list user_row) (E : env)
    (event : mention_event) (file : option str) :
  (forall row, row ∈ db -> u_id row <> ev_user event) ->
  get_user_info_from_db db (ev_user event) = ([], []) /\
  (thread_of event ∉ load_ticketed_threads_from file ->
   thread_of event <> [] ->
   exists content data rest,
     trace (run (raise_ticket iter db E event) file).2
     = [Ack; WriteTracker content; ItopCreate data] ++ rest /\
     caller_first_name data = [] /\ caller_name data = []).
Proof.
  intros Hnone.
  assert (Hlookup : get_user_info_from_db db (ev_user event) = ([], [])).
  { unfold get_user_info_from_db. rewrite find_no_row; [reflexivity|].
    intros row Hrow. apply bool_decide_eq_false. exact (Hnone row Hrow). }
  split; [exact Hlookup|].
  intros Hout Hne.
  exists (saved_content iter
            (load_ticketed_threads_from file ∪ {[ thread_of event ]})),
    (ticket_fields db event (concat (Py.split (lit ".") (thread_of event)))).
  assert (Hfields :
    forall fixed, caller_first_name (ticket_fields db event fixed) = [] /\
                  caller_name (ticket_fields db event fixed) = []).
  { intros fixed. unfold ticket_fields. rewrite Hlookup. split; reflexivity. }
  unfold run. rewrite raise_ticket_untracked by assumption. simpl.
  destruct (on_requests_post E _) as [response|e];
    [|exists []; split; [reflexivity | apply Hfields]].
  destruct (negb (status_code response =? 200));
    [eexists; split; [reflexivity | apply Hfields]|].
  destruct (response_objects response) as [objects|];
    [|exists []; split; [reflexivity | apply Hfields]].
  destruct (Py.index objects 0);
    [eexists | exists []]; (split; [reflexivity | apply Hfields]).
Qed.

Lemma unknown_author_gets_empty_caller_witness :
  exists content data rest,
    trace (run (raise_ticket elements sample_db
                  (answering 200 (lit "R-000111") []) sample_mention) None).2
    = [Ack; WriteTracker content; ItopCreate data] ++ rest /\
    caller_first_name data = [] /\ caller_name data = [].
Proof.
  apply (unknown_author_gets_empty_caller elements sample_db
           (answering 200 (lit "R-000111") []) sample_mention None).
  - intros row Hrow. unfold sample_db in Hrow.
    repeat (apply elem_of_cons in Hrow as [->|Hrow]; [by_compute|]).
    now apply elem_of_nil in Hrow.
  - apply not_elem_of_empty.
  - by_compute.
Defined.

(** ** The assignment webhook *)

Arguments link_of : simpl never.
Arguments slack_address_of : simpl never.
Arguments channel_id_of : simpl never.
Arguments ticket_number_of : simpl never.
Arguments assigned_person_name_of : simpl never.
Arguments assigned_reply : simpl never.
Arguments assignee_notice : simpl never.
Arguments resolved_reply : simpl never.
Arguments get_assigned_user_id : simpl never.

Lemma ensure_eyes_run E ch addr w :
  ensure_eyes E ch addr w =
  let file := tracker_file w in
  let tr := trace w ++ [ReactionsGet ch addr] in
  match on_reactions_get E tr with
  | Raise _ => (Ok tt, world_of file (tr ++ [eyes_error]))
  | Ok None => (Ok tt, world_of file tr)
  | Ok (Some reactions) =>
      if existsb (fun name => bool_decide (name = lit "eyes")) reactions
      then (Ok tt, world_of file tr)
      else
        let tr' := tr ++ [ReactionsAdd (lit "eyes") ch addr] in
        match on_reactions_add E tr' with
        | Ok _ => (Ok tt, world_of file tr')
        | Raise _ => (Ok tt, world_of file (tr' ++ [eyes_error]))
        end
  end.
Proof.
  unfold ensure_eyes, try_except. unfold_handler.
  destruct (on_reactions_get E _) as [[reactions|]|e]; try reflexivity.
  destruct (existsb _ reactions); simpl; [reflexivity|].
  destruct (on_reactions_add E _) as [[]|e]; reflexivity.
Qed.

Lemma ensure_eyes_ok E ch addr w :
  (ensure_eyes E ch addr w).1 = Ok tt /\
  tracker_file (ensure_eyes E ch addr w).2 = tracker_file w.
Proof.
  rewrite ensure_eyes_run. simpl.
  destruct (on_reactions_get E _) as [[reactions|]|e]; try (split; reflexivity).
  destruct (existsb _ reactions); [split; reflexivity|].
  destruct (on_reactions_add E _); split; reflexivity.
Qed.

Lemma ticket_assigned_run db E data file text addr ch name messages u :
  Py.index (blocks data) 0 = Some text ->
  slack_address_of (link_of text) = Some addr ->
  channel_id_of (link_of text) = Some ch ->
  assigned_person_name_of text = Some name ->
  on_conversations_history E [ConversationsHistory ch addr] = Ok messages ->
  last_user None messages = Ok (Some u) ->
  run (ticket_assigned db E data) file =
  let uid := get_assigned_user_id db name in
  let w1 :=
    (ensure_eyes E ch addr (world_of file [ConversationsHistory ch addr])).2 in
  let tr := trace w1 ++ [ChatPostMessage ch (assigned_reply u name) (Some addr)] in
  match on_chat_postMessage E tr with
  | Raise e => (Raise e, world_of file tr)
  | Ok _ =>
      let tr2 := tr ++ [ConversationsOpen uid] in
      match on_conversations_open E tr2 with
      | Raise e => (Raise e, world_of file tr2)
      | Ok dm =>
          let tr3 :=
            tr2 ++ [ChatPostMessage dm
                      (assignee_notice uid (ticket_number_of text)
                         (link_of text)) None] in
          match on_chat_postMessage E tr3 with
          | Raise e => (Raise e, world_of file tr3)
          | Ok _ => (Ok 200, world_of file tr3)
          end
      end
  end.
Proof.
  intros Htext Haddr Hch Hname Hhist Huser.
  unfold run, ticket_assigned. unfold_handler.
  rewrite Htext. simpl. rewrite Haddr. simpl. rewrite Hch. simpl.
  rewrite Hhist. simpl. rewrite Huser. simpl. rewrite Hname. simpl.
  pose proof (ensure_eyes_ok E ch addr
                (world_of file [ConversationsHistory ch addr])) as [Hok Hfile].
  unfold world_of in *.
  destruct (ensure_eyes E ch addr _) as [r w1]. simpl in *. subst r.
  rewrite Hfile.
  destruct (on_chat_postMessage E _) as [[]|e]; [|reflexivity].
  destruct (on_conversations_open E _) as [dm|e]; [|reflexivity].
  repeat rewrite <- app_assoc. simpl.
  destruct (on_chat_postMessage E _) as [[]|e]; reflexivity.
Qed.

Ltac trace_eq :=
  simpl;
  first [ reflexivity
        | rewrite <- !app_assoc; reflexivity
        | rewrite app_nil_r; reflexivity ].

Ltac not_in_trace :=
  let H := fresh "H" in
  intros H; simpl in H;
  repeat (apply elem_of_cons in H as [H|H]; [discriminate H|]);
  now apply elem_of_nil in H.

(** C8, as the code has it. When no member of the identity store has the
    extracted display name, the lookup gives no identifier and the reply
    naming the assignee is posted in the thread; the direct-message step is
    then still attempted with the missing identifier: the handler asks Slack
    to open a conversation with no user, posts the notice in the channel it
    gets back, and fails with the error of that call when it fails. *)
Theorem unknown_assignee_is_still_messaged
    (db : list user_row) (E : env) (data : webhook) (file : option str)
    (text addr ch name : str) (messages : list message) (u : str) :
  Py.index (blocks data) 0 = Some text ->
  slack_address_of (link_of text) = Some addr ->
  channel_id_of (link_of text) = Some ch ->
  assigned_person_name_of text = Some name ->
  on_conversations_history E [ConversationsHistory ch addr] = Ok messages ->
  last_user None messages = Ok (Some u) ->
  (forall row, row ∈ db -> u_real_name row <> name) ->
  let w1 :=
    (ensure_eyes E ch addr (world_of file [ConversationsHistory ch addr])).2 in
  let tr := trace w1 ++ [ChatPostMessage ch (assigned_reply u name) (Some addr)] in
  let notice dm :=
    ChatPostMessage dm
      (assignee_notice None (ticket_number_of text) (link_of text)) None in
  let r := run (ticket_assigned db E data) file in
  get_assigned_user_id db name = None /\
  (exists rest, trace r.2 = tr ++ rest) /\
  (on_chat_postMessage E tr = Ok tt ->
   (exists rest, trace r.2 = tr ++ ConversationsOpen None :: rest) /\
   (forall dm,
       on_conversations_open E (tr ++ [ConversationsOpen None]) = Ok dm ->
       trace r.2 = tr ++ [ConversationsOpen None; notice dm]) /\
   (forall e,
       on_conversations_open E (tr ++ [ConversationsOpen None]) = Raise e ->
       r = (Raise e, world_of file (tr ++ [ConversationsOpen None])))).
Proof.
  intros Htext Haddr Hch Hname Hhist Huser Hnone w1 tr notice r.
  assert (Hlookup : get_assigned_user_id db name = None).
  { unfold get_assigned_user_id. rewrite find_no_row; [reflexivity|].
    intros row Hrow. apply bool_decide_eq_false. exact (Hnone row Hrow). }
  assert (Hrun := ticket_assigned_run db E data file text addr ch name
                    messages u Htext Haddr Hch Hname Hhist Huser).
  rewrite Hlookup in Hrun. simpl in Hrun. fold w1 tr in Hrun. fold r in Hrun.
  split; [exact Hlookup|]. split.
  - rewrite Hrun.
    destruct (on_chat_postMessage E tr) as [[]|e];
      [|exists []; trace_eq].
    destruct (on_conversations_open E _) as [dm|e];
      [|eexists; trace_eq].
    destruct (on_chat_postMessage E _) as [[]|e];
      eexists; trace_eq.
  - intros Hpost. rewrite Hpost in Hrun. split; [|split].
    + rewrite Hrun.
      destruct (on_conversations_open E _) as [dm|e];
        [|exists []; trace_eq].
      destruct (on_chat_postMessage E _) as [[]|e];
        eexists; trace_eq.
    + intros dm Hopen. rewrite Hopen in Hrun. rewrite Hrun.
      destruct (on_chat_postMessage E _) as [[]|e];
        trace_eq.
    + intros e Hopen. rewrite Hopen in Hrun. exact Hrun.
Qed.

Lemma unknown_assignee_is_still_messaged_witness :
  exists rest,
    trace (run (ticket_assigned sample_db (answering 200 [] [first_post])
                  sample_assignment) None).2
    = ([ConversationsHistory (lit "C1") (lit "1699999999.123456");
        ReactionsGet (lit "C1") (lit "1699999999.123456");
        ReactionsAdd (lit "eyes") (lit "C1") (lit "1699999999.123456")]
       ++ [ChatPostMessage (lit "C1")
             (assigned_reply (lit "U42") (lit "Jane Doe"))
             (Some (lit "1699999999.123456"))])
      ++ ConversationsOpen None :: rest.
Proof.
  destruct (unknown_assignee_is_still_messaged sample_db
              (answering 200 [] [first_post]) sample_assignment None
              (lit "Ticket R-000111 was assigned." ++ [Py.LF]
               ++ lit "Assigned to: Jane Doe" ++ [Py.LF]
               ++ lit "Link to Slack: https://x.slack.com/archives/C1/p1699999999123456")
              (lit "1699999999.123456") (lit "C1") (lit "Jane Doe")
              [first_post] (lit "U42"))
    as (_ & _ & Hdm); try reflexivity.
  - intros row Hrow. unfold sample_db in Hrow.
    repeat (apply elem_of_cons in Hrow as [->|Hrow]; [by_compute|]).
    now apply elem_of_nil in Hrow.
  - destruct Hdm as (Hopen & _); [reflexivity | exact Hopen].
Defined.

(** C8, the claim as stated fails: "Jane Doe" is no member of the sample
    store, and yet the handler asks to open a conversation with no user and
    posts the notice, addressed to "<@None>", in the channel it gets; when
    that conversation cannot be opened the handler fails instead of
    answering 200. *)
Lemma unknown_assignee_counterexample :
  let thread := lit "1699999999.123456" in
  let link :=
    lit "Link to Slack: https://x.slack.com/archives/C1/p1699999999123456" in
  get_assigned_user_id sample_db (lit "Jane Doe") = None /\
  run (ticket_assigned sample_db (answering 200 [] [first_post])
         sample_assignment) None
  = (Ok 200,
     world_of None
       [ConversationsHistory (lit "C1") thread;
        ReactionsGet (lit "C1") thread;
        ReactionsAdd (lit "eyes") (lit "C1") thread;
        ChatPostMessage (lit "C1")
          (lit "Hi <@U42>, your ticket is assigned to Jane Doe.")
          (Some thread);
        ConversationsOpen None;
        ChatPostMessage (lit "D0001")
          (lit "Hi <@None>, you have been assigned to R-000111. "
           ++ [Py.LF; Py.LF] ++ link) None]) /\
  run (ticket_assigned sample_db
         (unopenable_channel (answering 200 [] [first_post]))
         sample_assignment) None
  = (Raise SlackApiError,
     world_of None
       [ConversationsHistory (lit "C1") thread;
        ReactionsGet (lit "C1") thread;
        ReactionsAdd (lit "eyes") (lit "C1") thread;
        ChatPostMessage (lit "C1")
          (lit "Hi <@U42>, your ticket is assigned to Jane Doe.")
          (Some thread);
        ConversationsOpen None]).
Proof. repeat split; vm_compute; reflexivity. Qed.

(** C9, as the code has it. When reading the reactions of the first
    message fails, the failure is swallowed: the handler prints "Error
    checking for reactions", adds no reaction at all, and goes on to post the
    reply in the thread; when that post, the opening of the direct-message
    channel and the notice succeed, it answers 200 after exactly these
    calls. *)
Theorem reaction_read_failure_skips_the_add
    (db : list user_row) (E : env) (data : webhook) (file : option str)
    (text addr ch name : str) (messages : list message) (u : str) (e : exn) :
  Py.index (blocks data) 0 = Some text ->
  slack_address_of (link_of text) = Some addr ->
  channel_id_of (link_of text) = Some ch ->
  assigned_person_name_of text = Some name ->
  on_conversations_history E [ConversationsHistory ch addr] = Ok messages ->
  last_user None messages = Ok (Some u) ->
  on_reactions_get E [ConversationsHistory ch addr; ReactionsGet ch addr]
  = Raise e ->
  let uid := get_assigned_user_id db name in
  let tr := [ConversationsHistory ch addr; ReactionsGet ch addr; eyes_error;
             ChatPostMessage ch (assigned_reply u name) (Some addr)] in
  let notice dm :=
    ChatPostMessage dm
      (assignee_notice uid (ticket_number_of text) (link_of text)) None in
  let r := run (ticket_assigned db E data) file in
  (exists rest, trace r.2 = tr ++ rest) /\
  (forall reaction channel timestamp,
      ReactionsAdd reaction channel timestamp ∉ trace r.2) /\
  (on_chat_postMessage E tr = Ok tt ->
   forall dm,
     on_conversations_open E (tr ++ [ConversationsOpen uid]) = Ok dm ->
     on_chat_postMessage E (tr ++ [ConversationsOpen uid; notice dm]) = Ok tt ->
     r = (Ok 200, world_of file (tr ++ [ConversationsOpen uid; notice dm]))).
Proof.
  intros Htext Haddr Hch Hname Hhist Huser Hget uid tr notice r.
  assert (Hrun := ticket_assigned_run db E data file text addr ch name
                    messages u Htext Haddr Hch Hname Hhist Huser).
  rewrite ensure_eyes_run in Hrun. simpl in Hrun. rewrite Hget in Hrun.
  simpl in Hrun. fold uid tr in Hrun. fold r in Hrun.
  split; [|split].
  - rewrite Hrun.
    destruct (on_chat_postMessage E tr) as [[]|e1]; [|exists []; trace_eq].
    destruct (on_conversations_open E _) as [dm|e1]; [|eexists; trace_eq].
    destruct (on_chat_postMessage E _) as [[]|e1]; eexists; trace_eq.
  - intros reaction channel timestamp. rewrite Hrun.
    destruct (on_chat_postMessage E tr) as [[]|e1]; [|not_in_trace].
    destruct (on_conversations_open E _) as [dm|e1]; [|not_in_trace].
    destruct (on_chat_postMessage E _) as [[]|e1]; not_in_trace.
  - intros Hpost dm Hopen Hnotice. rewrite Hrun, Hpost. simpl.
    change (on_conversations_open E (tr ++ [ConversationsOpen uid]))
      with (on_conversations_open E
              [ConversationsHistory ch addr; ReactionsGet ch addr; eyes_error;
               ChatPostMessage ch (assigned_reply u name) (Some addr);
               ConversationsOpen uid]) in Hopen.
    rewrite Hopen. subst notice. simpl in Hnotice |- *. rewrite Hnotice.
    reflexivity.
Qed.

Lemma reaction_read_failure_skips_the_add_witness :
  run (ticket_assigned sample_db
         (unreadable_reactions (answering 200 [] [first_post]))
         sample_assignment) None
  = (Ok 200,
     world_of None
       ([ConversationsHistory (lit "C1") (lit "1699999999.123456");
         ReactionsGet (lit "C1") (lit "1699999999.123456");
         eyes_error;
         ChatPostMessage (lit "C1")
           (assigned_reply (lit "U42") (lit "Jane Doe"))
           (Some (lit "1699999999.123456"))]
        ++ [ConversationsOpen (get_assigned_user_id sample_db (lit "Jane Doe"));
            ChatPostMessage (lit "D0001")
              (assignee_notice
                 (get_assigned_user_id sample_db (lit "Jane Doe"))
                 (ticket_number_of
                    (lit "Ticket R-000111 was assigned." ++ [Py.LF]
                     ++ lit "Assigned to: Jane Doe" ++ [Py.LF]
                     ++ lit "Link to Slack: https://x.slack.com/archives/C1/p1699999999123456"))
                 (link_of
                    (lit "Ticket R-000111 was assigned." ++ [Py.LF]
                     ++ lit "Assigned to: Jane Doe" ++ [Py.LF]
                     ++ lit "Link to Slack: https://x.slack.com/archives/C1/p1699999999123456")))
              None])).
Proof.
  destruct (reaction_read_failure_skips_the_add sample_db
              (unreadable_reactions (answering 200 [] [first_post]))
              sample_assignment None
              (lit "Ticket R-000111 was assigned." ++ [Py.LF]
               ++ lit "Assigned to: Jane Doe" ++ [Py.LF]
               ++ lit "Link to Slack: https://x.slack.com/archives/C1/p1699999999123456")
              (lit "1699999999.123456") (lit "C1") (lit "Jane Doe")
              [first_post] (lit "U42") SlackApiError
              eq_refl eq_refl eq_refl eq_refl eq_refl eq_refl eq_refl)
    as (_ & _ & Hrun).
  exact (Hrun eq_refl (lit "D0001") eq_refl eq_refl).
Defined.

(** C9, the claim as stated fails: the reactions cannot be read, the
    handler answers 200 all the same, and between the failed read and the
    reply in the thread it only prints; the "eyes" reaction is not added. *)
Lemma reaction_read_failure_counterexample :
  let thread := lit "1699999999.123456" in
  let link :=
    lit "Link to Slack: https://x.slack.com/archives/C1/p1699999999123456" in
  let E := unreadable_reactions (answering 200 [] [first_post]) in
  on_reactions_get E
    [ConversationsHistory (lit "C1") thread; ReactionsGet (lit "C1") thread]
  = Raise SlackApiError /\
  run (ticket_assigned sample_db E sample_assignment) None
  = (Ok 200,
     world_of None
       [ConversationsHistory (lit "C1") thread;
        ReactionsGet (lit "C1") thread;
        Print (lit "Error checking for reactions");
        ChatPostMessage (lit "C1")
          (lit "Hi <@U42>, your ticket is assigned to Jane Doe.")
          (Some thread);
        ConversationsOpen None;
        ChatPostMessage (lit "D0001")
          (lit "Hi <@None>, you have been assigned to R-000111. "
           ++ [Py.LF; Py.LF] ++ link) None]).
Proof. split; vm_compute; reflexivity. Qed.

(** ** Searching, slicing and stripping *)

Lemma find_nat_first_at sub s n :
  first_at sub s n -> Py.find_nat sub s = Some n.
Proof.
  revert s; induction n as [|n IH]; intros s [Hocc Hmin].
  - rewrite drop_0 in Hocc. apply startswith_true in Hocc.
    destruct s; simpl in *; now rewrite Hocc.
  - destruct s as [|c s].
    + exfalso. apply (Hmin 0%nat); [lia|]. exact Hocc.
    + simpl.
      destruct (Py.startswith sub (c :: s)) eqn:Hhead.
      * exfalso. apply (Hmin 0%nat); [lia|].
        now apply startswith_true in Hhead.
      * rewrite (IH s); [reflexivity|]. split; [exact Hocc|].
        intros m Hm. apply (Hmin (S m)). lia.
Qed.

Lemma first_at_find_nat sub s n :
  Py.find_nat sub s = Some n -> first_at sub s n.
Proof.
  revert n; induction s as [|c s IH]; intros n; simpl.
  - destruct (Py.startswith sub []) eqn:Hhead; [|discriminate].
    intros [= <-]. split; [now apply startswith_true in Hhead|].
    intros m Hm. lia.
  - destruct (Py.startswith sub (c :: s)) eqn:Hhead.
    + intros [= <-]. split; [now apply startswith_true in Hhead|].
      intros m Hm. lia.
    + destruct (Py.find_nat sub s) as [k|]; [|discriminate].
      intros [= <-]. destruct (IH k eq_refl) as [Hocc Hmin].
      split; [exact Hocc|].
      intros [|m] Hm.
      * rewrite drop_0. intros Hr. apply startswith_true in Hr. congruence.
      * apply Hmin. lia.
Qed.

Lemma first_at_bound sub s n : sub <> [] -> first_at sub s n -> (n <= length s)%nat.
Proof.
  intros Hne [[r Hr] _].
  destruct (decide (n <= length s)%nat) as [|Hgt]; [assumption|].
  rewrite drop_ge in Hr by lia. destruct sub; [congruence | discriminate].
Qed.

Lemma find_first_at sub s n :
  sub <> [] -> first_at sub s n -> Py.find sub s = Z.of_nat n.
Proof.
  intros Hne Hfirst. unfold Py.find, Py.find_from, Py.clamp. simpl.
  rewrite drop_0, (find_nat_first_at _ _ _ Hfirst). reflexivity.
Qed.

Lemma clamp_nat len n : (n <= len)%nat -> Py.clamp len (Z.of_nat n) = n.
Proof.
  intros Hn. unfold Py.clamp.
  destruct (Z.of_nat n <? 0) eqn:Hneg; [apply Z.ltb_lt in Hneg; lia|].
  rewrite Nat2Z.id. lia.
Qed.

Lemma slice_from (s : str) n :
  (n <= length s)%nat -> Py.slice s (Some (Z.of_nat n)) None = drop n s.
Proof.
  intros Hn. unfold Py.slice. rewrite clamp_nat by assumption.
  apply take_ge. rewrite length_drop. lia.
Qed.

Lemma slice_upto (s : str) n :
  Py.slice s None (Some (Z.of_nat n)) = take n s.
Proof.
  unfold Py.slice, Py.clamp.
  destruct (Z.of_nat n <? 0) eqn:Hneg; [apply Z.ltb_lt in Hneg; lia|].
  rewrite Nat2Z.id, drop_0, Nat.sub_0_r.
  destruct (decide (n <= length s)%nat).
  - now rewrite Nat.min_l by lia.
  - rewrite Nat.min_r by lia. rewrite !take_ge by lia. reflexivity.
Qed.

Lemma slice_from_any (s : str) n :
  Py.slice s (Some (Z.of_nat n)) None = drop n s.
Proof.
  destruct (decide (n <= length s)%nat) as [|Hgt]; [now apply slice_from|].
  unfold Py.slice, Py.clamp.
  destruct (Z.of_nat n <? 0) eqn:Hneg; [apply Z.ltb_lt in Hneg; lia|].
  rewrite Nat2Z.id, Nat.min_r by lia.
  rewrite !drop_ge by lia. now rewrite take_nil.
Qed.

Lemma slice_between (s : str) a b :
  (a <= b)%nat -> (b <= length s)%nat ->
  Py.slice s (Some (Z.of_nat a)) (Some (Z.of_nat b)) = take (b - a) (drop a s).
Proof.
  intros Hab Hb. unfold Py.slice. now rewrite !clamp_nat by lia.
Qed.

Lemma lstrip_by_id f s :
  (forall c r, s = c :: r -> f c = false) -> Py.lstrip_by f s = s.
Proof.
  destruct s as [|c r]; [reflexivity|]. intros Hhead. simpl.
  now rewrite (Hhead c r eq_refl).
Qed.

Lemma rstrip_by_spaces f s ws :
  Forall (fun c => f c = true) ws -> Py.rstrip_by f (s ++ ws) = Py.rstrip_by f s.
Proof.
  induction ws as [|c ws IH] using rev_ind; intros Hws.
  - now rewrite app_nil_r.
  - apply Forall_app in Hws as [Hws Hc]. apply Forall_cons in Hc as [Hc _].
    rewrite app_assoc, rstrip_by_snoc by exact Hc. now apply IH.
Qed.

Lemma rstrip_by_id f s c :
  f c = false -> Py.rstrip_by f (s ++ [c]) = s ++ [c].
Proof.
  intros Hc. unfold Py.rstrip_by. rewrite rev_app_distr. simpl.
  rewrite Hc. simpl. now rewrite rev_involutive.
Qed.

Lemma rstrip_by_tail f a b :
  b <> [] -> Forall (fun c => f c = false) b ->
  Py.rstrip_by f (a ++ b) = a ++ b.
Proof.
  intros Hne Hb. destruct (exists_last Hne) as (b' & c & ->).
  apply Forall_app in Hb as [_ Hc]. apply Forall_cons in Hc as [Hc _].
  rewrite app_assoc. now apply rstrip_by_id.
Qed.

Lemma strip_no_space s :
  Forall (fun c => Py.isspace c = false) s -> Py.strip s = s.
Proof.
  intros Hs. unfold Py.strip, Py.lstrip, Py.rstrip.
  destruct s as [|c r]; [reflexivity|].
  rewrite (rstrip_by_tail _ [] (c :: r)) by (discriminate || assumption).
  simpl. apply Forall_cons in Hs as [Hc _]. now rewrite Hc.
Qed.

(** ** Splitting *)

Lemma split_go_skip sep k s :
  (k <= length s)%nat -> Py.split_go sep k s = Py.split_go sep 0 (drop k s).
Proof.
  revert s; induction k as [|k IH]; intros s Hk; [now rewrite drop_0|].
  destruct s as [|c s]; simpl in *; [lia|]. apply IH. lia.
Qed.

Lemma split_go_cons sep k s :
  exists seg rest, Py.split_go sep k s = seg :: rest.
Proof.
  revert k; induction s as [|c s IH]; intros k; simpl; [eauto|].
  destruct k as [|k]; [|apply IH].
  destruct (Py.startswith sep (c :: s)); [eauto|].
  destruct (IH 0%nat) as (seg & rest & ->). eauto.
Qed.

Lemma split_no_occurrence sep s :
  ~ infix sep s -> Py.split sep s = [s].
Proof.
  unfold Py.split. induction s as [|c s IH]; intros Hno; [reflexivity|].
  simpl. destruct (Py.startswith sep (c :: s)) eqn:Hhead.
  - exfalso. apply Hno. apply startswith_true in Hhead as [r Hr].
    exists [], r. exact Hr.
  - rewrite IH; [reflexivity|].
    intros (a & b & Hab). apply Hno. exists (c :: a), b. simpl. congruence.
Qed.

Lemma first_at_tail sep c s n :
  first_at sep (c :: s) (S n) -> first_at sep s n.
Proof.
  intros [Hocc Hmin]. split; [exact Hocc|].
  intros m Hm. apply (Hmin (S m)). lia.
Qed.

Lemma split_first sep A rest :
  sep <> [] -> first_at sep (A ++ sep ++ rest) (length A) ->
  Py.split sep (A ++ sep ++ rest) = A :: Py.split sep rest.
Proof.
  intros Hne. unfold Py.split. induction A as [|c A IH]; intros Hfirst.
  - destruct sep as [|x sep']; [congruence|]. simpl app.
    cbn [Py.split_go].
    pose proof (startswith_app (x :: sep') rest) as Hhead. simpl app in Hhead.
    rewrite Hhead. f_equal.
    rewrite split_go_skip by (simpl; rewrite length_app; lia).
    simpl. rewrite Nat.sub_0_r, drop_app_length. reflexivity.
  - simpl. destruct (Py.startswith sep (c :: A ++ sep ++ rest)) eqn:Hhead.
    + exfalso. destruct Hfirst as [_ Hmin]. apply (Hmin 0%nat); [simpl; lia|].
      now apply startswith_true in Hhead.
    + rewrite IH; [reflexivity|]. exact (first_at_tail _ _ _ _ Hfirst).
Qed.

Lemma first_at_pair (x y : ascii) A rest :
  x <> y -> ~ infix [x; y] A ->
  first_at [x; y] (A ++ [x; y] ++ rest) (length A).
Proof.
  intros Hxy Hno. split.
  - exists rest. now rewrite drop_app_length.
  - intros m Hm [r Hr].
    rewrite drop_app_le in Hr by lia.
    destruct (drop m A) as [|d [|d2 A2]] eqn:HA.
    + apply (f_equal length) in HA. rewrite length_drop in HA. simpl in HA. lia.
    + simpl in Hr. congruence.
    + simpl in Hr. injection Hr as -> -> _.
      apply Hno. exists (take m A), A2.
      rewrite <- (take_drop m A) at 1. now rewrite HA.
Qed.

Lemma split_char_app (x : ascii) a b :
  Py.split [x] (a ++ x :: b) = Py.split [x] a ++ Py.split [x] b.
Proof.
  unfold Py.split. induction a as [|c a IH]; simpl.
  - destruct (ascii_dec x x); [reflexivity | congruence].
  - destruct (ascii_dec x c) as [->|Hne]; simpl.
    + now rewrite IH.
    + rewrite IH.
      destruct (split_go_cons [x] 0 a) as (seg & rest & ->). reflexivity.
Qed.

Lemma split_char_none (x : ascii) s : x ∉ s -> Py.split [x] s = [s].
Proof.
  intros Hx. apply split_no_occurrence. intros Hin.
  apply Hx. apply (infix_elem [x] s x Hin), list_elem_of_singleton.
  reflexivity.
Qed.

Lemma index_second {A} (a b : A) l : Py.index (a :: b :: l) 1 = Some b.
Proof. reflexivity. Qed.

Lemma index_last_but_one {A} (l : list A) a b :
  Py.index (l ++ [a; b]) (-2) = Some a.
Proof.
  unfold Py.index. simpl Z.ltb. cbv iota.
  rewrite length_app. simpl length.
  destruct (- -2 <=? Z.of_nat (length l + 2)) eqn:Hle;
    [|apply Z.leb_gt in Hle; lia].
  replace (Z.to_nat (Z.of_nat (length l + 2) + -2)) with (length l + 0)%nat
    by lia.
  now rewrite lookup_app_r, Nat.add_0_r, Nat.sub_diag by lia.
Qed.

(** ** The text block of a webhook *)

Ltac nonempty :=
  let H := fresh "H" in intros H; vm_compute in H; discriminate H.

Lemma digit_not_space c : is_digit c = true -> Py.isspace c = false.
Proof.
  destruct c as [[] [] [] [] [] [] [] []]; vm_compute; congruence.
Qed.

Lemma digit_not_slash c : is_digit c = true -> c <> "/"%char.
Proof.
  destruct c as [[] [] [] [] [] [] [] []]; vm_compute; congruence.
Qed.

Lemma first_at_char (x : ascii) A rest :
  x ∉ A -> first_at [x] (A ++ x :: rest) (length A).
Proof.
  intros Hx. split.
  - exists rest. now rewrite drop_app_length.
  - intros m Hm [r Hr]. rewrite drop_app_le in Hr by lia.
    destruct (drop m A) as [|d A2] eqn:HA.
    + apply (f_equal length) in HA. rewrite length_drop in HA. simpl in HA. lia.
    + simpl in Hr. injection Hr as -> _. apply Hx.
      rewrite <- (take_drop m A), HA. apply elem_of_app. right.
      apply elem_of_cons. now left.
Qed.

Lemma slice_upto_10 (s : str) : Py.slice s None (Some 10) = take 10 s.
Proof. exact (slice_upto s 10). Qed.

Lemma slice_from_10 (s : str) : Py.slice s (Some 10) None = drop 10 s.
Proof. exact (slice_from_any s 10). Qed.

Section LinkAtTheEnd.

Variables pre mid channel digits ws : str.

Let before : str :=
  lit "Link to Slack:" ++ mid ++ lit "/archives/" ++ channel.
Let address : str := before ++ lit "/p" ++ digits.
Let text : str := pre ++ address ++ ws.

Hypothesis marker_first : first_at (lit "Link to Slack:") text (length pre).
Hypothesis no_slash_p : ~ infix (lit "/p") before.
Hypothesis channel_chars :
  Forall (fun c => Py.isspace c = false /\ c <> "/"%char) channel.
Hypothesis digits_chars : Forall (fun c => is_digit c = true) digits.
Hypothesis ws_chars : Forall (fun c => Py.isspace c = true) ws.

Lemma link_of_text : link_of text = address.
Proof.
  unfold link_of.
  rewrite (find_first_at (lit "Link to Slack:") text (length pre)
             ltac:(nonempty) marker_first).
  rewrite slice_from_any. unfold text. rewrite drop_app_length.
  unfold Py.strip, Py.rstrip, Py.lstrip.
  rewrite rstrip_by_spaces by exact ws_chars.
  assert (Hsplit : address = (before ++ lit "/") ++ (lit "p" ++ digits)).
  { unfold address. rewrite <- app_assoc. reflexivity. }
  rewrite Hsplit, rstrip_by_tail.
  - rewrite <- Hsplit. reflexivity.
  - discriminate.
  - apply Forall_app. split; [repeat constructor|].
    eapply Forall_impl; [exact digits_chars|]. apply digit_not_space.
Qed.

Lemma slack_address_of_address :
  slack_address_of address
  = Some (take 10 digits ++ lit "." ++ drop 10 digits).
Proof.
  unfold slack_address_of, address.
  rewrite (split_first (lit "/p") before digits); [|nonempty|].
  - rewrite split_no_occurrence.
    + rewrite index_second. simpl.
      rewrite strip_no_space.
      * now rewrite slice_upto_10, slice_from_10.
      * eapply Forall_impl; [exact digits_chars|]. apply digit_not_space.
    + intros Hin.
      assert (Hslash : "/"%char ∈ digits).
      { apply (infix_elem (lit "/p")); [exact Hin|]. by_compute. }
      apply (proj1 (Forall_forall _ _) digits_chars) in Hslash.
      exact (digit_not_slash _ Hslash eq_refl).
  - apply (first_at_pair "/" "p"); [discriminate | exact no_slash_p].
Qed.

Lemma channel_id_of_address : channel_id_of address = Some channel.
Proof.
  unfold channel_id_of.
  assert (Hsplit : address
                   = (lit "Link to Slack:" ++ mid ++ lit "/archives")
                     ++ "/"%char :: (channel ++ "/"%char :: lit "p" ++ digits)).
  { unfold address, before.
    change (lit "/archives/") with (lit "/archives" ++ lit "/").
    change (lit "/p") with (lit "/" ++ lit "p").
    rewrite <- !app_assoc. reflexivity. }
  rewrite Hsplit.
  change (lit "/") with ["/"%char].
  rewrite !split_char_app.
  rewrite (split_char_none "/" channel), (split_char_none "/" (lit "p" ++ digits)).
  - simpl app. rewrite index_last_but_one. simpl.
    rewrite strip_no_space; [reflexivity|].
    eapply Forall_impl; [exact channel_chars|]. now intros c [Hc _].
  - intros Hin. apply elem_of_app in Hin as [Hin|Hin].
    + revert Hin. by_compute.
    + apply (proj1 (Forall_forall _ _) digits_chars) in Hin.
      exact (digit_not_slash _ Hin eq_refl).
  - intros Hin. apply (proj1 (Forall_forall _ _) channel_chars) in Hin.
    now destruct Hin.
Qed.

End LinkAtTheEnd.

Lemma ticket_number_of_first (text a six b : str) :
  text = a ++ lit "R-" ++ six ++ b -> length six = 6%nat ->
  first_at (lit "R-") text (length a) ->
  ticket_number_of text = lit "R-" ++ six.
Proof.
  intros Htext Hsix Hfirst. unfold ticket_number_of.
  rewrite (find_first_at (lit "R-") text (length a) ltac:(nonempty) Hfirst).
  replace (Z.of_nat (length a) + 8) with (Z.of_nat (length a + 8)) by lia.
  rewrite slice_between.
  - replace (length a + 8 - length a)%nat with 8%nat by lia.
    rewrite Htext, drop_app_length.
    change (lit "R-" ++ six ++ b)
      with ("R"%char :: "-"%char :: (six ++ b)).
    change 8%nat with (2 + 6)%nat. simpl take.
    rewrite take_app_length' by (symmetry; exact Hsix). reflexivity.
  - lia.
  - rewrite Htext, !length_app, Hsix. simpl. lia.
Qed.

Lemma assigned_person_name_of_first (text a raw b : str) :
  text = a ++ lit "Assigned to:" ++ raw ++ [Py.LF] ++ b ->
  first_at (lit "Assigned to:") text (length a) ->
  Py.LF ∉ raw -> ~ infix (lit "Assigned to:") raw ->
  assigned_person_name_of text = Some (Py.strip raw).
Proof.
  intros Htext Hfirst HLF Hno. unfold assigned_person_name_of.
  rewrite (find_first_at (lit "Assigned to:") text (length a)
             ltac:(nonempty) Hfirst).
  assert (Hline : Py.find_from [Py.LF] text (Z.of_nat (length a))
                  = Z.of_nat (length a + (12 + length raw))).
  { unfold Py.find_from.
    rewrite clamp_nat by (rewrite Htext, length_app; lia).
    rewrite Htext, drop_app_length.
    rewrite (find_nat_first_at [Py.LF] _ (length (lit "Assigned to:" ++ raw))).
    - rewrite length_app. reflexivity.
    - rewrite app_assoc. apply first_at_char.
      intros Hin. apply elem_of_app in Hin as [Hin|Hin]; [|exact (HLF Hin)].
      revert Hin. by_compute. }
  rewrite Hline, slice_between.
  - replace (length a + (12 + length raw) - length a)%nat
      with (length (lit "Assigned to:" ++ raw))
      by (rewrite length_app; simpl; lia).
    rewrite Htext, drop_app_length, app_assoc, take_app_length.
    pose proof (split_first (lit "Assigned to:") [] raw) as Hsplit.
    change ([] ++ lit "Assigned to:" ++ raw)
      with (lit "Assigned to:" ++ raw) in Hsplit.
    rewrite Hsplit.
    + rewrite split_no_occurrence by exact Hno. reflexivity.
    + nonempty.
    + split; [now exists raw | intros m Hm; simpl in Hm; lia].
  - lia.
  - rewrite Htext, !length_app. simpl. lia.
Qed.

(** ** Handlers only add to the trace *)

Lemma extends_ret {A} (a : A) : extends (ret a).
Proof. intros w. exists []. simpl. now rewrite app_nil_r. Qed.

Lemma extends_raise {A} (e : exn) : extends (@raise A e).
Proof. intros w. exists []. simpl. now rewrite app_nil_r. Qed.

Lemma extends_emit a : extends (emit a).
Proof. intros w. now exists [a]. Qed.

Lemma extends_call {A} a (answer : list action -> outcome A) :
  extends (call a answer).
Proof. intros w. now exists [a]. Qed.

Lemma extends_of_option {A} e (o : option A) : extends (of_option e o).
Proof. destruct o; [apply extends_ret | apply extends_raise]. Qed.

Lemma extends_of_outcome {A} (o : outcome A) : extends (of_outcome o).
Proof. intros w. exists []. simpl. now rewrite app_nil_r. Qed.

Lemma extends_read_tracker : extends read_tracker.
Proof. intros w. exists []. simpl. now rewrite app_nil_r. Qed.

Lemma extends_write_tracker content : extends (write_tracker content).
Proof. intros w. now exists [WriteTracker content]. Qed.

Lemma extends_bind {A B} (m : M A) (f : A -> M B) :
  extends m -> (forall a, extends (f a)) -> extends (bind m f).
Proof.
  intros Hm Hf w. unfold bind. destruct (Hm w) as [r1 H1].
  destruct (m w) as [[a|e] w1]; simpl in *.
  - destruct (Hf a w1) as [r2 H2]. exists (r1 ++ r2).
    now rewrite H2, H1, app_assoc.
  - now exists r1.
Qed.

Lemma extends_try_except {A} (m h : M A) :
  extends m -> extends h -> extends (try_except m h).
Proof.
  intros Hm Hh w. unfold try_except. destruct (Hm w) as [r1 H1].
  destruct (m w) as [[a|e] w1]; simpl in *.
  - now exists r1.
  - destruct (Hh w1) as [r2 H2]. exists (r1 ++ r2).
    now rewrite H2, H1, app_assoc.
Qed.

Ltac extends_step :=
  first
    [ apply extends_ret | apply extends_raise | apply extends_emit
    | apply extends_call | apply extends_of_option
    | apply extends_of_outcome | apply extends_read_tracker
    | apply extends_write_tracker
    | apply extends_bind; [|intros ?]
    | apply extends_try_except ].

Lemma extends_send_messages E first output ticket :
  extends (send_messages E first output ticket).
Proof.
  revert first; induction output as [|message rest IH]; intros first; simpl.
  - apply extends_ret.
  - destruct (truthy (m_user message) && truthy (m_text message)
              && negb (truthy (m_bot_id message))); [|apply IH].
    destruct first; [apply IH|].
    apply extends_bind; [apply extends_call|]. intros response.
    destruct (negb (status_code response =? 200)); [apply extends_emit|].
    apply extends_bind; [apply extends_emit | intros _; apply IH].
Qed.

Lemma extends_ensure_eyes E ch addr : extends (ensure_eyes E ch addr).
Proof.
  unfold ensure_eyes. apply extends_try_except; [|apply extends_emit].
  apply extends_bind; [apply extends_call|]. intros [reactions|];
    [|apply extends_ret].
  destruct (negb _); [apply extends_call | apply extends_ret].
Qed.

Lemma extends_after_call {A B} a (answer : list action -> outcome A)
    (f : A -> M B) w :
  (forall x, extends (f x)) ->
  exists rest, trace (bind (call a answer) f w).2 = trace w ++ a :: rest.
Proof.
  intros Hf. unfold bind, call.
  destruct (answer (trace w ++ [a])) as [x|e].
  - destruct (Hf x {| tracker_file := tracker_file w;
                      trace := trace w ++ [a] |}) as [rest Hrest].
    exists rest. rewrite Hrest. simpl. now rewrite <- app_assoc.
  - exists []. reflexivity.
Qed.

(** Both handlers first look the thread up with what they have read from
    the text. *)
Lemma ticket_assigned_lookup db E data file text addr ch :
  Py.index (blocks data) 0 = Some text ->
  slack_address_of (link_of text) = Some addr ->
  channel_id_of (link_of text) = Some ch ->
  exists rest,
    trace (run (ticket_assigned db E data) file).2
    = ConversationsHistory ch addr :: rest.
Proof.
  intros Htext Haddr Hch.
  unfold run, ticket_assigned.
  unfold mbind at 1, M_bind at 1, bind at 1, of_option at 1.
  rewrite Htext. simpl.
  unfold mbind at 1, M_bind at 1, bind at 1, of_option at 1.
  rewrite Haddr. simpl.
  unfold mbind at 1, M_bind at 1, bind at 1, of_option at 1.
  rewrite Hch. simpl.
  apply (extends_after_call (ConversationsHistory ch addr)
           (on_conversations_history E) _
           {| tracker_file := file; trace := [] |}).
  intros messages.
  apply extends_bind; [apply extends_of_outcome|]. intros user_id.
  apply extends_bind; [apply extends_of_option|]. intros name.
  apply extends_bind; [apply extends_ensure_eyes|]. intros _.
  repeat extends_step.
Qed.

Lemma ticket_resolved_lookup E data file text addr ch :
  Py.index (blocks data) 0 = Some text ->
  slack_address_of (link_of text) = Some addr ->
  channel_id_of (link_of text) = Some ch ->
  exists rest,
    trace (run (ticket_resolved E data) file).2
    = PrintData data :: Print (ticket_number_of text)
      :: ConversationsHistory ch addr :: rest.
Proof.
  intros Htext Haddr Hch.
  unfold run, ticket_resolved.
  unfold mbind at 1, M_bind at 1, bind at 1, emit at 1. simpl.
  unfold mbind at 1, M_bind at 1, bind at 1, of_option at 1.
  rewrite Htext. simpl.
  unfold mbind at 1, M_bind at 1, bind at 1, of_option at 1.
  rewrite Haddr. simpl.
  unfold mbind at 1, M_bind at 1, bind at 1, of_option at 1.
  rewrite Hch. simpl.
  unfold mbind at 1, M_bind at 1, bind at 1, emit at 1. simpl.
  apply (extends_after_call (ConversationsHistory ch addr)
           (on_conversations_history E) _
           {| tracker_file := file;
              trace := [PrintData data; Print (ticket_number_of text)] |}).
  intros messages.
  apply extends_bind; [apply extends_of_outcome|]. intros user_id.
  apply extends_bind; [apply extends_call|]. intros _.
  apply extends_bind; [apply extends_call|]. intros _.
  apply extends_bind; [apply extends_of_option|]. intros user.
  apply extends_bind; [apply extends_call|]. intros _.
  apply extends_bind; [apply extends_read_tracker|]. intros f.
  apply extends_bind; [apply extends_of_option|]. intros content.
  apply extends_bind; [apply extends_write_tracker|]. intros _.
  apply extends_bind; [apply extends_call|]. intros conversation.
  apply extends_bind; [apply extends_send_messages|]. intros _.
  apply extends_ret.
Qed.

(** C2, as the code has it. When the address is the last thing in the text
    (only white space after its digits) and "/p" does not occur in the link
    before the digits, both handlers read the channel as the last path
    segment but one and the thread as the digits with a point after the
    tenth, and look the thread up with them; the ticket is the first "R-"
    with the six characters after it; for an assignment the name is the
    text, stripped, between the first "Assigned to:" and the next line
    feed. *)
Theorem webhook_text_ending_with_the_link
    (pre mid channel digits ws : str) :
  let before := lit "Link to Slack:" ++ mid ++ lit "/archives/" ++ channel in
  let address := before ++ lit "/p" ++ digits in
  let text := pre ++ address ++ ws in
  let thread := take 10 digits ++ lit "." ++ drop 10 digits in
  first_at (lit "Link to Slack:") text (length pre) ->
  ~ infix (lit "/p") before ->
  Forall (fun c => Py.isspace c = false /\ c <> "/"%char) channel ->
  Forall (fun c => is_digit c = true) digits ->
  Forall (fun c => Py.isspace c = true) ws ->
  link_of text = address /\
  slack_address_of (link_of text) = Some thread /\
  channel_id_of (link_of text) = Some channel /\
  (forall a six b,
      text = a ++ lit "R-" ++ six ++ b -> length six = 6%nat ->
      first_at (lit "R-") text (length a) ->
      ticket_number_of text = lit "R-" ++ six) /\
  (forall a raw b,
      text = a ++ lit "Assigned to:" ++ raw ++ [Py.LF] ++ b ->
      first_at (lit "Assigned to:") text (length a) ->
      Py.LF ∉ raw -> ~ infix (lit "Assigned to:") raw ->
      assigned_person_name_of text = Some (Py.strip raw)) /\
  (forall db E data file,
      Py.index (blocks data) 0 = Some text ->
      (exists rest,
          trace (run (ticket_assigned db E data) file).2
          = ConversationsHistory channel thread :: rest) /\
      (exists rest,
          trace (run (ticket_resolved E data) file).2
          = PrintData data :: Print (ticket_number_of text)
            :: ConversationsHistory channel thread :: rest)).
Proof.
  intros before address text thread Hmarker Hslash Hchannel Hdigits Hws.
  assert (Hlink : link_of text = address)
    by (apply link_of_text; assumption).
  assert (Haddr : slack_address_of (link_of text) = Some thread)
    by (rewrite Hlink; apply slack_address_of_address; assumption).
  assert (Hch : channel_id_of (link_of text) = Some channel)
    by (rewrite Hlink; apply channel_id_of_address; assumption).
  repeat split; try assumption.
  - intros a six b. apply ticket_number_of_first.
  - intros a raw b. apply assigned_person_name_of_first.
  - now apply ticket_assigned_lookup with (text := text).
  - now apply ticket_resolved_lookup.
Qed.

Lemma webhook_text_ending_with_the_link_witness :
  let text :=
    (lit "Ticket R-000111 was assigned." ++ [Py.LF]
     ++ lit "Assigned to: Jane Doe" ++ [Py.LF])
    ++ ((lit "Link to Slack:" ++ lit " https://x.slack.com"
         ++ lit "/archives/" ++ lit "C1") ++ lit "/p"
        ++ lit "1699999999123456") ++ [Py.LF] in
  slack_address_of (link_of text) = Some (lit "1699999999.123456") /\
  channel_id_of (link_of text) = Some (lit "C1") /\
  ticket_number_of text = lit "R-000111" /\
  assigned_person_name_of text = Some (lit "Jane Doe").
Proof.
  destruct (webhook_text_ending_with_the_link
              (lit "Ticket R-000111 was assigned." ++ [Py.LF]
               ++ lit "Assigned to: Jane Doe" ++ [Py.LF])
              (lit " https://x.slack.com") (lit "C1")
              (lit "1699999999123456") [Py.LF])
    as (_ & Haddr & Hch & Hticket & Hname & _).
  - apply first_at_find_nat. vm_compute. reflexivity.
  - apply contains_false. vm_compute. reflexivity.
  - by_compute.
  - by_compute.
  - by_compute.
  - split; [exact Haddr|]. split; [exact Hch|]. split.
    + apply (Hticket (lit "Ticket ") (lit "000111")
               (lit " was assigned." ++ [Py.LF]
                ++ lit "Assigned to: Jane Doe" ++ [Py.LF]
                ++ lit "Link to Slack: https://x.slack.com/archives/C1/p1699999999123456"
                ++ [Py.LF])).
      * vm_compute. reflexivity.
      * reflexivity.
      * apply first_at_find_nat. vm_compute. reflexivity.
    + apply (Hname (lit "Ticket R-000111 was assigned." ++ [Py.LF])
               (lit " Jane Doe")
               (lit "Link to Slack: https://x.slack.com/archives/C1/p1699999999123456"
                ++ [Py.LF])).
      * vm_compute. reflexivity.
      * apply first_at_find_nat. vm_compute. reflexivity.
      * by_compute.
      * apply contains_false. vm_compute. reflexivity.
Defined.

(** C2, the claim as stated fails on the scenario of the specification:
    with text after the address, the thread read from it is everything up
    to the end of the text, not "1699999999.123456", and the handler looks
    that thread up. *)
Lemma scenario_thread_counterexample :
  let read :=
    lit "1699999999.123456 ... R-000111 ... Assigned to: Jane Doe"
    ++ [Py.LF] ++ lit "..." in
  slack_address_of (link_of scenario_text) = Some read /\
  slack_address_of (link_of scenario_text) <> Some (lit "1699999999.123456") /\
  channel_id_of (link_of scenario_text) = Some (lit "C1") /\
  ticket_number_of scenario_text = lit "R-000111" /\
  assigned_person_name_of scenario_text = Some (lit "Jane Doe") /\
  (exists rest,
      trace (run (ticket_assigned sample_db (answering 200 [] [first_post])
                    {| blocks := [scenario_text] |}) None).2
      = ConversationsHistory (lit "C1") read :: rest).
Proof.
  repeat split; try (vm_compute; reflexivity).
  - vm_compute. discriminate.
  - eexists. vm_compute. reflexivity.
Qed.

(** ** The description sanitiser *)

Lemma replace_go_skip old new k s :
  (k <= length s)%nat ->
  Py.replace_go old new k s = Py.replace_go old new 0 (drop k s).
Proof.
  revert s; induction k as [|k IH]; intros s Hk; [now rewrite drop_0|].
  destruct s as [|c s]; simpl in *; [lia|]. apply IH. lia.
Qed.

Lemma replace_go_same h s : h <> [] -> Py.replace_go h h 0 s = s.
Proof.
  intros Hne. remember (length s) as n eqn:Hn. revert s Hn.
  induction n as [n IH] using lt_wf_ind. intros s ->.
  destruct s as [|c s]; [reflexivity|]. simpl.
  destruct (Py.startswith h (c :: s)) eqn:Hhead.
  - apply startswith_true in Hhead as [r Hr].
    destruct h as [|x h]; [congruence|]. simpl in Hr.
    injection Hr as -> ->. simpl.
    rewrite replace_go_skip by (rewrite length_app; lia).
    rewrite Nat.sub_0_r, drop_app_length. f_equal. f_equal.
    apply (IH (length r)); [|reflexivity].
    simpl. rewrite length_app. lia.
  - f_equal. apply (IH (length s)); [simpl; lia | reflexivity].
Qed.

Lemma replace_same h s : Py.replace h h s = s.
Proof.
  destruct h as [|x h]; simpl.
  - rewrite app_nil_r. induction s as [|c s IH]; simpl; congruence.
  - now apply replace_go_same.
Qed.

Lemma url_loop_id description : url_loop description = description.
Proof.
  unfold url_loop.
  generalize (Re.findall Re.url_at description) as hyperlinks.
  intros hyperlinks. induction hyperlinks as [|h hs IH]; simpl; [reflexivity|].
  now rewrite replace_same.
Qed.

Lemma render_cons p ps : render (p :: ps) = render_piece p ++ render ps.
Proof. reflexivity. Qed.

Lemma render_token word ps :
  render (Token word :: ps) = "<"%char :: word ++ ">"%char :: render ps.
Proof. rewrite render_cons. simpl. now rewrite <- app_assoc. Qed.

Lemma render_app ps qs : render (ps ++ qs) = render ps ++ render qs.
Proof. unfold render. apply flat_map_app. Qed.

Lemma render_plain s : render (map Plain s) = s.
Proof. induction s as [|c s IH]; simpl; congruence. Qed.

Lemma span_until_gt word rest :
  ">"%char ∉ word ->
  Re.span (fun d => negb (bool_decide (d = ">"%char))) (word ++ ">"%char :: rest)
  = (word, ">"%char :: rest).
Proof.
  induction word as [|c word IH]; intros Hgt; simpl.
  - reflexivity.
  - apply not_elem_of_cons in Hgt as [Hc Hgt].
    rewrite bool_decide_eq_false_2 by congruence. simpl.
    now rewrite IH.
Qed.

Lemma word_at_token word rest :
  word <> [] -> ">"%char ∉ word ->
  Re.word_at ("<"%char :: word ++ ">"%char :: rest)
  = Some (word, (length word + 2)%nat).
Proof.
  intros Hne Hgt. unfold Re.word_at.
  destruct (ascii_dec "<" "<"); [|congruence].
  rewrite span_until_gt by exact Hgt.
  destruct word; [congruence | reflexivity].
Qed.

Lemma word_at_plain c rest : c <> "<"%char -> Re.word_at (c :: rest) = None.
Proof.
  intros Hc. unfold Re.word_at. destruct (ascii_dec c "<"); congruence.
Qed.

Lemma findall_go_skip m k s :
  (k <= length s)%nat ->
  Re.findall_go m k s = Re.findall_go m 0 (drop k s).
Proof.
  revert s; induction k as [|k IH]; intros s Hk; [now rewrite drop_0|].
  destruct s as [|c s]; simpl in *; [lia|]. apply IH. lia.
Qed.

Lemma unwrap_tokens_go_skip special k s :
  (k <= length s)%nat ->
  unwrap_tokens_go special k s = unwrap_tokens_go special 0 (drop k s).
Proof.
  revert s; induction k as [|k IH]; intros s Hk; [now rewrite drop_0|].
  destruct s as [|c s]; simpl in *; [lia|]. apply IH. lia.
Qed.

Lemma drop_token_body (word rest : str) :
  drop (length word + 2 - 1) (word ++ ">"%char :: rest) = rest.
Proof.
  replace (length word + 2 - 1)%nat with (length (word ++ [">"%char]))
    by (rewrite length_app; simpl; lia).
  replace (word ++ ">"%char :: rest) with ((word ++ [">"%char]) ++ rest)
    by now rewrite <- app_assoc.
  apply drop_app_length.
Qed.

Lemma findall_words ps :
  Forall bracketed ps -> Re.findall Re.word_at (render ps) = words_of ps.
Proof.
  unfold Re.findall. induction 1 as [|p ps Hp Hps IH]; [reflexivity|].
  destruct p as [c|word]; simpl in Hp.
  - rewrite render_cons.
    change (render_piece (Plain c) ++ render ps) with (c :: render ps).
    cbn [Re.findall_go]. rewrite word_at_plain by exact Hp. exact IH.
  - destruct Hp as (Hne & _ & Hgt). rewrite render_token.
    cbn [Re.findall_go]. rewrite word_at_token by assumption.
    rewrite findall_go_skip by (rewrite length_app; simpl; lia).
    rewrite drop_token_body, IH. reflexivity.
Qed.

Lemma unwrap_tokens_render special ps :
  Forall bracketed ps ->
  unwrap_tokens special (render ps) = flat_map (unwrap_piece special) ps.
Proof.
  unfold unwrap_tokens. induction 1 as [|p ps Hp Hps IH]; [reflexivity|].
  destruct p as [c|word]; simpl in Hp.
  - rewrite render_cons.
    change (render_piece (Plain c) ++ render ps) with (c :: render ps).
    cbn [unwrap_tokens_go]. rewrite word_at_plain by exact Hp.
    now rewrite IH.
  - destruct Hp as (Hne & _ & Hgt). rewrite render_token.
    cbn [unwrap_tokens_go]. rewrite word_at_token by assumption.
    rewrite unwrap_tokens_go_skip by (rewrite length_app; simpl; lia).
    rewrite drop_token_body, IH. reflexivity.
Qed.

Lemma app_sep_inj (c : ascii) (a b x y : str) :
  c ∉ a -> c ∉ b -> a ++ c :: x = b ++ c :: y -> a = b.
Proof.
  revert b; induction a as [|d a IH]; intros b Ha Hb Heq.
  - destruct b as [|e b]; [reflexivity|]. simpl in Heq.
    injection Heq as <- _. exfalso. apply Hb, elem_of_cons. now left.
  - destruct b as [|e b]; simpl in Heq.
    + injection Heq as -> _. exfalso. apply Ha, elem_of_cons. now left.
    + injection Heq as -> Heq. f_equal.
      apply not_elem_of_cons in Ha as [_ Ha].
      apply not_elem_of_cons in Hb as [_ Hb].
      exact (IH b Ha Hb Heq).
Qed.

Lemma startswith_token word word' rest :
  ">"%char ∉ word -> ">"%char ∉ word' ->
  Py.startswith ("<"%char :: word ++ [">"%char])
    ("<"%char :: word' ++ ">"%char :: rest)
  = bool_decide (word' = word).
Proof.
  intros Hw Hw'. destruct (decide (word' = word)) as [->|Hne].
  - rewrite bool_decide_eq_true_2 by reflexivity.
    apply startswith_true. exists rest. simpl. now rewrite <- app_assoc.
  - rewrite bool_decide_eq_false_2 by exact Hne.
    destruct (Py.startswith _ _) eqn:Hhead; [|reflexivity].
    apply startswith_true in Hhead as [r Hr]. simpl in Hr.
    injection Hr as Hr. rewrite <- app_assoc in Hr. simpl in Hr.
    exfalso. apply Hne. exact (app_sep_inj _ _ _ _ _ Hw' Hw Hr).
Qed.

Lemma replace_go_plain_run old new a rest :
  "<"%char ∉ a ->
  Py.replace_go ("<"%char :: old) new 0 (a ++ rest)
  = a ++ Py.replace_go ("<"%char :: old) new 0 rest.
Proof.
  induction a as [|c a IH]; intros Ha; [reflexivity|].
  apply not_elem_of_cons in Ha as [Hc Ha]. simpl.
  destruct (ascii_dec "<" c) as [<-|_]; [congruence|].
  now rewrite IH.
Qed.

Lemma replace_render word new ps :
  Forall bracketed ps -> bracketed (Token word) ->
  Py.replace (lit "<" ++ word ++ lit ">") new (render ps)
  = render (flat_map (settle_one word new) ps).
Proof.
  intros Hps (Hne & Hlt & Hgt).
  change (lit "<" ++ word ++ lit ">") with ("<"%char :: word ++ [">"%char]).
  cbn [Py.replace].
  induction Hps as [|p ps Hp Hps IH]; [reflexivity|].
  destruct p as [c|word']; simpl in Hp.
  - rewrite render_cons.
    change (render_piece (Plain c) ++ render ps) with ([c] ++ render ps).
    rewrite replace_go_plain_run, IH.
    + reflexivity.
    + apply not_elem_of_cons. split; [congruence | apply not_elem_of_nil].
  - destruct Hp as (Hne' & Hlt' & Hgt'). rewrite render_token.
    cbn [Py.replace_go flat_map settle_one].
    rewrite startswith_token by assumption.
    destruct (decide (word' = word)) as [->|Hother].
    + rewrite bool_decide_eq_true_2 by reflexivity.
      rewrite replace_go_skip
        by (simpl; rewrite !length_app; simpl; lia).
      replace (length ("<"%char :: word ++ [">"%char]) - 1)%nat
        with (length word + 2 - 1)%nat
        by (simpl; rewrite length_app; simpl; lia).
      rewrite drop_token_body, IH, render_app, render_plain. reflexivity.
    + rewrite bool_decide_eq_false_2 by exact Hother.
      replace (word' ++ ">"%char :: render ps)
        with ((word' ++ [">"%char]) ++ render ps) by now rewrite <- app_assoc.
      rewrite replace_go_plain_run, IH.
      * rewrite render_app. simpl. now rewrite app_nil_r.
      * intros Hin. apply elem_of_app in Hin as [Hin|Hin]; [exact (Hlt' Hin)|].
        apply list_elem_of_singleton in Hin. discriminate.
Qed.

Lemma unwrap_word_no_bracket special word :
  "<"%char ∉ word -> "<"%char ∉ unwrap_word special word.
Proof.
  intros Hword. unfold unwrap_word.
  destruct (decide (word = special)); [by_compute | exact Hword].
Qed.

Lemma bracketed_plain s : "<"%char ∉ s -> Forall bracketed (map Plain s).
Proof.
  induction s as [|c s IH]; intros Hs; simpl; constructor.
  - simpl. intros ->. apply Hs, elem_of_cons. now left.
  - apply IH. intros Hin. apply Hs, elem_of_cons. now right.
Qed.

Lemma settle_bracketed special done ps :
  Forall bracketed ps -> Forall bracketed (flat_map (settle special done) ps).
Proof.
  induction 1 as [|p ps Hp Hps IH]; simpl; [constructor|].
  apply Forall_app. split; [|exact IH].
  destruct p as [c|word]; simpl.
  - now constructor.
  - destruct (decide (word ∈ done)); [|now constructor].
    apply bracketed_plain, unwrap_word_no_bracket. apply Hp.
Qed.

Lemma settle_one_plain word new s :
  flat_map (settle_one word new) (map Plain s) = map Plain s.
Proof. induction s as [|c s IH]; simpl; congruence. Qed.

Lemma settle_step special done word ps :
  flat_map (settle_one word (unwrap_word special word))
    (flat_map (settle special done) ps)
  = flat_map (settle special (word :: done)) ps.
Proof.
  induction ps as [|p ps IH]; [reflexivity|].
  simpl. rewrite flat_map_app, IH. f_equal.
  destruct p as [c|word']; [reflexivity|]. simpl.
  destruct (decide (word' ∈ done)) as [Hdone|Hnew].
  - rewrite settle_one_plain.
    rewrite decide_True by (apply elem_of_cons; now right). reflexivity.
  - simpl. rewrite app_nil_r.
    destruct (decide (word' = word)) as [->|Hother].
    + rewrite decide_True by (apply elem_of_cons; now left). reflexivity.
    + rewrite decide_False; [reflexivity|].
      intros Hin. apply elem_of_cons in Hin as [Hin|Hin]; auto.
Qed.

Lemma word_step_replace special d word :
  word_step special d word
  = Py.replace (lit "<" ++ word ++ lit ">") (unwrap_word special word) d.
Proof.
  unfold word_step, unwrap_word. now destruct (decide (word = special)).
Qed.

Lemma word_loop_render special words done ps :
  Forall bracketed ps ->
  Forall (fun word => bracketed (Token word)) words ->
  fold_left (word_step special) words
    (render (flat_map (settle special done) ps))
  = render (flat_map (settle special (rev words ++ done)) ps).
Proof.
  intros Hps Hwords. revert done.
  induction Hwords as [|word words Hword Hwords IH]; intros done;
    [reflexivity|].
  simpl fold_left. rewrite word_step_replace.
  rewrite replace_render by (exact Hword || now apply settle_bracketed).
  rewrite settle_step, IH. simpl rev. now rewrite <- app_assoc.
Qed.

Lemma settle_nothing special ps : flat_map (settle special []) ps = ps.
Proof.
  induction ps as [|p ps IH]; [reflexivity|]. simpl. rewrite IH.
  destruct p as [c|word]; [reflexivity|]. unfold settle.
  case_decide as Hin; [now apply elem_of_nil in Hin | reflexivity].
Qed.

Lemma settle_everything special done ps :
  (forall word, word ∈ words_of ps -> word ∈ done) ->
  render (flat_map (settle special done) ps)
  = flat_map (unwrap_piece special) ps.
Proof.
  induction ps as [|p ps IH]; intros Hall; [reflexivity|].
  simpl. rewrite render_app, IH.
  - f_equal. destruct p as [c|word]; [reflexivity|]. simpl.
    rewrite decide_True; [apply render_plain|].
    apply Hall. simpl. apply elem_of_cons. now left.
  - intros word Hword. apply Hall. simpl.
    apply elem_of_app. now right.
Qed.

Lemma words_of_bracketed ps :
  Forall bracketed ps ->
  Forall (fun word => bracketed (Token word)) (words_of ps).
Proof.
  induction 1 as [|p ps Hp Hps IH]; simpl; [constructor|].
  destruct p as [c|word]; simpl; [exact IH | now constructor].
Qed.

Lemma sanitize_with_render special ps :
  Forall bracketed ps ->
  sanitize_with special (render ps)
  = Py.html_escape (flat_map (unwrap_piece special) ps).
Proof.
  intros Hps. unfold sanitize_with, word_loop.
  rewrite url_loop_id, findall_words by exact Hps.
  rewrite <- (settle_nothing special ps) at 2.
  rewrite word_loop_render by (exact Hps || now apply words_of_bracketed).
  rewrite settle_everything; [reflexivity|].
  intros word Hword. rewrite app_nil_r. apply list_elem_of_In.
  apply -> in_rev. now apply list_elem_of_In.
Qed.

Ltac all_bracketed :=
  repeat (apply List.Forall_cons; [simpl; by_compute|]); apply List.Forall_nil.

(** C5, as the code has it. The loop over the URLs changes no text. For a
    message whose brackets only delimit tokens (no other opening bracket, and
    inside a token a non-empty text without brackets) the description is the
    message with every token replaced, the special mention by the label and
    any other token by its inner text, then escaped once; this is what the
    one-pass reading of the specification gives. *)
Theorem sanitize_well_bracketed_message
    (special : str) (ps : list piece) (any : str) :
  Forall bracketed ps ->
  url_loop any = any /\
  sanitize_with special (render ps)
  = Py.html_escape (flat_map (unwrap_piece special) ps) /\
  sanitize_with special (render ps) = sanitize_spec special (render ps).
Proof.
  intros Hps. split; [apply url_loop_id|].
  split; [now apply sanitize_with_render|].
  rewrite sanitize_with_render by exact Hps.
  unfold sanitize_spec. now rewrite unwrap_tokens_render.
Qed.

Lemma sanitize_well_bracketed_message_witness :
  sanitize_with (lit "@U123")
    (lit "check <http://example.com|example.com> and <@U123>")
  = lit "check http://example.com|example.com and xxx Ticketing System".
Proof.
  destruct (sanitize_well_bracketed_message (lit "@U123")
              (map Plain (lit "check ")
               ++ [Token (lit "http://example.com|example.com")]
               ++ map Plain (lit " and ") ++ [Token (lit "@U123")])
              (lit "see http://example.com/a?b=1"))
    as (_ & Hdescription & _).
  - vm_compute map. simpl app. all_bracketed.
  - exact Hdescription.
Defined.

(** C5, the claim as stated fails: the tokens of "<a<b>> <b>" are "<a<b>"
    and "<b>", so unwrapping each of them gives "a<b> b", escaped; the source
    replaces "<b>" everywhere after it has unwrapped the first token, and
    the inner text of that token is lost. *)
Lemma nested_bracket_counterexample :
  Re.findall Re.word_at (lit "<a<b>> <b>") = [lit "a<b"; lit "b"] /\
  sanitize_spec special_mention (lit "<a<b>> <b>") = lit "a&lt;b&gt; b" /\
  sanitize_description (lit "<a<b>> <b>") = lit "ab b" /\
  sanitize_description (lit "<a<b>> <b>")
  <> sanitize_spec special_mention (lit "<a<b>> <b>").
Proof.
  repeat split; try (vm_compute; reflexivity).
  vm_compute. discriminate.
Qed.

(** ** The resolve path and the tracker file *)

Lemma keeps_file_ret {A} (a : A) : keeps_file (ret a).
Proof. intros w. reflexivity. Qed.

Lemma keeps_file_emit a : keeps_file (emit a).
Proof. intros w. reflexivity. Qed.

Lemma keeps_file_call {A} a (answer : list action -> outcome A) :
  keeps_file (call a answer).
Proof. intros w. reflexivity. Qed.

Lemma keeps_file_bind {A B} (m : M A) (f : A -> M B) :
  keeps_file m -> (forall a, keeps_file (f a)) -> keeps_file (bind m f).
Proof.
  intros Hm Hf w. unfold bind. specialize (Hm w).
  destruct (m w) as [[a|e] w1]; simpl in *; [|exact Hm].
  now rewrite Hf.
Qed.

Lemma keeps_file_send_messages E first output ticket :
  keeps_file (send_messages E first output ticket).
Proof.
  revert first; induction output as [|message rest IH]; intros first; simpl.
  - apply keeps_file_ret.
  - destruct (truthy (m_user message) && truthy (m_text message)
              && negb (truthy (m_bot_id message))); [|apply IH].
    destruct first; [apply IH|].
    apply keeps_file_bind; [apply keeps_file_call|]. intros response.
    destruct (negb (status_code response =? 200)); [apply keeps_file_emit|].
    apply keeps_file_bind; [apply keeps_file_emit | intros _; apply IH].
Qed.

(** Once the reply of the resolve path is posted, the tracker file is
    rewritten by [markClosed] and not touched again. *)
Lemma ticket_resolved_file E data file text addr ch messages u :
  Py.index (blocks data) 0 = Some text ->
  slack_address_of (link_of text) = Some addr ->
  channel_id_of (link_of text) = Some ch ->
  let tr1 := [PrintData data; Print (ticket_number_of text);
              ConversationsHistory ch addr] in
  let tr2 := tr1 ++ [ReactionsAdd (lit "white_check_mark") ch addr] in
  let tr3 := tr2 ++ [ReactionsRemove (lit "eyes") ch addr] in
  let tr4 := tr3 ++ [ChatPostMessage ch (resolved_reply u) (Some addr)] in
  on_conversations_history E tr1 = Ok messages ->
  last_user None messages = Ok (Some u) ->
  on_reactions_add E tr2 = Ok tt ->
  on_reactions_remove E tr3 = Ok tt ->
  on_chat_postMessage E tr4 = Ok tt ->
  tracker_file (run (ticket_resolved E data) file).2 = markClosed addr file.
Proof.
  intros Htext Haddr Hch tr1 tr2 tr3 tr4 Hhist Huser Hadd Hremove Hpost.
  subst tr1 tr2 tr3 tr4. simpl in Hhist, Hadd, Hremove, Hpost.
  unfold run, ticket_resolved.
  unfold mbind at 1, M_bind at 1, bind at 1, emit at 1. simpl.
  unfold mbind at 1, M_bind at 1, bind at 1, of_option at 1.
  rewrite Htext. simpl.
  unfold mbind at 1, M_bind at 1, bind at 1, of_option at 1.
  rewrite Haddr. simpl.
  unfold mbind at 1, M_bind at 1, bind at 1, of_option at 1.
  rewrite Hch. simpl.
  unfold mbind at 1, M_bind at 1, bind at 1, emit at 1. simpl.
  unfold mbind at 1, M_bind at 1, bind at 1, call at 1. simpl.
  rewrite Hhist.
  unfold mbind at 1, M_bind at 1, bind at 1, of_outcome at 1.
  rewrite Huser.
  unfold mbind at 1, M_bind at 1, bind at 1, call at 1. simpl.
  rewrite Hadd.
  unfold mbind at 1, M_bind at 1, bind at 1, call at 1. simpl.
  rewrite Hremove.
  unfold mbind at 1, M_bind at 1, bind at 1, of_option at 1. simpl.
  unfold mbind at 1, M_bind at 1, bind at 1, call at 1. simpl.
  rewrite Hpost.
  unfold mbind at 1, M_bind at 1, bind at 1, read_tracker at 1. simpl.
  unfold mbind at 1, M_bind at 1, bind at 1.
  destruct file as [content|]; [|reflexivity]. simpl.
  unfold mbind at 1, M_bind at 1, bind at 1, write_tracker at 1. simpl.
  match goal with
  | |- tracker_file (mbind ?f ?m ?w).2 = _ =>
      assert (Hkeep : keeps_file (bind m f))
  end.
  { apply keeps_file_bind; [apply keeps_file_call|]. intros conversation.
    apply keeps_file_bind; [apply keeps_file_send_messages|]. intros _.
    apply keeps_file_ret. }
  apply Hkeep.
Qed.

(** C6. The rewrite of the resolve path keeps exactly the stored lines
    that do not contain the token: the lines of the new file are the old
    ones filtered in order, so a line that merely contains the token is
    dropped too; after [markOpen t] and then [markClosed t] the thread is not
    open, and the file has no occurrence of [t] (for a token that is not
    empty and has no line feed in it, as the tokens of a line-per-token file
    are).  The resolve handler leaves the file as [markClosed] gives it, for
    the thread it has read from the webhook. *)
Theorem markClosed_keeps_lines_without_token
    (iter : gset str -> list str) (t : str) (file : option str)
    (content : str) :
  (exists content',
      markClosed t (Some content) = Some content' /\
      readlines content'
      = List.filter (fun line => negb (Py.contains t line))
          (readlines content) /\
      (forall line, line ∈ readlines content' <->
                    line ∈ readlines content /\ ~ infix t line) /\
      (forall line, line ∈ readlines content -> infix t line ->
                    line ∉ readlines content')) /\
  isOpen t (markClosed t (markOpen iter t file)) = false /\
  (t <> [] -> Py.LF ∉ t ->
   exists content',
     markClosed t (markOpen iter t file) = Some content' /\
     Py.contains t content' = false) /\
  (forall E data text ch messages u,
      Py.index (blocks data) 0 = Some text ->
      slack_address_of (link_of text) = Some t ->
      channel_id_of (link_of text) = Some ch ->
      let tr1 := [PrintData data; Print (ticket_number_of text);
                  ConversationsHistory ch t] in
      let tr2 := tr1 ++ [ReactionsAdd (lit "white_check_mark") ch t] in
      let tr3 := tr2 ++ [ReactionsRemove (lit "eyes") ch t] in
      let tr4 := tr3 ++ [ChatPostMessage ch (resolved_reply u) (Some t)] in
      on_conversations_history E tr1 = Ok messages ->
      last_user None messages = Ok (Some u) ->
      on_reactions_add E tr2 = Ok tt ->
      on_reactions_remove E tr3 = Ok tt ->
      on_chat_postMessage E tr4 = Ok tt ->
      tracker_file (run (ticket_resolved E data) file).2
      = markClosed t file).
Proof.
  split; [|split; [|split]];
    [| | |intros E data text ch messages u Htext Haddr Hch tr1 tr2 tr3 tr4
            Hhist Huser Hadd Hremove Hpost;
          exact (ticket_resolved_file E data file text t ch messages u
                   Htext Haddr Hch Hhist Huser Hadd Hremove Hpost)].
  - eexists. split; [reflexivity|].
    rewrite readlines_kept. split; [reflexivity|]. split.
    + intros line. apply elem_of_kept_lines.
    + intros line _ Hinfix Hkept.
      apply elem_of_kept_lines in Hkept as [_ Hnot]. exact (Hnot Hinfix).
  - unfold isOpen. apply bool_decide_eq_false. unfold markOpen. simpl.
    intros Hin. apply elem_of_list_to_set in Hin.
    apply list_elem_of_In, in_map_iff in Hin as (line & Hstrip & Hline).
    apply list_elem_of_In in Hline. rewrite readlines_kept in Hline.
    apply elem_of_kept_lines in Hline as [_ Hnot].
    apply Hnot. rewrite <- Hstrip. apply rstrip_infix.
  - intros Hne HLF. unfold markOpen. simpl. eexists. split; [reflexivity|].
    apply contains_false. intros Hin.
    apply infix_concat_lines in Hin as (line & Hline & Hinfix); auto.
    + apply elem_of_kept_lines in Hline as [_ Hnot]. exact (Hnot Hinfix).
    + apply wf_lines_filter, readlines_wf.
Qed.

Lemma markClosed_keeps_lines_without_token_witness :
  exists content',
    markClosed (lit "1699999999.123456")
      (markOpen elements (lit "1699999999.123456")
         (Some (lit "1699999999.1234567" ++ [Py.LF] ++ lit "1700000000.000100"
                ++ [Py.LF])))
    = Some content' /\
    Py.contains (lit "1699999999.123456") content' = false.
Proof.
  destruct (markClosed_keeps_lines_without_token elements
              (lit "1699999999.123456")
              (Some (lit "1699999999.1234567" ++ [Py.LF]
                     ++ lit "1700000000.000100" ++ [Py.LF])) [])
    as (_ & _ & Hclean & _).
  apply Hclean.
  - discriminate.
  - by_compute.
Defined.


(** * Further properties of the code *)

(** ** The tracker file, read and written *)

Lemma lstrip_by_twice f s :
  Py.lstrip_by f (Py.lstrip_by f s) = Py.lstrip_by f s.
Proof.
  induction s as [|c s IH]; [reflexivity|]. simpl.
  destruct (f c) eqn:Hc; [exact IH|]. simpl. now rewrite Hc.
Qed.

Lemma rstrip_twice s : Py.rstrip (Py.rstrip s) = Py.rstrip s.
Proof.
  unfold Py.rstrip, Py.rstrip_by.
  now rewrite rev_involutive, lstrip_by_twice.
Qed.

Lemma load_stored_token (file : option str) (x : str) :
  x ∈ load_ticketed_threads_from file -> stored_token x.
Proof.
  intros Hx. destruct (load_one_line file x Hx) as [HLF HCR].
  repeat split; try assumption.
  destruct file as [content|]; [|now apply elem_of_empty in Hx].
  apply elem_of_load in Hx as (line & _ & ->). apply rstrip_twice.
Qed.

(** X1. Whatever the file holds, every token read from it is on one line
    and has no white space at its end. *)
Theorem loaded_tokens_are_stored_tokens (file : option str) (x : str) :
  x ∈ load_ticketed_threads_from file -> stored_token x.
Proof. apply load_stored_token. Qed.

Lemma loaded_tokens_are_stored_tokens_witness :
  stored_token (lit "1699999999.123456").
Proof.
  apply (loaded_tokens_are_stored_tokens
           (Some (lit "1699999999.123456  " ++ [Py.CR; Py.LF] ++ lit "x"))).
  by_compute.
Defined.

Lemma readlines_saved (l : list str) :
  (forall x, x ∈ l -> stored_token x) ->
  readlines (concat (map (fun x => x ++ [Py.LF]) l))
  = map (fun x => x ++ [Py.LF]) l.
Proof.
  intros Hl. apply readlines_concat.
  - apply wf_lines_terminated. intros x Hx. apply (Hl x Hx).
  - intros line Hline.
    apply list_elem_of_In, in_map_iff in Hline as (x & <- & Hx).
    apply list_elem_of_In in Hx. destruct (Hl x Hx) as (_ & HCR & _).
    intros Hc. apply elem_of_app in Hc as [Hc|Hc]; [exact (HCR Hc)|].
    apply list_elem_of_singleton in Hc. discriminate.
Qed.

Lemma load_saved_set (iter : gset str -> list str) (threads : gset str) :
  iterates iter ->
  (forall x, x ∈ threads -> stored_token x) ->
  load_ticketed_threads_from (Some (saved_content iter threads)) = threads.
Proof.
  intros Hiter Hstored. apply set_eq. intros x.
  rewrite elem_of_load. unfold saved_content.
  rewrite readlines_saved
    by (intros y Hy; apply Hstored, (iterates_elem _ _ _ Hiter), Hy).
  split.
  - intros (line & Hline & ->).
    apply list_elem_of_In, in_map_iff in Hline as (y & <- & Hy).
    apply list_elem_of_In, (iterates_elem _ _ _ Hiter) in Hy.
    rewrite rstrip_line. destruct (Hstored y Hy) as (_ & _ & ->). exact Hy.
  - intros Hx. exists (x ++ [Py.LF]). split.
    + apply list_elem_of_In, in_map_iff. exists x. split; [reflexivity|].
      now apply list_elem_of_In, (iterates_elem _ _ _ Hiter).
    + rewrite rstrip_line. now destruct (Hstored x Hx) as (_ & _ & ->).
Qed.

(** X2. Writing a set of stored tokens and reading the file back gives the
    same set, in whatever order the set is iterated. *)
Theorem load_after_save (iter : gset str -> list str) (threads : gset str) :
  iterates iter ->
  (forall x, x ∈ threads -> stored_token x) ->
  load_ticketed_threads_from (Some (saved_content iter threads)) = threads.
Proof. apply load_saved_set. Qed.

Lemma load_after_save_witness :
  load_ticketed_threads_from
    (Some (saved_content elements
             {[ lit "1699999999.123456"; lit "1700000000.000100" ]}))
  = {[ lit "1699999999.123456"; lit "1700000000.000100" ]}.
Proof.
  apply (load_after_save elements); [exact iterates_elements|].
  intros x Hx. apply elem_of_union in Hx as [Hx|Hx];
    apply elem_of_singleton in Hx as ->; repeat split; by_compute.
Defined.

Lemma raise_ticket_file iter db E event w :
  tracker_file (raise_ticket iter db E event w).2
  = if bool_decide (thread_of event ∈ load_ticketed_threads_from (tracker_file w))
    then tracker_file w
    else markOpen iter (thread_of event) (tracker_file w).
Proof.
  destruct (decide (thread_of event ∈ load_ticketed_threads_from (tracker_file w)))
    as [Hin|Hout].
  - rewrite bool_decide_eq_true_2 by exact Hin.
    now rewrite raise_ticket_tracked.
  - rewrite bool_decide_eq_false_2 by exact Hout.
    destruct (decide (thread_of event = [])) as [He|Hne].
    + rewrite raise_ticket_unbound by assumption. simpl.
      unfold markOpen. now rewrite He.
    + rewrite raise_ticket_untracked by assumption. simpl.
      destruct (on_requests_post E _) as [response|e]; [|reflexivity].
      destruct (negb (status_code response =? 200)); [reflexivity|].
      destruct (response_objects response) as [objects|]; [|reflexivity].
      destruct (Py.index objects 0); reflexivity.
Qed.

(** X3. Whatever iTop and Slack answer, and even when the handler fails,
    after a mention the threads read back from the file are those tracked
    before together with the thread of the mention (a stored token). *)
Theorem mention_leaves_thread_tracked
    (iter : gset str -> list str) (db : list user_row) (E : env)
    (event : mention_event) (file : option str) :
  iterates iter -> stored_token (thread_of event) ->
  load_ticketed_threads_from
    (tracker_file (run (raise_ticket iter db E event) file).2)
  = load_ticketed_threads_from file ∪ {[ thread_of event ]}.
Proof.
  intros Hiter Htoken. unfold run. rewrite raise_ticket_file. simpl.
  case_bool_decide as Hin.
  - apply set_eq. intros x. rewrite elem_of_union, elem_of_singleton.
    split; [now left | intros [Hx| ->]; assumption].
  - unfold markOpen. apply load_saved_set; [exact Hiter|].
    intros x Hx. apply elem_of_union in Hx as [Hx|Hx].
    + exact (load_stored_token file x Hx).
    + now apply elem_of_singleton in Hx as ->.
Qed.

Lemma mention_leaves_thread_tracked_witness :
  load_ticketed_threads_from
    (tracker_file
       (run (raise_ticket elements sample_db (answering 500 [] [])
               sample_mention)
          (Some (lit "1700000000.000100 " ++ [Py.LF]))).2)
  = load_ticketed_threads_from (Some (lit "1700000000.000100 " ++ [Py.LF]))
    ∪ {[ thread_of sample_mention ]}.
Proof.
  apply (mention_leaves_thread_tracked elements sample_db
           (answering 500 [] []) sample_mention).
  - exact iterates_elements.
  - repeat split; by_compute.
Defined.

Lemma infix_line t y :
  Py.LF ∉ t -> infix t (y ++ [Py.LF]) <-> infix t y.
Proof.
  intros HLF. split.
  - intros (a & b & Hab).
    destruct (decide (b = [])) as [->|Hb].
    + rewrite app_nil_r in Hab.
      destruct (decide (t = [])) as [->|Ht]; [exists [], y; reflexivity|].
      exfalso. apply HLF. exact (snoc_eq_app_last y a t Py.LF Hab Ht).
    + destruct (exists_last Hb) as (b' & c & ->).
      rewrite !app_assoc in Hab. apply app_inj_tail in Hab as [Hy _].
      exists a, b'. now rewrite Hy, <- app_assoc.
  - intros (a & b & ->). exists a, (b ++ [Py.LF]).
    now rewrite <- !app_assoc.
Qed.

Lemma load_markClosed_sub t file x :
  x ∈ load_ticketed_threads_from (markClosed t file) ->
  x ∈ load_ticketed_threads_from file.
Proof.
  destruct file as [content|]; [|intros H; exact H].
  simpl markClosed. rewrite !elem_of_load, readlines_kept.
  intros (line & Hline & ->). apply elem_of_kept_lines in Hline as [Hline _].
  eauto.
Qed.

Lemma load_markClosed_saved (iter : gset str -> list str) threads t x :
  iterates iter -> (forall y, y ∈ threads -> stored_token y) -> Py.LF ∉ t ->
  x ∈ load_ticketed_threads_from
        (markClosed t (Some (saved_content iter threads)))
  <-> x ∈ threads /\ ~ infix t x.
Proof.
  intros Hiter Hstored HLF. simpl markClosed.
  rewrite elem_of_load, readlines_kept. unfold saved_content.
  rewrite readlines_saved
    by (intros y Hy; apply Hstored, (iterates_elem _ _ _ Hiter), Hy).
  split.
  - intros (line & Hline & ->).
    apply elem_of_kept_lines in Hline as [Hline Hno].
    apply list_elem_of_In, in_map_iff in Hline as (y & <- & Hy).
    apply list_elem_of_In, (iterates_elem _ _ _ Hiter) in Hy.
    rewrite rstrip_line. destruct (Hstored y Hy) as (_ & _ & ->).
    split; [exact Hy|]. intros Hin. apply Hno.
    exact (proj2 (infix_line t y HLF) Hin).
  - intros [Hx Hno]. exists (x ++ [Py.LF]). split.
    + apply elem_of_kept_lines. split.
      * apply list_elem_of_In, in_map_iff. exists x. split; [reflexivity|].
        now apply list_elem_of_In, (iterates_elem _ _ _ Hiter).
      * intros Hin. apply Hno. exact (proj1 (infix_line t x HLF) Hin).
    + rewrite rstrip_line. now destruct (Hstored x Hx) as (_ & _ & ->).
Qed.

(** X4. Closing a thread never adds a token; on a file written by the
    bridge (a saved set of stored tokens) closing [t] leaves exactly the
    tracked tokens in which [t] does not occur. *)
Theorem markClosed_on_saved_file
    (iter : gset str -> list str) (threads : gset str) (t : str)
    (file : option str) :
  (forall x, x ∈ load_ticketed_threads_from (markClosed t file) ->
             x ∈ load_ticketed_threads_from file) /\
  (iterates iter -> (forall y, y ∈ threads -> stored_token y) ->
   Py.LF ∉ t ->
   forall x,
     x ∈ load_ticketed_threads_from
           (markClosed t (Some (saved_content iter threads)))
     <-> x ∈ threads /\ ~ infix t x).
Proof.
  split.
  - apply load_markClosed_sub.
  - intros Hiter Hstored HLF x. now apply load_markClosed_saved.
Qed.

Lemma markClosed_on_saved_file_witness :
  lit "1700000000.000100"
  ∈ load_ticketed_threads_from
      (markClosed (lit "1699999999.123456")
         (Some (saved_content elements
                  {[ lit "1699999999.123456"; lit "1700000000.000100" ]}))).
Proof.
  destruct (markClosed_on_saved_file elements
              {[ lit "1699999999.123456"; lit "1700000000.000100" ]}
              (lit "1699999999.123456") None) as [_ Hsaved].
  apply Hsaved.
  - exact iterates_elements.
  - intros x Hx. apply elem_of_union in Hx as [Hx|Hx];
      apply elem_of_singleton in Hx as ->; repeat split; by_compute.
  - by_compute.
  - split; [by_compute|]. apply contains_false. vm_compute. reflexivity.
Defined.

(** X5. A mention whose thread token is empty (no thread timestamp and an
    empty event timestamp) and not tracked yet is written to the file, and
    the handler then fails on the unbound [thread_ts_fixed] before any
    request to iTop or Slack. *)
Theorem empty_token_fails_after_the_write
    (iter : gset str -> list str) (db : list user_row) (E : env)
    (event : mention_event) (file : option str) :
  thread_of event = [] ->
  [] ∉ load_ticketed_threads_from file ->
  let content :=
    saved_content iter (load_ticketed_threads_from file ∪ {[ [] ]}) in
  run (raise_ticket iter db E event) file
  = (Raise UnboundLocalError,
     world_of (Some content) [Ack; WriteTracker content]).
Proof.
  intros He Hout content. unfold run.
  rewrite raise_ticket_unbound; [reflexivity| |exact He].
  simpl. now rewrite He.
Qed.

Lemma empty_token_fails_after_the_write_witness :
  (run (raise_ticket elements sample_db (answering 200 [] [])
          {| ev_channel := lit "C1"; ev_thread_ts := Some [];
             ev_ts := []; ev_user := lit "U42";
             ev_text := lit "help" |}) None).1
  = Raise UnboundLocalError.
Proof.
  rewrite (empty_token_fails_after_the_write elements sample_db
             (answering 200 [] [])
             {| ev_channel := lit "C1"; ev_thread_ts := Some [];
                ev_ts := []; ev_user := lit "U42";
                ev_text := lit "help" |} None).
  - reflexivity.
  - reflexivity.
  - apply not_elem_of_empty.
Defined.

(** ** Titles *)

Lemma capital_Slack_is_covered message :
  Py.contains (lit "Slack") message = true ->
  Py.contains (lit "slack") (Py.lower message) = true.
Proof. intros H. exact (contains_lower _ _ H). Qed.

(** X6. The title is "Slack issue" exactly when the lower-cased message
    contains "slack": the first rule matches any spelling, its second test
    for "Slack" adds nothing, and no other rule gives this title. *)
Theorem slack_title_iff (message : str) :
  title_of_message message = lit "Slack issue"
  <-> Py.contains (lit "slack") (Py.lower message) = true.
Proof.
  split.
  - intros Htitle.
    destruct (Py.contains (lit "slack") (Py.lower message)) eqn:Hlower;
      [reflexivity|].
    destruct (Py.contains (lit "Slack") message) eqn:Hcap.
    + apply capital_Slack_is_covered in Hcap. congruence.
    + exfalso. revert Htitle. unfold title_of_message.
      rewrite Hlower, Hcap. cbn [orb]. cbv iota.
      repeat match goal with
             | |- context [if ?b then _ else _] => destruct b
             end; nonempty.
  - intros Hlower. unfold title_of_message. now rewrite Hlower.
Qed.

(** ** Escaping *)

Lemma replace_char (c : ascii) new s :
  Py.replace [c] new s
  = flat_map (fun x => if ascii_dec c x then new else [x]) s.
Proof.
  cbn [Py.replace]. induction s as [|x s IH]; [reflexivity|].
  cbn [Py.replace_go Py.startswith flat_map length Nat.sub].
  destruct (ascii_dec c x); simpl; now rewrite IH.
Qed.

Lemma flat_map_flat_map {A B C} (f : A -> list B) (g : B -> list C) l :
  flat_map g (flat_map f l) = flat_map (fun x => flat_map g (f x)) l.
Proof.
  induction l as [|x l IH]; [reflexivity|].
  simpl. now rewrite flat_map_app, IH.
Qed.

Lemma html_escape_chars s : Py.html_escape s = flat_map escape_char s.
Proof.
  unfold Py.html_escape.
  change (lit "&") with ["&"%char]. change (lit "<") with ["<"%char].
  change (lit ">") with [">"%char].
  rewrite !replace_char, !flat_map_flat_map.
  apply flat_map_ext. intros c.
  destruct c as [[] [] [] [] [] [] [] []]; vm_compute; reflexivity.
Qed.

Lemma escape_char_safe c x :
  x ∈ escape_char c ->
  x <> "<"%char /\ x <> ">"%char /\ x <> Py.DQUOTE /\ x <> Py.SQUOTE.
Proof.
  unfold escape_char.
  repeat match goal with
         | |- context [ascii_dec ?a ?b] => destruct (ascii_dec a b)
         end;
    try (intros Hx; vm_compute in Hx;
         repeat (apply elem_of_cons in Hx as [->|Hx];
                 [repeat split; discriminate|]);
         now apply elem_of_nil in Hx).
  intros Hx. apply list_elem_of_singleton in Hx as ->.
  repeat split; assumption.
Qed.

Lemma html_escape_safe s x :
  x ∈ Py.html_escape s ->
  x <> "<"%char /\ x <> ">"%char /\ x <> Py.DQUOTE /\ x <> Py.SQUOTE.
Proof.
  rewrite html_escape_chars, list_elem_of_In, in_flat_map.
  intros (c & _ & Hx). apply (escape_char_safe c). now apply list_elem_of_In.
Qed.

(** X7. The five replacements of the escaping act as one pass that maps
    each character on its own, and so the description of any message holds
    no angle bracket and no quote character. *)
Theorem description_has_no_bracket_or_quote (special message : str) :
  (forall s, Py.html_escape s = flat_map escape_char s) /\
  (forall x, x ∈ sanitize_with special message ->
             x <> "<"%char /\ x <> ">"%char /\
             x <> Py.DQUOTE /\ x <> Py.SQUOTE).
Proof.
  split; [apply html_escape_chars|].
  intros x. unfold sanitize_with. apply html_escape_safe.
Qed.

(** X8. A message without an opening bracket has no token to unwrap: its
    description is the message itself, escaped. *)
Theorem message_without_bracket_is_only_escaped (special message : str) :
  "<"%char ∉ message ->
  sanitize_with special message = Py.html_escape message.
Proof.
  intros Hno.
  rewrite <- (render_plain message) at 1.
  rewrite sanitize_with_render by now apply bracketed_plain.
  f_equal. induction message as [|c m IH]; [reflexivity|].
  simpl. f_equal. apply IH. intros Hin. apply Hno, elem_of_cons. now right.
Qed.

Lemma message_without_bracket_is_only_escaped_witness :
  sanitize_with special_mention (lit "a > b & c")
  = Py.html_escape (lit "a > b & c").
Proof.
  apply (message_without_bracket_is_only_escaped special_mention
           (lit "a > b & c")).
  by_compute.
Defined.

(** ** Webhook texts that lack a part *)

Lemma find_nat_none sub s : ~ infix sub s -> Py.find_nat sub s = None.
Proof.
  induction s as [|c s IH]; intros Hno; simpl.
  - destruct (Py.startswith sub []) eqn:Hhead; [|reflexivity].
    exfalso. apply Hno. apply startswith_true in Hhead as [r Hr].
    exists [], r. exact Hr.
  - destruct (Py.startswith sub (c :: s)) eqn:Hhead.
    + exfalso. apply Hno. apply startswith_true in Hhead as [r Hr].
      exists [], r. exact Hr.
    + rewrite IH; [reflexivity|].
      intros (a & b & Hab). apply Hno. exists (c :: a), b. simpl. congruence.
Qed.

Lemma find_none sub s : ~ infix sub s -> Py.find sub s = -1.
Proof.
  intros Hno. unfold Py.find, Py.find_from, Py.clamp. simpl.
  rewrite drop_0, find_nat_none by exact Hno. reflexivity.
Qed.

Lemma lstrip_by_length f s : (length (Py.lstrip_by f s) <= length s)%nat.
Proof.
  destruct (lstrip_by_suffix f s) as [w Hw].
  rewrite Hw at 2. rewrite length_app. lia.
Qed.

Lemma strip_length s : (length (Py.strip s) <= length s)%nat.
Proof.
  unfold Py.strip, Py.lstrip, Py.rstrip, Py.rstrip_by.
  etransitivity; [apply lstrip_by_length|].
  rewrite length_rev. etransitivity; [apply lstrip_by_length|].
  now rewrite length_rev.
Qed.

Lemma slice_last (s : str) :
  (length (Py.slice s (Some (-1)%Z) None) <= 1)%nat.
Proof.
  unfold Py.slice, Py.clamp.
  change (-1 <? 0)%Z with true. cbv iota.
  rewrite length_take, length_drop. lia.
Qed.

Lemma link_of_without_marker text :
  ~ infix (lit "Link to Slack:") text -> ~ infix (lit "/p") (link_of text).
Proof.
  intros Hno (a & b & Hab). unfold link_of in Hab.
  rewrite find_none in Hab by exact Hno.
  pose proof (strip_length (Py.slice text (Some (-1)) None)) as Hlen.
  pose proof (slice_last text) as Hone.
  rewrite Hab, !length_app in Hlen. simpl in Hlen. lia.
Qed.

Lemma slack_address_of_none link :
  ~ infix (lit "/p") link -> slack_address_of link = None.
Proof.
  intros Hno. unfold slack_address_of.
  now rewrite split_no_occurrence by exact Hno.
Qed.

(** X9. A webhook text without the marker "Link to Slack:" has no "/p" in
    what the handlers take for the link, and on a text whose link has no
    "/p" both handlers fail with an IndexError before they call Slack or
    iTop or touch the tracker: the assignment handler has done nothing, the
    resolve handler has only printed the payload. *)
Theorem link_without_thread_fails_early
    (db : list user_row) (E : env) (data : webhook) (file : option str)
    (text : str) :
  (~ infix (lit "Link to Slack:") text -> ~ infix (lit "/p") (link_of text)) /\
  (Py.index (blocks data) 0 = Some text ->
   ~ infix (lit "/p") (link_of text) ->
   run (ticket_assigned db E data) file
   = (Raise IndexError, world_of file []) /\
   run (ticket_resolved E data) file
   = (Raise IndexError, world_of file [PrintData data])).
Proof.
  split; [apply link_of_without_marker|].
  intros Htext Hno. apply slack_address_of_none in Hno.
  unfold run, ticket_assigned, ticket_resolved. unfold_handler.
  rewrite Htext. simpl. rewrite Hno. split; reflexivity.
Qed.

Lemma link_without_thread_fails_early_witness :
  run (ticket_resolved (answering 200 [] [first_post])
         {| blocks := [lit "Ticket R-000111 was resolved."] |}) None
  = (Raise IndexError,
     world_of None
       [PrintData {| blocks := [lit "Ticket R-000111 was resolved."] |}]).
Proof.
  destruct (link_without_thread_fails_early sample_db
              (answering 200 [] [first_post])
              {| blocks := [lit "Ticket R-000111 was resolved."] |} None
              (lit "Ticket R-000111 was resolved.")) as [Hlink Hrun].
  apply Hrun; [reflexivity|]. apply Hlink.
  apply contains_false. vm_compute. reflexivity.
Defined.

Lemma find_nat_bound sub s k :
  sub <> [] -> Py.find_nat sub s = Some k -> (k < length s)%nat.
Proof.
  intros Hne Hfind. apply first_at_find_nat in Hfind as [[r Hr] _].
  apply (f_equal length) in Hr. rewrite length_drop, length_app in Hr.
  destruct sub; [congruence|]. simpl in Hr. lia.
Qed.

Lemma assigned_person_name_of_none text :
  ~ infix (lit "Assigned to:") text -> assigned_person_name_of text = None.
Proof.
  intros Hno. unfold assigned_person_name_of.
  rewrite find_none by exact Hno.
  assert (Hslice :
    Py.slice text (Some (-1)) (Some (Py.find_from [Py.LF] text (-1))) = []).
  { unfold Py.slice, Py.find_from.
    set (a := Py.clamp (length text) (-1)).
    assert (Ha : (length text - 1 <= a /\ a <= length text)%nat).
    { subst a. unfold Py.clamp. change (-1 <? 0) with true. cbv iota. lia. }
    destruct (Py.find_nat [Py.LF] (drop a text)) as [k|] eqn:Hfind.
    - apply find_nat_bound in Hfind; [|discriminate].
      rewrite length_drop in Hfind.
      rewrite clamp_nat by lia.
      replace (a + k - a)%nat with 0%nat by lia. reflexivity.
    - fold a. now rewrite Nat.sub_diag. }
  now rewrite Hslice.
Qed.

(** X10. An assignment text without "Assigned to:" makes the handler fail
    with an IndexError right after it has looked the thread up: no
    reaction, reply or direct message follows. *)
Theorem assignment_without_assignee_fails
    (db : list user_row) (E : env) (data : webhook) (file : option str)
    (text addr ch : str) (messages : list message) (user_id : option str) :
  Py.index (blocks data) 0 = Some text ->
  slack_address_of (link_of text) = Some addr ->
  channel_id_of (link_of text) = Some ch ->
  on_conversations_history E [ConversationsHistory ch addr] = Ok messages ->
  last_user None messages = Ok user_id ->
  ~ infix (lit "Assigned to:") text ->
  run (ticket_assigned db E data) file
  = (Raise IndexError, world_of file [ConversationsHistory ch addr]).
Proof.
  intros Htext Haddr Hch Hhist Huser Hno.
  apply assigned_person_name_of_none in Hno.
  unfold run, ticket_assigned. unfold_handler.
  rewrite Htext. simpl. rewrite Haddr. simpl. rewrite Hch. simpl.
  rewrite Hhist. simpl. rewrite Huser. simpl. now rewrite Hno.
Qed.

Lemma assignment_without_assignee_fails_witness :
  run (ticket_assigned sample_db (answering 200 [] [first_post])
         {| blocks :=
              [lit "Link to Slack: https://x.slack.com/archives/C1/p1699999999123456"] |})
    None
  = (Raise IndexError,
     world_of None
       [ConversationsHistory (lit "C1") (lit "1699999999.123456")]).
Proof.
  apply (assignment_without_assignee_fails sample_db
           (answering 200 [] [first_post]) _ None
           (lit "Link to Slack: https://x.slack.com/archives/C1/p1699999999123456")
           (lit "1699999999.123456") (lit "C1") [first_post]
           (Some (lit "U42"))); try reflexivity.
  apply contains_false. vm_compute. reflexivity.
Defined.

Lemma assigned_person_name_of_last_line (text a raw : str) (c : ascii) :
  text = a ++ lit "Assigned to:" ++ raw ++ [c] ->
  first_at (lit "Assigned to:") text (length a) ->
  Py.LF ∉ raw ++ [c] -> ~ infix (lit "Assigned to:") raw ->
  assigned_person_name_of text = Some (Py.strip raw).
Proof.
  intros Htext Hfirst HLF Hno. unfold assigned_person_name_of.
  rewrite (find_first_at (lit "Assigned to:") text (length a)
             ltac:(nonempty) Hfirst).
  assert (Hlen : length text = (length a + 12 + length raw + 1)%nat).
  { rewrite Htext, !length_app. simpl. lia. }
  assert (Hline : Py.find_from [Py.LF] text (Z.of_nat (length a)) = -1).
  { unfold Py.find_from. rewrite clamp_nat by lia.
    rewrite Htext, drop_app_length, find_nat_none; [reflexivity|].
    intros Hin. apply (infix_elem _ _ Py.LF) in Hin;
      [|apply list_elem_of_singleton; reflexivity].
    apply elem_of_app in Hin as [Hin|Hin]; [|exact (HLF Hin)].
    revert Hin. by_compute. }
  rewrite Hline.
  assert (Hslice : Py.slice text (Some (Z.of_nat (length a))) (Some (-1))
                   = lit "Assigned to:" ++ raw).
  { unfold Py.slice. rewrite clamp_nat by lia.
    unfold Py.clamp. change (-1 <? 0) with true. cbv iota.
    replace (Z.to_nat ((-1 + Z.of_nat (length text)) `max` 0) - length a)%nat
      with (length (lit "Assigned to:" ++ raw))
      by (rewrite length_app; simpl; lia).
    rewrite Htext, drop_app_length, app_assoc. apply take_app_length. }
  rewrite Hslice.
  pose proof (split_first (lit "Assigned to:") [] raw) as Hsplit.
  change ([] ++ lit "Assigned to:" ++ raw)
    with (lit "Assigned to:" ++ raw) in Hsplit.
  rewrite Hsplit.
  - rewrite split_no_occurrence by exact Hno. reflexivity.
  - nonempty.
  - split; [now exists raw | intros m Hm; simpl in Hm; lia].
Qed.

(** X11. When no line feed follows "Assigned to:", the name is cut at the
    last character of the text, which is lost: from "...Assigned to: Jane
    Doe" the handler reads "Jane Do". *)
Theorem assignee_on_last_line_loses_a_character
    (text a raw : str) (c : ascii) :
  text = a ++ lit "Assigned to:" ++ raw ++ [c] ->
  first_at (lit "Assigned to:") text (length a) ->
  Py.LF ∉ raw ++ [c] -> ~ infix (lit "Assigned to:") raw ->
  assigned_person_name_of text = Some (Py.strip raw).
Proof. apply assigned_person_name_of_last_line. Qed.

Lemma assignee_on_last_line_loses_a_character_witness :
  assigned_person_name_of (lit "R-000111 Assigned to: Jane Doe")
  = Some (lit "Jane Do").
Proof.
  apply (assignee_on_last_line_loses_a_character
           (lit "R-000111 Assigned to: Jane Doe")
           (lit "R-000111 ") (lit " Jane Do") "e"%char).
  - reflexivity.
  - apply first_at_find_nat. vm_compute. reflexivity.
  - by_compute.
  - apply contains_false. vm_compute. reflexivity.
Defined.

Lemma slice_window_length (s : str) (i : Z) :
  (length (Py.slice s (Some i) (Some (i + 8)%Z)) <= 8)%nat.
Proof.
  unfold Py.slice, Py.clamp. rewrite length_take, length_drop.
  destruct (i <? 0) eqn:Hi, (i + 8 <? 0) eqn:Hj;
    rewrite ?Z.ltb_lt, ?Z.ltb_ge in *; lia.
Qed.

Lemma ticket_number_of_absent_long text :
  ~ infix (lit "R-") text -> (8 <= length text)%nat ->
  ticket_number_of text = [].
Proof.
  intros Hno Hlen. unfold ticket_number_of. rewrite find_none by exact Hno.
  unfold Py.slice, Py.clamp.
  change (-1 <? 0) with true. change (-1 + 8 <? 0) with false. cbv iota.
  replace (Z.to_nat (-1 + 8) `min` length text
           - Z.to_nat ((-1 + Z.of_nat (length text)) `max` 0))%nat
    with 0%nat by lia.
  reflexivity.
Qed.

Lemma ticket_number_of_absent_short text :
  ~ infix (lit "R-") text -> (length text <= 7)%nat ->
  ticket_number_of text = drop (length text - 1) text.
Proof.
  intros Hno Hlen. unfold ticket_number_of. rewrite find_none by exact Hno.
  unfold Py.slice, Py.clamp.
  change (-1 <? 0) with true. change (-1 + 8 <? 0) with false. cbv iota.
  replace (Z.to_nat ((-1 + Z.of_nat (length text)) `max` 0))
    with (length text - 1)%nat by lia.
  apply take_ge. rewrite length_drop. lia.
Qed.

Lemma ticket_number_of_found text n :
  first_at (lit "R-") text n -> ticket_number_of text = take 8 (drop n text).
Proof.
  intros Hfirst. unfold ticket_number_of.
  pose proof (first_at_bound (lit "R-") text n ltac:(nonempty) Hfirst) as Hn.
  rewrite (find_first_at (lit "R-") text n ltac:(nonempty) Hfirst).
  unfold Py.slice. rewrite clamp_nat by exact Hn.
  unfold Py.clamp.
  destruct (Z.of_nat n + 8 <? 0) eqn:Hneg; [apply Z.ltb_lt in Hneg; lia|].
  destruct (decide (n + 8 <= length text)%nat).
  - replace (Z.to_nat (Z.of_nat n + 8) `min` length text - n)%nat
      with 8%nat by lia.
    reflexivity.
  - replace (Z.to_nat (Z.of_nat n + 8) `min` length text - n)%nat
      with (length text - n)%nat by lia.
    rewrite !take_ge by (rewrite length_drop; lia). reflexivity.
Qed.

(** X12. The ticket number read from a text has at most 8 characters. It is
    the 8 characters from the first "R-", or fewer when the text ends
    sooner; without any "R-" it is empty for a text of 8 characters or more,
    and the last character of a shorter text. *)
Theorem ticket_number_bounds (text : str) :
  (length (ticket_number_of text) <= 8)%nat /\
  (forall n, first_at (lit "R-") text n ->
             ticket_number_of text = take 8 (drop n text)) /\
  (~ infix (lit "R-") text -> (8 <= length text)%nat ->
   ticket_number_of text = []) /\
  (~ infix (lit "R-") text -> (length text <= 7)%nat ->
   ticket_number_of text = drop (length text - 1) text).
Proof.
  split; [apply slice_window_length|].
  split; [apply ticket_number_of_found|].
  split; [apply ticket_number_of_absent_long
         | apply ticket_number_of_absent_short].
Qed.

Lemma ticket_number_bounds_witness :
  ticket_number_of (lit "ticket R-12") = lit "R-12" /\
  ticket_number_of (lit "nothing here") = [] /\
  ticket_number_of (lit "short") = lit "t".
Proof.
  split; [|split].
  - destruct (ticket_number_bounds (lit "ticket R-12")) as (_ & Hfound & _).
    apply (Hfound 7%nat). apply first_at_find_nat. vm_compute. reflexivity.
  - destruct (ticket_number_bounds (lit "nothing here"))
      as (_ & _ & Hlong & _).
    apply Hlong; [apply contains_false; vm_compute; reflexivity|].
    vm_compute. lia.
  - destruct (ticket_number_bounds (lit "short")) as (_ & _ & _ & Hshort).
    apply Hshort; [apply contains_false; vm_compute; reflexivity|].
    vm_compute. lia.
Defined.

(** ** What the handlers do and never do *)

Lemma emits_ret P {A} (a : A) : emits P (ret a).
Proof. intros w. exists []. simpl. now rewrite app_nil_r. Qed.

Lemma emits_raise P {A} (e : exn) : emits P (@raise A e).
Proof. intros w. exists []. simpl. now rewrite app_nil_r. Qed.

Lemma emits_emit (P : action -> bool) a : P a = true -> emits P (emit a).
Proof. intros Ha w. exists [a]. simpl. now rewrite Ha. Qed.

Lemma emits_call (P : action -> bool) {A} a
    (answer : list action -> outcome A) :
  P a = true -> emits P (call a answer).
Proof. intros Ha w. exists [a]. simpl. now rewrite Ha. Qed.

Lemma emits_of_option P {A} e (o : option A) : emits P (of_option e o).
Proof. destruct o; [apply emits_ret | apply emits_raise]. Qed.

Lemma emits_of_outcome P {A} (o : outcome A) : emits P (of_outcome o).
Proof. intros w. exists []. simpl. now rewrite app_nil_r. Qed.

Lemma emits_bind P {A B} (m : M A) (f : A -> M B) :
  emits P m -> (forall a, emits P (f a)) -> emits P (bind m f).
Proof.
  intros Hm Hf w. unfold bind. destruct (Hm w) as (r1 & H1 & HP1).
  destruct (m w) as [[a|e] w1]; simpl in *.
  - destruct (Hf a w1) as (r2 & H2 & HP2). exists (r1 ++ r2).
    rewrite H2, H1, app_assoc, forallb_app, HP1, HP2. now split.
  - now exists r1.
Qed.

Lemma emits_try_except P {A} (m h : M A) :
  emits P m -> emits P h -> emits P (try_except m h).
Proof.
  intros Hm Hh w. unfold try_except. destruct (Hm w) as (r1 & H1 & HP1).
  destruct (m w) as [[a|e] w1]; simpl in *.
  - now exists r1.
  - destruct (Hh w1) as (r2 & H2 & HP2). exists (r1 ++ r2).
    rewrite H2, H1, app_assoc, forallb_app, HP1, HP2. now split.
Qed.

Lemma keeps_file_raise {A} (e : exn) : keeps_file (@raise A e).
Proof. intros w. reflexivity. Qed.

Lemma keeps_file_of_option {A} e (o : option A) : keeps_file (of_option e o).
Proof. destruct o; [apply keeps_file_ret | apply keeps_file_raise]. Qed.

Lemma keeps_file_of_outcome {A} (o : outcome A) : keeps_file (of_outcome o).
Proof. intros w. reflexivity. Qed.

Lemma keeps_file_try_except {A} (m h : M A) :
  keeps_file m -> keeps_file h -> keeps_file (try_except m h).
Proof.
  intros Hm Hh w. unfold try_except. specialize (Hm w).
  destruct (m w) as [[a|e] w1]; simpl in *; [exact Hm|].
  now rewrite Hh.
Qed.

Lemma ensure_eyes_emits E ch addr :
  emits slack_or_print (ensure_eyes E ch addr) /\
  keeps_file (ensure_eyes E ch addr).
Proof.
  unfold ensure_eyes. split.
  - apply emits_try_except; [|now apply emits_emit].
    apply emits_bind; [now apply emits_call|]. intros [reactions|];
      [|apply emits_ret].
    destruct (negb _); [now apply emits_call | apply emits_ret].
  - apply keeps_file_try_except; [|apply keeps_file_emit].
    apply keeps_file_bind; [apply keeps_file_call|]. intros [reactions|];
      [|apply keeps_file_ret].
    destruct (negb _); [apply keeps_file_call | apply keeps_file_ret].
Qed.

Lemma ticket_assigned_emits db E data :
  emits slack_or_print (ticket_assigned db E data) /\
  keeps_file (ticket_assigned db E data).
Proof.
  unfold ticket_assigned. split.
  - apply emits_bind; [apply emits_of_option|]. intros text.
    apply emits_bind; [apply emits_of_option|]. intros addr.
    apply emits_bind; [apply emits_of_option|]. intros ch.
    apply emits_bind; [now apply emits_call|]. intros messages.
    apply emits_bind; [apply emits_of_outcome|]. intros user_id.
    apply emits_bind; [apply emits_of_option|]. intros name.
    apply emits_bind; [apply ensure_eyes_emits|]. intros _.
    apply emits_bind; [apply emits_of_option|]. intros user.
    apply emits_bind; [now apply emits_call|]. intros _.
    apply emits_bind; [now apply emits_call|]. intros dm.
    apply emits_bind; [now apply emits_call|]. intros _.
    apply emits_ret.
  - apply keeps_file_bind; [apply keeps_file_of_option|]. intros text.
    apply keeps_file_bind; [apply keeps_file_of_option|]. intros addr.
    apply keeps_file_bind; [apply keeps_file_of_option|]. intros ch.
    apply keeps_file_bind; [apply keeps_file_call|]. intros messages.
    apply keeps_file_bind; [apply keeps_file_of_outcome|]. intros user_id.
    apply keeps_file_bind; [apply keeps_file_of_option|]. intros name.
    apply keeps_file_bind; [apply ensure_eyes_emits|]. intros _.
    apply keeps_file_bind; [apply keeps_file_of_option|]. intros user.
    apply keeps_file_bind; [apply keeps_file_call|]. intros _.
    apply keeps_file_bind; [apply keeps_file_call|]. intros dm.
    apply keeps_file_bind; [apply keeps_file_call|]. intros _.
    apply keeps_file_ret.
Qed.

(** X13. Whatever the payload and whatever Slack answers, the assignment
    handler only calls Slack and prints: it never writes the tracker file,
    which it leaves as it found it, and never sends anything to iTop. *)
Theorem assignment_only_talks_to_slack
    (db : list user_row) (E : env) (data : webhook) (file : option str) :
  tracker_file (run (ticket_assigned db E data) file).2 = file /\
  forallb slack_or_print (trace (run (ticket_assigned db E data) file).2)
  = true.
Proof.
  destruct (ticket_assigned_emits db E data) as [Hemits Hkeeps]. split.
  - apply Hkeeps.
  - destruct (Hemits {| tracker_file := file; trace := [] |})
      as (rest & Hrest & HP).
    unfold run. rewrite Hrest. exact HP.
Qed.

(** Every creation request among the new actions has a write of the
    tracker file before it. *)
Ltac created_after_write :=
  let before := fresh "before" in
  let a := fresh "a" in
  let after := fresh "after" in
  let Heq := fresh "Heq" in
  let Hc := fresh "Hc" in
  intros before a after Heq Hc;
  repeat (destruct before as [|? before];
          [injection Heq as <- _; first [discriminate Hc | reflexivity]
          |injection Heq as <- Heq]);
  destruct before; discriminate Heq.

Lemma raise_ticket_counts iter db E event w :
  exists rest,
    trace (raise_ticket iter db E event w).2 = trace w ++ rest /\
    (forall before a after,
        rest = before ++ a :: after -> is_create a = true ->
        existsb is_write before = true) /\
    (count is_create rest <= 1)%nat /\
    (count is_write rest <= 1)%nat /\
    (count is_post rest <= 1)%nat /\
    (count is_create rest <= count is_write rest)%nat /\
    forallb (fun a => negb (slack_or_print a) || is_post a) rest = true.
Proof.
  destruct (decide (thread_of event ∈ load_ticketed_threads_from (tracker_file w)))
    as [Hin|Hout].
  - rewrite raise_ticket_tracked by exact Hin. simpl.
    eexists. split; [reflexivity|].
    split; [created_after_write|]. cbv. repeat split; lia.
  - destruct (decide (thread_of event = [])) as [He|Hne].
    + rewrite raise_ticket_unbound by assumption. simpl.
      eexists. split; [reflexivity|].
      split; [created_after_write|]. cbv. repeat split; lia.
    + rewrite raise_ticket_untracked by assumption. simpl.
      destruct (on_requests_post E _) as [response|e];
        [|eexists; split; [reflexivity|];
          (split; [created_after_write|]); cbv; repeat split; lia].
      destruct (negb (status_code response =? 200));
        [eexists; split; [simpl; rewrite <- app_assoc; reflexivity|];
         (split; [created_after_write|]); cbv; repeat split; lia|].
      destruct (response_objects response) as [objects|];
        [|eexists; split; [reflexivity|];
          (split; [created_after_write|]); cbv; repeat split; lia].
      destruct (Py.index objects 0);
        eexists; (split; [simpl; rewrite <- ?app_assoc; reflexivity|]);
        (split; [created_after_write|]); cbv; repeat split; lia.
Qed.

(** X14. One mention makes at most one creation request, at most one write
    of the tracker file and at most one reply.  A creation request is only
    made after a write: whatever precedes it in the run holds a write of
    the tracker file.  The handler calls nothing else of Slack. *)
Theorem mention_does_little
    (iter : gset str -> list str) (db : list user_row) (E : env)
    (event : mention_event) (file : option str) :
  let tr := trace (run (raise_ticket iter db E event) file).2 in
  (count is_create tr <= 1)%nat /\
  (count is_write tr <= 1)%nat /\
  (count is_post tr <= 1)%nat /\
  (count is_create tr <= count is_write tr)%nat /\
  (forall before fields after,
      tr = before ++ ItopCreate fields :: after ->
      exists content, WriteTracker content ∈ before) /\
  forallb (fun a => negb (slack_or_print a) || is_post a) tr = true.
Proof.
  intros tr. subst tr. unfold run.
  destruct (raise_ticket_counts iter db E event
              {| tracker_file := file; trace := [] |})
    as (rest & -> & Hord & Hc & Hw & Hp & Hcw & Hall).
  simpl. repeat split; try assumption.
  intros before fields after Heq.
  pose proof (Hord before (ItopCreate fields) after Heq eq_refl) as Hwrite.
  apply existsb_exists in Hwrite as (a & Ha & Hwrite).
  destruct a; try discriminate Hwrite.
  eexists. apply list_elem_of_In. exact Ha.
Qed.

Lemma mention_does_little_witness :
  let t := thread_of sample_mention in
  let content :=
    saved_content elements (load_ticketed_threads_from None ∪ {[ t ]}) in
  exists written, WriteTracker written ∈ [Ack; WriteTracker content].
Proof.
  intros t content.
  destruct (mention_does_little elements sample_db (answering 500 [] [])
              sample_mention None)
    as (_ & _ & _ & _ & Hord & _).
  eapply (Hord [Ack; WriteTracker content]).
  unfold run.
  rewrite raise_ticket_untracked
    by (apply not_elem_of_empty || by_compute).
  reflexivity.
Defined.

(** X15. On a thread that is not tracked, when iTop answers 200 with an
    object, the handler replies in the thread with the friendly name of the
    first object; these four actions are all it does. *)
Theorem created_ticket_is_announced
    (iter : gset str -> list str) (db : list user_row) (E : env)
    (event : mention_event) (file : option str)
    (response : http_response) (name : str) (others : list str) :
  let t := thread_of event in
  let content :=
    saved_content iter (load_ticketed_threads_from file ∪ {[ t ]}) in
  let data := ticket_fields db event (concat (Py.split (lit ".") t)) in
  let tr := [Ack; WriteTracker content; ItopCreate data;
             ChatPostMessage (ev_channel event)
               (created_reply (ev_user event) name) (Some t)] in
  t ∉ load_ticketed_threads_from file -> t <> [] ->
  on_requests_post E [Ack; WriteTracker content; ItopCreate data]
  = Ok response ->
  status_code response = 200 ->
  response_objects response = Some (name :: others) ->
  run (raise_ticket iter db E event) file
  = (on_chat_postMessage E tr, world_of (Some content) tr).
Proof.
  intros t content data tr Hout Hne Hanswer Hstatus Hobjects.
  unfold run. rewrite raise_ticket_untracked by assumption. simpl.
  fold t content data. rewrite Hanswer, Hstatus, Hobjects. reflexivity.
Qed.

Lemma created_ticket_is_announced_witness :
  (run (raise_ticket elements sample_db (answering 200 (lit "R-000111") [])
          sample_mention) None).1
  = Ok tt.
Proof.
  rewrite (created_ticket_is_announced elements sample_db
             (answering 200 (lit "R-000111") []) sample_mention None
             {| status_code := 200; response_text := lit "body";
                response_objects := Some [lit "R-000111"] |}
             (lit "R-000111") []); try reflexivity.
  - apply not_elem_of_empty.
  - by_compute.
Defined.

(** X16. When iTop answers 200 but the answer carries no object, the
    handler fails (AttributeError for a null [objects], IndexError for an
    empty one) after the creation request: the thread stays in the file and
    no reply is posted. *)
Theorem answer_without_object_fails
    (iter : gset str -> list str) (db : list user_row) (E : env)
    (event : mention_event) (file : option str) (response : http_response) :
  let t := thread_of event in
  let content :=
    saved_content iter (load_ticketed_threads_from file ∪ {[ t ]}) in
  let data := ticket_fields db event (concat (Py.split (lit ".") t)) in
  let tr := [Ack; WriteTracker content; ItopCreate data] in
  t ∉ load_ticketed_threads_from file -> t <> [] ->
  on_requests_post E tr = Ok response ->
  status_code response = 200 ->
  (response_objects response = None ->
   run (raise_ticket iter db E event) file
   = (Raise AttributeError, world_of (Some content) tr)) /\
  (response_objects response = Some [] ->
   run (raise_ticket iter db E event) file
   = (Raise IndexError, world_of (Some content) tr)).
Proof.
  intros t content data tr Hout Hne Hanswer Hstatus.
  unfold run. rewrite raise_ticket_untracked by assumption. simpl.
  fold t content data. fold tr. rewrite Hanswer, Hstatus.
  split; intros ->; reflexivity.
Qed.

Lemma answer_without_object_fails_witness :
  (run (raise_ticket elements sample_db
          {| on_chat_postMessage := fun _ => Ok tt;
             on_reactions_get := fun _ => Ok None;
             on_reactions_add := fun _ => Ok tt;
             on_reactions_remove := fun _ => Ok tt;
             on_conversations_history := fun _ => Ok [];
             on_conversations_open := fun _ => Ok [];
             on_conversations_replies := fun _ => Ok [];
             on_requests_post := fun _ =>
               Ok {| status_code := 200; response_text := [];
                     response_objects := Some [] |} |}
          sample_mention) None).1
  = Raise IndexError.
Proof.
  edestruct (answer_without_object_fails elements sample_db
               {| on_chat_postMessage := fun _ => Ok tt;
                  on_reactions_get := fun _ => Ok None;
                  on_reactions_add := fun _ => Ok tt;
                  on_reactions_remove := fun _ => Ok tt;
                  on_conversations_history := fun _ => Ok [];
                  on_conversations_open := fun _ => Ok [];
                  on_conversations_replies := fun _ => Ok [];
                  on_requests_post := fun _ =>
                    Ok {| status_code := 200; response_text := [];
                          response_objects := Some [] |} |}
               sample_mention None) as [_ Hempty].
  - apply not_elem_of_empty.
  - by_compute.
  - reflexivity.
  - reflexivity.
  - rewrite Hempty; reflexivity.
Defined.

(** ** The resolve path, step by step *)

Lemma ticket_resolved_run E data file text addr ch messages user_id :
  Py.index (blocks data) 0 = Some text ->
  slack_address_of (link_of text) = Some addr ->
  channel_id_of (link_of text) = Some ch ->
  let ticket := ticket_number_of text in
  let tr1 := [PrintData data; Print ticket; ConversationsHistory ch addr] in
  on_conversations_history E tr1 = Ok messages ->
  last_user None messages = Ok user_id ->
  run (ticket_resolved E data) file =
  let tr2 := tr1 ++ [ReactionsAdd (lit "white_check_mark") ch addr] in
  match on_reactions_add E tr2 with
  | Raise e => (Raise e, world_of file tr2)
  | Ok _ =>
      let tr3 := tr2 ++ [ReactionsRemove (lit "eyes") ch addr] in
      match on_reactions_remove E tr3 with
      | Raise e => (Raise e, world_of file tr3)
      | Ok _ =>
          match user_id with
          | None => (Raise UnboundLocalError, world_of file tr3)
          | Some u =>
              let tr4 :=
                tr3 ++ [ChatPostMessage ch (resolved_reply u) (Some addr)] in
              match on_chat_postMessage E tr4 with
              | Raise e => (Raise e, world_of file tr4)
              | Ok _ =>
                  match file with
                  | None => (Raise FileNotFoundError, world_of None tr4)
                  | Some content =>
                      let content' :=
                        concat (kept_lines addr (readlines content)) in
                      let tr6 := tr4 ++ [WriteTracker content';
                                         ConversationsReplies ch addr] in
                      match on_conversations_replies E tr6 with
                      | Raise e => (Raise e, world_of (Some content') tr6)
                      | Ok conversation =>
                          match send_conversation_to_itop E conversation
                                  ticket (world_of (Some content') tr6) with
                          | (Ok _, w) => (Ok 200, w)
                          | (Raise e, w) => (Raise e, w)
                          end
                      end
                  end
              end
          end
      end
  end.
Proof.
  intros Htext Haddr Hch ticket tr1 Hhist Huser.
  subst tr1 ticket. simpl in Hhist.
  unfold run, ticket_resolved. unfold_handler.
  rewrite Htext. simpl. rewrite Haddr. simpl. rewrite Hch. simpl.
  rewrite Hhist. simpl. rewrite Huser. simpl.
  destruct (on_reactions_add E _) as [[]|e]; [|reflexivity]. simpl.
  destruct (on_reactions_remove E _) as [[]|e]; [|reflexivity]. simpl.
  destruct user_id as [u|]; [|reflexivity]. simpl.
  destruct (on_chat_postMessage E _) as [[]|e]; [|reflexivity]. simpl.
  destruct file as [content|]; [|reflexivity]. simpl.
  destruct (on_conversations_replies E _) as [conversation|e]; [|reflexivity].
  unfold world_of.
  destruct (send_conversation_to_itop E conversation _ _) as [[[]|e] w];
    reflexivity.
Qed.

(** ** Forwarding the conversation *)

Lemma texts_to_forward_skip first message output :
  eligible message = false ->
  texts_to_forward first (message :: output) = texts_to_forward first output.
Proof. intros He. unfold texts_to_forward. simpl. now rewrite He. Qed.

Lemma texts_to_forward_first message output :
  eligible message = true ->
  texts_to_forward true (message :: output) = texts_to_forward false output.
Proof. intros He. unfold texts_to_forward. simpl. now rewrite He. Qed.

Lemma texts_to_forward_next message output :
  eligible message = true ->
  texts_to_forward false (message :: output)
  = text_of message :: texts_to_forward false output.
Proof. intros He. unfold texts_to_forward. simpl. now rewrite He. Qed.

Lemma send_messages_all_200 E first output ticket w :
  always_200 E ->
  send_messages E first output ticket w
  = (Ok tt,
     world_of (tracker_file w)
       (trace w ++ forwarding ticket (texts_to_forward first output))).
Proof.
  intros H200. revert first w.
  induction output as [|message rest IH]; intros first w.
  - destruct w. unfold world_of, texts_to_forward. simpl.
    destruct first; simpl; now rewrite app_nil_r.
  - cbn [send_messages]. fold (eligible message).
    destruct (eligible message) eqn:He.
    + destruct first.
      * rewrite IH, texts_to_forward_first by exact He. reflexivity.
      * rewrite texts_to_forward_next by exact He.
        unfold_handler. fold (text_of message).
        destruct (H200 (trace w ++ [ItopUpdate ticket (text_of message)]))
          as (response & -> & ->).
        simpl. rewrite IH. simpl. unfold world_of.
        now rewrite <- !app_assoc.
    + rewrite IH, texts_to_forward_skip by exact He. reflexivity.
Qed.

Lemma send_messages_shape E first output ticket w :
  exists k tail,
    trace (send_messages E first output ticket w).2
    = trace w ++ forwarding ticket (take k (texts_to_forward first output))
      ++ tail /\
    tracker_file (send_messages E first output ticket w).2 = tracker_file w /\
    ((tail = [] /\ k = length (texts_to_forward first output) /\
      (send_messages E first output ticket w).1 = Ok tt) \/
     (exists t,
         texts_to_forward first output !! k = Some t /\
         ((exists msg, tail = [ItopUpdate ticket t; LogError msg] /\
                       (send_messages E first output ticket w).1 = Ok tt) \/
          (exists e, tail = [ItopUpdate ticket t] /\
                     (send_messages E first output ticket w).1 = Raise e)))).
Proof.
  revert first w. induction output as [|message rest IH]; intros first w.
  - exists 0%nat, []. simpl. rewrite app_nil_r.
    split; [reflexivity|]. split; [reflexivity|]. left.
    unfold texts_to_forward. destruct first; now simpl.
  - cbn [send_messages]. fold (eligible message).
    destruct (eligible message) eqn:He.
    + destruct first.
      * rewrite texts_to_forward_first by exact He. apply IH.
      * rewrite texts_to_forward_next by exact He.
        unfold_handler. fold (text_of message).
        destruct (on_requests_post E _) as [response|e].
        -- destruct (negb (status_code response =? 200)).
           ++ exists 0%nat. eexists. simpl.
              split; [rewrite <- app_assoc; reflexivity|].
              split; [reflexivity|]. right. exists (text_of message).
              split; [reflexivity|]. left. eauto.
           ++ simpl.
              destruct (IH false
                          {| tracker_file := tracker_file w;
                             trace := (trace w
                                       ++ [ItopUpdate ticket (text_of message)])
                                      ++ [LogInfo (lit "Successfully sent conversation to iTop")] |})
                as (k & tl & Htrace & Hfile & Hcases).
              exists (S k), tl. simpl in Htrace, Hfile.
              split; [rewrite Htrace; simpl; now rewrite <- !app_assoc|].
              split; [exact Hfile|].
              destruct Hcases as [(-> & -> & Hok)|(t & Ht & Hcases)].
              ** left. now repeat split.
              ** right. exists t. split; [exact Ht | exact Hcases].
        -- exists 0%nat. eexists. simpl.
           split; [reflexivity|]. split; [reflexivity|].
           right. exists (text_of message). split; [reflexivity|].
           right. eauto.
    + rewrite texts_to_forward_skip by exact He. apply IH.
Qed.

Lemma texts_to_forward_eligible first output t :
  t ∈ texts_to_forward first output ->
  exists m, m ∈ output /\ eligible m = true /\ text_of m = t.
Proof.
  unfold texts_to_forward. intros Ht.
  apply list_elem_of_In, in_map_iff in Ht as (m & <- & Hm).
  assert (Hin : In m (List.filter eligible output)).
  { destruct first; [|exact Hm].
    destruct (List.filter eligible output); [destruct Hm | now right]. }
  apply filter_In in Hin as [Hin He].
  exists m. split; [now apply list_elem_of_In | now split].
Qed.

Lemma always_200_answering name msgs : always_200 (answering 200 name msgs).
Proof. intros tr. eexists. split; reflexivity. Qed.

(** X17. When iTop answers 200 to every update, the whole conversation is
    forwarded: one update, followed by its log line, for each message that
    has a user and a text and is not from a bot, in order, except the first
    of these (the original post). *)
Theorem conversation_is_forwarded
    (E : env) (conversation : list message) (ticket : str) (w : world) :
  always_200 E ->
  send_conversation_to_itop E conversation ticket w
  = (Ok tt,
     world_of (tracker_file w)
       (trace w ++ forwarding ticket (texts_to_forward true conversation))).
Proof. apply send_messages_all_200. Qed.

Lemma conversation_is_forwarded_witness :
  trace
    (send_conversation_to_itop (answering 200 [] [])
       [first_post;
        {| m_user := None; m_text := Some (lit "joined"); m_bot_id := None |};
        {| m_user := Some (lit "U7"); m_text := Some (lit "looking");
           m_bot_id := None |};
        {| m_user := Some (lit "B1"); m_text := Some (lit "bot says");
           m_bot_id := Some (lit "B1") |};
        {| m_user := Some (lit "U42"); m_text := Some (lit "thanks");
           m_bot_id := None |}]
       (lit "R-000111") (world_of None [])).2
  = forwarding (lit "R-000111") [lit "looking"; lit "thanks"].
Proof.
  rewrite (conversation_is_forwarded (answering 200 [] [])).
  - reflexivity.
  - apply always_200_answering.
Defined.

(** X18. Whatever iTop answers, what is forwarded is a beginning of that
    list, each update carrying the ticket number; forwarding ends with the
    list, or at the first update that is answered with another status (logged
    as an error, the function still returning) or that raises.  Only texts
    of eligible messages are ever forwarded, and the tracker file is not
    touched. *)
Theorem forwarding_stops_at_first_failure
    (E : env) (conversation : list message) (ticket : str) (w : world) :
  let texts := texts_to_forward true conversation in
  let r := send_conversation_to_itop E conversation ticket w in
  (forall t, t ∈ texts ->
             exists m, m ∈ conversation /\ eligible m = true /\ text_of m = t) /\
  exists k tail,
    trace r.2 = trace w ++ forwarding ticket (take k texts) ++ tail /\
    tracker_file r.2 = tracker_file w /\
    ((tail = [] /\ k = length texts /\ r.1 = Ok tt) \/
     (exists t,
         texts !! k = Some t /\
         ((exists msg, tail = [ItopUpdate ticket t; LogError msg] /\
                       r.1 = Ok tt) \/
          (exists e, tail = [ItopUpdate ticket t] /\ r.1 = Raise e)))).
Proof.
  intros texts r. split.
  - apply texts_to_forward_eligible.
  - apply send_messages_shape.
Qed.

Lemma send_messages_returns E first output ticket w :
  always_answers E -> (send_messages E first output ticket w).1 = Ok tt.
Proof.
  intros Hanswers. revert first w.
  induction output as [|message rest IH]; intros first w; [reflexivity|].
  cbn [send_messages].
  destruct (truthy (m_user message) && truthy (m_text message)
            && negb (truthy (m_bot_id message))); [|apply IH].
  destruct first; [apply IH|]. unfold_handler.
  destruct (Hanswers (trace w ++ [ItopUpdate ticket (default [] (m_text message))]))
    as [response ->].
  destruct (negb (status_code response =? 200)); [reflexivity|].
  simpl. apply IH.
Qed.

(** X19. When one of the two reaction calls of the resolve path fails (as
    removing "eyes" does on a thread that never got it), the handler fails
    with that error at once: no reply is posted, the tracker file is not
    rewritten, so the thread stays tracked, and nothing is sent to iTop. *)
Theorem failed_reaction_leaves_thread_tracked
    (E : env) (data : webhook) (file : option str)
    (text addr ch : str) (messages : list message) (user_id : option str)
    (e : exn) :
  Py.index (blocks data) 0 = Some text ->
  slack_address_of (link_of text) = Some addr ->
  channel_id_of (link_of text) = Some ch ->
  let tr1 := [PrintData data; Print (ticket_number_of text);
              ConversationsHistory ch addr] in
  let tr2 := tr1 ++ [ReactionsAdd (lit "white_check_mark") ch addr] in
  let tr3 := tr2 ++ [ReactionsRemove (lit "eyes") ch addr] in
  on_conversations_history E tr1 = Ok messages ->
  last_user None messages = Ok user_id ->
  (on_reactions_add E tr2 = Raise e ->
   run (ticket_resolved E data) file = (Raise e, world_of file tr2)) /\
  (on_reactions_add E tr2 = Ok tt ->
   on_reactions_remove E tr3 = Raise e ->
   run (ticket_resolved E data) file = (Raise e, world_of file tr3)).
Proof.
  intros Htext Haddr Hch tr1 tr2 tr3 Hhist Huser.
  rewrite (ticket_resolved_run E data file text addr ch messages user_id
             Htext Haddr Hch Hhist Huser).
  cbv zeta. fold tr1. fold tr2. fold tr3.
  split.
  - intros ->. reflexivity.
  - intros -> ->. reflexivity.
Qed.

Lemma failed_reaction_leaves_thread_tracked_witness :
  tracker_file
    (run (ticket_resolved
            {| on_chat_postMessage := fun _ => Ok tt;
               on_reactions_get := fun _ => Ok None;
               on_reactions_add := fun _ => Ok tt;
               on_reactions_remove := fun _ => Raise SlackApiError;
               on_conversations_history := fun _ => Ok [first_post];
               on_conversations_open := fun _ => Ok [];
               on_conversations_replies := fun _ => Ok [];
               on_requests_post := fun _ => Raise RequestException |}
            sample_assignment)
       (Some (lit "1699999999.123456" ++ [Py.LF]))).2
  = Some (lit "1699999999.123456" ++ [Py.LF]).
Proof.
  destruct (failed_reaction_leaves_thread_tracked
               {| on_chat_postMessage := fun _ => Ok tt;
                  on_reactions_get := fun _ => Ok None;
                  on_reactions_add := fun _ => Ok tt;
                  on_reactions_remove := fun _ => Raise SlackApiError;
                  on_conversations_history := fun _ => Ok [first_post];
                  on_conversations_open := fun _ => Ok [];
                  on_conversations_replies := fun _ => Ok [];
                  on_requests_post := fun _ => Raise RequestException |}
               sample_assignment
               (Some (lit "1699999999.123456" ++ [Py.LF]))
               (lit "Ticket R-000111 was assigned." ++ [Py.LF]
                ++ lit "Assigned to: Jane Doe" ++ [Py.LF]
                ++ lit "Link to Slack: https://x.slack.com/archives/C1/p1699999999123456")
               (lit "1699999999.123456") (lit "C1") [first_post]
               (Some (lit "U42")) SlackApiError
               eq_refl eq_refl eq_refl eq_refl eq_refl) as [_ Hremove].
  rewrite (Hremove eq_refl eq_refl). reflexivity.
Defined.

(** X20. When the tracker file does not exist, the resolve handler has
    already changed the reactions and posted its reply when it fails with
    FileNotFoundError; it creates no file and forwards nothing. *)
Theorem resolve_without_file_fails_after_reply
    (E : env) (data : webhook)
    (text addr ch : str) (messages : list message) (u : str) :
  Py.index (blocks data) 0 = Some text ->
  slack_address_of (link_of text) = Some addr ->
  channel_id_of (link_of text) = Some ch ->
  let tr4 := [PrintData data; Print (ticket_number_of text);
              ConversationsHistory ch addr;
              ReactionsAdd (lit "white_check_mark") ch addr;
              ReactionsRemove (lit "eyes") ch addr;
              ChatPostMessage ch (resolved_reply u) (Some addr)] in
  on_conversations_history E (take 3 tr4) = Ok messages ->
  last_user None messages = Ok (Some u) ->
  on_reactions_add E (take 4 tr4) = Ok tt ->
  on_reactions_remove E (take 5 tr4) = Ok tt ->
  on_chat_postMessage E tr4 = Ok tt ->
  run (ticket_resolved E data) None
  = (Raise FileNotFoundError, world_of None tr4).
Proof.
  intros Htext Haddr Hch tr4 Hhist Huser Hadd Hremove Hpost.
  subst tr4. simpl in Hhist, Hadd, Hremove, Hpost.
  rewrite (ticket_resolved_run E data None text addr ch messages (Some u)
             Htext Haddr Hch Hhist Huser).
  simpl. rewrite Hadd, Hremove, Hpost. reflexivity.
Qed.

Lemma resolve_without_file_fails_after_reply_witness :
  (run (ticket_resolved (answering 200 [] [first_post]) sample_assignment)
     None).1
  = Raise FileNotFoundError.
Proof.
  rewrite (resolve_without_file_fails_after_reply
             (answering 200 [] [first_post]) sample_assignment
             (lit "Ticket R-000111 was assigned." ++ [Py.LF]
              ++ lit "Assigned to: Jane Doe" ++ [Py.LF]
              ++ lit "Link to Slack: https://x.slack.com/archives/C1/p1699999999123456")
             (lit "1699999999.123456") (lit "C1") [first_post] (lit "U42"));
    reflexivity.
Defined.

(** X21. When the Slack calls succeed, the tracker file exists and iTop
    answers every update, with whatever status, the resolve handler answers
    200 and leaves the file as [markClosed] gives it: an update that iTop
    refuses does not make the webhook fail. *)
Theorem resolve_answers_200
    (E : env) (data : webhook) (content : str)
    (text addr ch : str) (messages : list message) (u : str) :
  Py.index (blocks data) 0 = Some text ->
  slack_address_of (link_of text) = Some addr ->
  channel_id_of (link_of text) = Some ch ->
  on_conversations_history E
    [PrintData data; Print (ticket_number_of text);
     ConversationsHistory ch addr] = Ok messages ->
  last_user None messages = Ok (Some u) ->
  slack_succeeds E -> always_answers E ->
  (run (ticket_resolved E data) (Some content)).1 = Ok 200 /\
  tracker_file (run (ticket_resolved E data) (Some content)).2
  = markClosed addr (Some content).
Proof.
  intros Htext Haddr Hch Hhist Huser (Hadd & Hremove & Hpost & Hreplies)
    Hanswers.
  rewrite (ticket_resolved_run E data (Some content) text addr ch messages
             (Some u) Htext Haddr Hch Hhist Huser).
  cbv zeta. rewrite Hadd, Hremove, Hpost.
  match goal with
  | |- context [on_conversations_replies E ?tr] =>
      destruct (Hreplies tr) as [conversation ->]
  end.
  unfold send_conversation_to_itop.
  match goal with
  | |- context [send_messages E true conversation ?tk ?w] =>
      pose proof (send_messages_returns E true conversation tk w Hanswers)
        as Hok;
      pose proof (keeps_file_send_messages E true conversation tk w) as Hfile;
      destruct (send_messages E true conversation tk w) as [[[]|e] w']
  end; simpl in *; [|discriminate].
  split; [reflexivity | exact Hfile].
Qed.

Lemma slack_succeeds_answering status name msgs :
  slack_succeeds (answering status name msgs).
Proof. repeat split; intros tr; eauto. Qed.

Lemma always_answers_answering status name msgs :
  always_answers (answering status name msgs).
Proof. intros tr. eexists. reflexivity. Qed.

Lemma resolve_answers_200_witness :
  (run (ticket_resolved (answering 500 [] [first_post; first_post])
          sample_assignment)
     (Some (lit "1699999999.123456" ++ [Py.LF]))).1
  = Ok 200.
Proof.
  apply (resolve_answers_200 (answering 500 [] [first_post; first_post])
           sample_assignment (lit "1699999999.123456" ++ [Py.LF])
           (lit "Ticket R-000111 was assigned." ++ [Py.LF]
            ++ lit "Assigned to: Jane Doe" ++ [Py.LF]
            ++ lit "Link to Slack: https://x.slack.com/archives/C1/p1699999999123456")
           (lit "1699999999.123456") (lit "C1") [first_post; first_post]
           (lit "U42")); try reflexivity.
  - apply slack_succeeds_answering.
  - apply always_answers_answering.
Defined.

(** ** From the back-link of a ticket to its thread *)

Lemma digit_not_dot c : is_digit c = true -> c <> "."%char.
Proof.
  destruct c as [[] [] [] [] [] [] [] []]; vm_compute; congruence.
Qed.

Lemma digits_no_dot s :
  Forall (fun c => is_digit c = true) s -> "."%char ∉ s.
Proof.
  intros Hs Hin. apply (proj1 (Forall_forall _ _) Hs) in Hin.
  exact (digit_not_dot _ Hin eq_refl).
Qed.

Lemma timestamp_without_dot secs micros :
  slack_timestamp secs micros ->
  concat (Py.split (lit ".") (secs ++ lit "." ++ micros)) = secs ++ micros.
Proof.
  intros (_ & Hsecs & Hmicros).
  change (lit ".") with ["."%char].
  change (secs ++ ["."%char] ++ micros) with (secs ++ "."%char :: micros).
  rewrite split_char_app, !split_char_none by now apply digits_no_dot.
  simpl. now rewrite app_nil_r.
Qed.

Lemma slack_address_of_fields db event fixed :
  slack_address (ticket_fields db event fixed)
  = lit "https://xxx.slack.com/archives/" ++ ev_channel event ++ lit "/p"
    ++ fixed.
Proof.
  unfold ticket_fields.
  now destruct (get_user_info_from_db db (ev_user event)).
Qed.

Lemma no_slash_p_before_channel channel :
  linkable_channel channel ->
  ~ infix (lit "/p")
      (lit "Link to Slack:" ++ lit " https://xxx.slack.com"
       ++ lit "/archives/" ++ channel).
Proof.
  intros [Hchars Hhead] (a & b & Hab).
  assert (Hslash : "/"%char ∉ channel).
  { intros Hin. apply (proj1 (Forall_forall _ _) Hchars) in Hin.
    now destruct Hin. }
  change (lit "Link to Slack:" ++ lit " https://xxx.slack.com"
          ++ lit "/archives/" ++ channel)
    with (lit "Link to Slack: https://xxx.slack.com/archives/" ++ channel)
    in Hab.
  apply app_eq_inv in Hab as [(k & Hk & Hb)|(k & Ha & Hk)].
  - destruct k as [|x [|y k]].
    + simpl in Hb. apply Hslash. rewrite <- Hb.
      apply elem_of_cons. now left.
    + change (lit "/p" ++ b) with ("/"%char :: "p"%char :: b) in Hb.
      simpl in Hb. injection Hb as <- Hb.
      apply Hhead. rewrite <- Hb. reflexivity.
    + change (lit "/p" ++ b) with ("/"%char :: "p"%char :: b) in Hb.
      simpl in Hb. injection Hb as <- <- _.
      assert (Hin : infix (lit "/p")
                      (lit "Link to Slack: https://xxx.slack.com/archives/")).
      { exists a, k. exact Hk. }
      apply contains_true in Hin. vm_compute in Hin. discriminate.
  - apply Hslash. rewrite Hk. apply elem_of_app. right.
    apply elem_of_cons. now left.
Qed.

Lemma digit_or_dot_token secs micros :
  slack_timestamp secs micros -> stored_token (secs ++ lit "." ++ micros).
Proof.
  intros (_ & Hsecs & Hmicros).
  assert (Hall : Forall (fun c => Py.isspace c = false)
                   (secs ++ lit "." ++ micros)).
  { apply Forall_app. split; [|apply Forall_app; split].
    - eapply Forall_impl; [exact Hsecs | apply digit_not_space].
    - repeat constructor.
    - eapply Forall_impl; [exact Hmicros | apply digit_not_space]. }
  assert (Hne : secs ++ lit "." ++ micros <> []).
  { intros He. apply (f_equal length) in He.
    rewrite !length_app in He. simpl in He. lia. }
  repeat split.
  - intros Hin. apply (proj1 (Forall_forall _ _) Hall) in Hin. discriminate.
  - intros Hin. apply (proj1 (Forall_forall _ _) Hall) in Hin. discriminate.
  - exact (rstrip_by_tail Py.isspace [] _ Hne Hall).
Qed.

Lemma back_link_parses db event pre ws secs micros :
  let ts := secs ++ lit "." ++ micros in
  let address :=
    slack_address
      (ticket_fields db event (concat (Py.split (lit ".") ts))) in
  let text := pre ++ (lit "Link to Slack: " ++ address) ++ ws in
  slack_timestamp secs micros ->
  linkable_channel (ev_channel event) ->
  first_at (lit "Link to Slack:") text (length pre) ->
  Forall (fun c => Py.isspace c = true) ws ->
  slack_address_of (link_of text) = Some ts /\
  channel_id_of (link_of text) = Some (ev_channel event).
Proof.
  intros ts address text Hts Hchannel Hfirst Hws.
  assert (Htext :
    text = pre ++ ((lit "Link to Slack:" ++ lit " https://xxx.slack.com"
                    ++ lit "/archives/" ++ ev_channel event)
                   ++ lit "/p" ++ (secs ++ micros)) ++ ws).
  { subst text address ts.
    rewrite slack_address_of_fields, timestamp_without_dot by exact Hts.
    rewrite <- !app_assoc. reflexivity. }
  assert (Hdigits : Forall (fun c => is_digit c = true) (secs ++ micros)).
  { destruct Hts as (_ & Hsecs & Hmicros). apply Forall_app. now split. }
  rewrite Htext in *.
  rewrite link_of_text by (assumption || apply Hchannel).
  split.
  - rewrite slack_address_of_address;
      [|now apply no_slash_p_before_channel|exact Hdigits].
    destruct Hts as (Hlen & _ & _).
    rewrite take_app_length', drop_app_length' by (symmetry; exact Hlen).
    reflexivity.
  - apply channel_id_of_address; [apply Hchannel | exact Hdigits].
Qed.

(** X22. The back-link that the create path stores in the ticket leads back
    to the thread: for a Slack timestamp (ten digits, a point, digits) and a
    channel identifier without white space or slash that does not start
    with "p", a webhook text that ends with "Link to Slack: " and that
    address is read by the handlers as the same channel and the same
    thread token. *)
Theorem back_link_round_trip
    (db : list user_row) (event : mention_event) (pre ws secs micros : str) :
  let ts := secs ++ lit "." ++ micros in
  let address :=
    slack_address
      (ticket_fields db event (concat (Py.split (lit ".") ts))) in
  let text := pre ++ (lit "Link to Slack: " ++ address) ++ ws in
  slack_timestamp secs micros ->
  linkable_channel (ev_channel event) ->
  first_at (lit "Link to Slack:") text (length pre) ->
  Forall (fun c => Py.isspace c = true) ws ->
  slack_address_of (link_of text) = Some ts /\
  channel_id_of (link_of text) = Some (ev_channel event).
Proof. apply back_link_parses. Qed.

Lemma back_link_round_trip_witness :
  let address :=
    slack_address
      (ticket_fields sample_db sample_mention
         (concat (Py.split (lit ".")
                    (lit "1699999999" ++ lit "." ++ lit "123456")))) in
  let text :=
    (lit "Ticket R-000111 was resolved." ++ [Py.LF])
    ++ (lit "Link to Slack: " ++ address) ++ [Py.LF] in
  slack_address_of (link_of text)
  = Some (lit "1699999999" ++ lit "." ++ lit "123456") /\
  channel_id_of (link_of text) = Some (ev_channel sample_mention).
Proof.
  apply (back_link_round_trip sample_db sample_mention
           (lit "Ticket R-000111 was resolved." ++ [Py.LF]) [Py.LF]
           (lit "1699999999") (lit "123456")).
  - repeat split; by_compute.
  - split; by_compute.
  - apply first_at_find_nat. vm_compute. reflexivity.
  - by_compute.
Defined.

(** ** A ticket created and then resolved *)

Lemma raise_ticket_creates iter db E event file :
  thread_of event ∉ load_ticketed_threads_from file ->
  thread_of event <> [] ->
  ItopCreate
    (ticket_fields db event (concat (Py.split (lit ".") (thread_of event))))
  ∈ trace (run (raise_ticket iter db E event) file).2.
Proof.
  intros Hout Hne. unfold run.
  rewrite raise_ticket_untracked by assumption. cbv zeta.
  cbn [trace app].
  destruct (on_requests_post E _) as [response|e];
    [|cbn; rewrite !elem_of_cons; auto].
  destruct (negb (status_code response =? 200));
    [cbn; rewrite !elem_of_cons; auto|].
  destruct (response_objects response) as [objects|];
    [|cbn; rewrite !elem_of_cons; auto].
  destruct (Py.index objects 0); cbn; rewrite !elem_of_cons; auto.
Qed.

Lemma created_then_resolved_file iter db E1 E2 event data file
    pre ws secs micros messages u x :
  let ts := secs ++ lit "." ++ micros in
  let address :=
    slack_address
      (ticket_fields db event (concat (Py.split (lit ".") ts))) in
  let text := pre ++ (lit "Link to Slack: " ++ address) ++ ws in
  let created := (run (raise_ticket iter db E1 event) file).2 in
  let resolved :=
    (run (ticket_resolved E2 data) (tracker_file created)).2 in
  iterates iter ->
  thread_of event = ts ->
  slack_timestamp secs micros ->
  linkable_channel (ev_channel event) ->
  ts ∉ load_ticketed_threads_from file ->
  Py.index (blocks data) 0 = Some text ->
  first_at (lit "Link to Slack:") text (length pre) ->
  Forall (fun c => Py.isspace c = true) ws ->
  on_conversations_history E2
    [PrintData data; Print (ticket_number_of text);
     ConversationsHistory (ev_channel event) ts] = Ok messages ->
  last_user None messages = Ok (Some u) ->
  slack_succeeds E2 ->
  ItopCreate (ticket_fields db event (concat (Py.split (lit ".") ts)))
    ∈ trace created /\
  (x ∈ load_ticketed_threads_from (tracker_file resolved)
   <-> x ∈ load_ticketed_threads_from file /\ ~ infix ts x).
Proof.
  intros ts address text created resolved Hiter Hthread Hts Hchannel Hout
    Htext Hfirst Hws Hhist Huser (Hadd & Hremove & Hpost & _).
  pose proof (digit_or_dot_token secs micros Hts) as Htoken.
  fold ts in Htoken.
  assert (Hne : ts <> []).
  { intros He. apply (f_equal length) in He. subst ts.
    rewrite !length_app in He. simpl in He. lia. }
  destruct (back_link_parses db event pre ws secs micros Hts Hchannel
              Hfirst Hws) as [Haddr Hch].
  fold ts in Haddr. fold address in Haddr, Hch. fold text in Haddr, Hch.
  split.
  - subst created. rewrite <- Hthread.
    apply raise_ticket_creates; rewrite Hthread; assumption.
  - subst resolved.
    rewrite (ticket_resolved_file E2 data (tracker_file created) text ts
               (ev_channel event) messages u Htext Haddr Hch Hhist Huser
               (Hadd _) (Hremove _) (Hpost _)).
    subst created. unfold run. rewrite raise_ticket_file. cbn [tracker_file].
    rewrite Hthread. rewrite bool_decide_eq_false_2 by exact Hout.
    unfold markOpen.
    rewrite (load_markClosed_saved iter).
    + rewrite elem_of_union, elem_of_singleton. split.
      * intros [[Hx| ->] Hno]; [now split|].
        exfalso. apply Hno. exists [], []. now rewrite app_nil_r.
      * intros [Hx Hno]. split; [now left | exact Hno].
    + exact Hiter.
    + intros y Hy. apply elem_of_union in Hy as [Hy|Hy].
      * exact (load_stored_token file y Hy).
      * now apply elem_of_singleton in Hy as ->.
    + apply Htoken.
Qed.

(** X23. A ticket created and then resolved.  A mention on a thread that is
    not tracked, its token a Slack timestamp, sends iTop a creation request
    whose back-link names the thread; when the resolve webhook later carries
    that back-link and the Slack calls succeed, the threads tracked
    afterwards are exactly those tracked before the mention in whose token
    the timestamp does not occur: the thread itself is no longer tracked,
    whatever iTop answered to the creation. *)
Theorem created_then_resolved
    (iter : gset str -> list str) (db : list user_row) (E1 E2 : env)
    (event : mention_event) (data : webhook) (file : option str)
    (pre ws secs micros : str) (messages : list message) (u x : str) :
  let ts := secs ++ lit "." ++ micros in
  let address :=
    slack_address
      (ticket_fields db event (concat (Py.split (lit ".") ts))) in
  let text := pre ++ (lit "Link to Slack: " ++ address) ++ ws in
  let created := (run (raise_ticket iter db E1 event) file).2 in
  let resolved :=
    (run (ticket_resolved E2 data) (tracker_file created)).2 in
  iterates iter ->
  thread_of event = ts ->
  slack_timestamp secs micros ->
  linkable_channel (ev_channel event) ->
  ts ∉ load_ticketed_threads_from file ->
  Py.index (blocks data) 0 = Some text ->
  first_at (lit "Link to Slack:") text (length pre) ->
  Forall (fun c => Py.isspace c = true) ws ->
  on_conversations_history E2
    [PrintData data; Print (ticket_number_of text);
     ConversationsHistory (ev_channel event) ts] = Ok messages ->
  last_user None messages = Ok (Some u) ->
  slack_succeeds E2 ->
  ItopCreate (ticket_fields db event (concat (Py.split (lit ".") ts)))
    ∈ trace created /\
  (x ∈ load_ticketed_threads_from (tracker_file resolved)
   <-> x ∈ load_ticketed_threads_from file /\ ~ infix ts x).
Proof. apply created_then_resolved_file. Qed.

Lemma created_then_resolved_witness :
  let file := Some (lit "1700000000.000100" ++ [Py.LF]) in
  let created :=
    (run (raise_ticket elements sample_db (answering 500 [] [])
            sample_mention) file).2 in
  let data :=
    {| blocks :=
         [(lit "Ticket R-000111 was resolved." ++ [Py.LF])
          ++ (lit "Link to Slack: "
              ++ slack_address
                   (ticket_fields sample_db sample_mention
                      (concat (Py.split (lit ".")
                                 (lit "1699999999" ++ lit "."
                                  ++ lit "123456")))))
          ++ [Py.LF]] |} in
  let resolved :=
    (run (ticket_resolved (answering 200 [] [first_post]) data)
       (tracker_file created)).2 in
  lit "1700000000.000100"
  ∈ load_ticketed_threads_from (tracker_file resolved).
Proof.
  intros file created data resolved.
  apply (created_then_resolved elements sample_db (answering 500 [] [])
           (answering 200 [] [first_post]) sample_mention data file
           (lit "Ticket R-000111 was resolved." ++ [Py.LF]) [Py.LF]
           (lit "1699999999") (lit "123456") [first_post] (lit "U42")
           (lit "1700000000.000100")).
  - exact iterates_elements.
  - reflexivity.
  - repeat split; by_compute.
  - split; by_compute.
  - by_compute.
  - reflexivity.
  - apply first_at_find_nat. vm_compute. reflexivity.
  - by_compute.
  - reflexivity.
  - reflexivity.
  - apply slack_succeeds_answering.
  - split; [by_compute|].
    intros Hin. apply contains_true in Hin. vm_compute in Hin. discriminate.
Defined.

(** ** The assignee who is a member of the identity store *)

Lemma get_assigned_user_id_known db name :
  (exists row, row ∈ db /\ u_real_name row = name) ->
  exists row,
    row ∈ db /\ u_real_name row = name /\
    get_assigned_user_id db name = Some (u_id row).
Proof.
  intros (row & Hrow & Hname). unfold get_assigned_user_id.
  destruct (List.find _ db) as [r|] eqn:Hfind.
  - apply List.find_some in Hfind as [Hr Hr'].
    exists r. split; [now apply list_elem_of_In|].
    split; [|reflexivity].
    now apply bool_decide_eq_true in Hr'.
  - pose proof (List.find_none _ _ Hfind row
                  (proj1 (list_elem_of_In _ _) Hrow)) as Hno.
    now apply bool_decide_eq_false in Hno.
Qed.

Lemma get_assigned_user_id_row db name id :
  get_assigned_user_id db name = Some id ->
  exists row, row ∈ db /\ u_real_name row = name /\ u_id row = id.
Proof.
  unfold get_assigned_user_id.
  destruct (List.find _ db) as [r|] eqn:Hfind; [|discriminate].
  intros [= <-]. apply List.find_some in Hfind as [Hr Hr'].
  exists r. split; [now apply list_elem_of_In|].
  split; [|reflexivity].
  now apply bool_decide_eq_true in Hr'.
Qed.

Lemma ticket_assigned_known db E data file text addr ch name messages u :
  Py.index (blocks data) 0 = Some text ->
  slack_address_of (link_of text) = Some addr ->
  channel_id_of (link_of text) = Some ch ->
  assigned_person_name_of text = Some name ->
  on_conversations_history E [ConversationsHistory ch addr] = Ok messages ->
  last_user None messages = Ok (Some u) ->
  (exists row, row ∈ db /\ u_real_name row = name) ->
  (forall tr, on_chat_postMessage E tr = Ok tt) ->
  (forall tr, exists dm, on_conversations_open E tr = Ok dm) ->
  let w1 :=
    (ensure_eyes E ch addr (world_of file [ConversationsHistory ch addr])).2 in
  let r := run (ticket_assigned db E data) file in
  exists row dm,
    row ∈ db /\ u_real_name row = name /\
    r.1 = Ok 200 /\
    trace r.2
    = trace w1
      ++ [ChatPostMessage ch (assigned_reply u name) (Some addr);
          ConversationsOpen (Some (u_id row));
          ChatPostMessage dm
            (assignee_notice (Some (u_id row)) (ticket_number_of text)
               (link_of text)) None].
Proof.
  intros Htext Haddr Hch Hname Hhist Huser Hknown Hpost Hopen w1 r.
  destruct (get_assigned_user_id_known db name Hknown)
    as (row & Hrow & Hreal & Hlookup).
  assert (Hrun := ticket_assigned_run db E data file text addr ch name
                    messages u Htext Haddr Hch Hname Hhist Huser).
  rewrite Hlookup in Hrun. cbv zeta in Hrun. fold w1 in Hrun. fold r in Hrun.
  rewrite Hpost in Hrun.
  destruct (Hopen (((trace w1
                     ++ [ChatPostMessage ch (assigned_reply u name)
                           (Some addr)])
                    ++ [ConversationsOpen (Some (u_id row))])))
    as [dm Hdm].
  rewrite Hdm, Hpost in Hrun.
  exists row, dm. rewrite Hrun. cbn [fst snd trace world_of].
  repeat split; try assumption.
  now rewrite <- !app_assoc.
Qed.

(** X24. An identifier that the name lookup returns is that of a member
    whose display name is exactly the name asked for.  When the assignee of
    an assignment webhook is such a member and Slack accepts the posts, the
    handler answers 200, having posted the reply in the thread, opened a
    conversation with a member of that name and posted there the notice
    that mentions this member. *)
Theorem known_assignee_gets_the_notice
    (db : list user_row) (E : env) (data : webhook) (file : option str)
    (text addr ch name : str) (messages : list message) (u : str) :
  Py.index (blocks data) 0 = Some text ->
  slack_address_of (link_of text) = Some addr ->
  channel_id_of (link_of text) = Some ch ->
  assigned_person_name_of text = Some name ->
  on_conversations_history E [ConversationsHistory ch addr] = Ok messages ->
  last_user None messages = Ok (Some u) ->
  (exists row, row ∈ db /\ u_real_name row = name) ->
  (forall tr, on_chat_postMessage E tr = Ok tt) ->
  (forall tr, exists dm, on_conversations_open E tr = Ok dm) ->
  let w1 :=
    (ensure_eyes E ch addr (world_of file [ConversationsHistory ch addr])).2 in
  let r := run (ticket_assigned db E data) file in
  (forall id, get_assigned_user_id db name = Some id ->
     exists row, row ∈ db /\ u_real_name row = name /\ u_id row = id) /\
  exists row dm,
    row ∈ db /\ u_real_name row = name /\
    r.1 = Ok 200 /\
    trace r.2
    = trace w1
      ++ [ChatPostMessage ch (assigned_reply u name) (Some addr);
          ConversationsOpen (Some (u_id row));
          ChatPostMessage dm
            (assignee_notice (Some (u_id row)) (ticket_number_of text)
               (link_of text)) None].
Proof.
  intros Htext Haddr Hch Hname Hhist Huser Hknown Hpost Hopen w1 r.
  split.
  - intros id. apply get_assigned_user_id_row.
  - exact (ticket_assigned_known db E data file text addr ch name messages u
             Htext Haddr Hch Hname Hhist Huser Hknown Hpost Hopen).
Qed.

Lemma known_assignee_gets_the_notice_witness :
  (run (ticket_assigned (sample_row "U9" "Jane Doe" :: sample_db)
          (answering 200 [] [first_post]) sample_assignment) None).1
  = Ok 200.
Proof.
  destruct (known_assignee_gets_the_notice
              (sample_row "U9" "Jane Doe" :: sample_db)
              (answering 200 [] [first_post]) sample_assignment None
              (lit "Ticket R-000111 was assigned." ++ [Py.LF]
               ++ lit "Assigned to: Jane Doe" ++ [Py.LF]
               ++ lit "Link to Slack: https://x.slack.com/archives/C1/p1699999999123456")
              (lit "1699999999.123456") (lit "C1") (lit "Jane Doe")
              [first_post] (lit "U42")
              eq_refl eq_refl eq_refl eq_refl eq_refl eq_refl
              (ex_intro _ (sample_row "U9" "Jane Doe")
                 (conj (list_elem_of_here _ _) eq_refl))
              (fun _ => eq_refl)
              (fun _ => ex_intro _ (lit "D0001") eq_refl))
    as (_ & row & dm & _ & _ & Hok & _).
  exact Hok.
Defined.

(** ** The administration commands *)

Lemma admin_flag_of_rows (user : str) (rows : list user_row) :
  (forall r, r ∈ rows -> u_id r = user -> u_is_admin r = false) ->
  match List.find (Admin.has_id user) rows with
  | Some r => u_is_admin r
  | None => false
  end = false.
Proof.
  intros Hrows. destruct (List.find _ rows) as [r|] eqn:Hfind; [|reflexivity].
  apply List.find_some in Hfind as [Hr Hid].
  apply Hrows; [now apply list_elem_of_In|].
  now apply bool_decide_eq_true in Hid.
Qed.

Lemma is_user_admin_rows E user rows tr :
  Admin.is_user_admin E user {| Admin.db := Admin.Users rows; Admin.trace := tr |}
  = (Admin.Ok match List.find (Admin.has_id user) rows with
              | Some r => u_is_admin r
              | None => false
              end,
     {| Admin.db := Admin.Users rows; Admin.trace := tr |}).
Proof.
  unfold Admin.is_user_admin.
  unfold mbind, Admin.Cmd_bind, Admin.bind, Admin.read_db,
    Admin.get_db_connection. cbn.
  destruct (List.find _ rows); reflexivity.
Qed.

Lemma store_command_refused E limit fuel body rows :
  (forall r, r ∈ rows -> u_id r = Admin.user_id body ->
             u_is_admin r = false) ->
  Admin.run (Admin.handle_store_user_info E fuel body) (Admin.Users rows)
  = (Admin.Ok tt,
     {| Admin.db := Admin.Users rows;
        Admin.trace :=
          [Admin.Ack None;
           Admin.Ack (Some (lit "You do not have sufficient permissions to run this command."))] |})
  /\ Admin.run (Admin.handle_update_user_info E limit fuel body)
       (Admin.Users rows)
     = (let tr :=
          [Admin.Ack None;
           Admin.ChatPostEphemeral (Admin.channel_id body)
             (Admin.user_id body)
             (lit "You do not have sufficient permissions to run this command.")] in
        (Admin.answered (Admin.on_chat_postEphemeral E tr),
         {| Admin.db := Admin.Users rows; Admin.trace := tr |})).
Proof.
  intros Hrows. pose proof (admin_flag_of_rows _ _ Hrows) as Hflag.
  unfold Admin.run, Admin.handle_store_user_info,
    Admin.handle_update_user_info.
  split.
  - unfold mbind at 1, Admin.Cmd_bind at 1, Admin.bind at 1.
    cbn [Admin.emit Admin.db Admin.trace app].
    unfold mbind at 1, Admin.Cmd_bind at 1, Admin.bind at 1.
    rewrite is_user_admin_rows, Hflag. reflexivity.
  - unfold mbind at 1, Admin.Cmd_bind at 1, Admin.bind at 1.
    cbn [Admin.emit Admin.db Admin.trace app].
    unfold mbind at 1, Admin.Cmd_bind at 1, Admin.bind at 1.
    rewrite is_user_admin_rows, Hflag. reflexivity.
Qed.

(** X25. The command /store-user-info of a requester whom the table does
    not know as an administrator (no row, or a row without the flag) is
    acknowledged and then refused: Slack is not asked for its users, and
    the table is left as it is. *)
Theorem store_command_needs_an_administrator
    (E : Admin.env) (fuel : nat) (body : Admin.command)
    (rows : list user_row) :
  (forall r, r ∈ rows -> u_id r = Admin.user_id body ->
             u_is_admin r = false) ->
  Admin.run (Admin.handle_store_user_info E fuel body) (Admin.Users rows)
  = (Admin.Ok tt,
     {| Admin.db := Admin.Users rows;
        Admin.trace :=
          [Admin.Ack None;
           Admin.Ack (Some (lit "You do not have sufficient permissions to run this command."))] |}).
Proof.
  intros Hrows. exact (proj1 (store_command_refused E 0 fuel body rows Hrows)).
Qed.

Lemma store_command_needs_an_administrator_witness :
  Admin.run
    (Admin.handle_store_user_info (Admin.paging Admin.sample_pages) 5
       Admin.sample_command)
    (Admin.Users [sample_row "U1" "Jane Doe"; sample_row "U7" "John Roe"])
  = (Admin.Ok tt,
     {| Admin.db :=
          Admin.Users [sample_row "U1" "Jane Doe"; sample_row "U7" "John Roe"];
        Admin.trace :=
          [Admin.Ack None;
           Admin.Ack (Some (lit "You do not have sufficient permissions to run this command."))] |}).
Proof.
  apply (store_command_needs_an_administrator
           (Admin.paging Admin.sample_pages) 5 Admin.sample_command
           [sample_row "U1" "Jane Doe"; sample_row "U7" "John Roe"]).
  intros r Hr _.
  apply elem_of_cons in Hr as [->|Hr]; [reflexivity|].
  apply elem_of_cons in Hr as [->|Hr]; [reflexivity|].
  now apply elem_of_nil in Hr.
Defined.

(** X26. The command /update-user-info of such a requester changes
    nothing either: after the acknowledgement the only call is the
    ephemeral message that refuses, whose failure, if any, is the failure
    of the handler; no user is listed and no row is written or deleted. *)
Theorem update_command_needs_an_administrator
    (E : Admin.env) (variable_limit fuel : nat) (body : Admin.command)
    (rows : list user_row) :
  (forall r, r ∈ rows -> u_id r = Admin.user_id body ->
             u_is_admin r = false) ->
  Admin.run (Admin.handle_update_user_info E variable_limit fuel body)
    (Admin.Users rows)
  = (let tr :=
       [Admin.Ack None;
        Admin.ChatPostEphemeral (Admin.channel_id body)
          (Admin.user_id body)
          (lit "You do not have sufficient permissions to run this command.")] in
     (Admin.answered (Admin.on_chat_postEphemeral E tr),
      {| Admin.db := Admin.Users rows; Admin.trace := tr |})).
Proof.
  intros Hrows.
  exact (proj2 (store_command_refused E variable_limit fuel body rows Hrows)).
Qed.

Lemma update_command_needs_an_administrator_witness :
  Admin.db
    (Admin.run
       (Admin.handle_update_user_info (Admin.paging Admin.sample_pages)
          999 5 Admin.sample_command)
       (Admin.Users [sample_row "U7" "John Roe"])).2
  = Admin.Users [sample_row "U7" "John Roe"].
Proof.
  rewrite (update_command_needs_an_administrator
             (Admin.paging Admin.sample_pages) 999 5 Admin.sample_command
             [sample_row "U7" "John Roe"]).
  - reflexivity.
  - intros r Hr Hid.
    apply elem_of_cons in Hr as [->|Hr]; [reflexivity|].
    now apply elem_of_nil in Hr.
Defined.

Lemma commands_without_table E limit fuel body :
  Admin.run (Admin.handle_store_user_info E fuel body) Admin.NoTable
  = (Admin.Raise Admin.OperationalError,
     {| Admin.db := Admin.NoTable; Admin.trace := [Admin.Ack None] |})
  /\ Admin.run (Admin.handle_update_user_info E limit fuel body)
       Admin.NoTable
     = (Admin.Raise Admin.OperationalError,
        {| Admin.db := Admin.NoTable; Admin.trace := [Admin.Ack None] |}).
Proof. split; reflexivity. Qed.

(** X27. A database file without the table [users] locks both commands:
    whoever asks, the check of the requester fails with the error of
    SQLite right after the acknowledgement, so that /store-user-info never
    reaches the statement that would create the table. *)
Theorem missing_table_locks_both_commands
    (E : Admin.env) (variable_limit fuel : nat) (body : Admin.command) :
  Admin.run (Admin.handle_store_user_info E fuel body) Admin.NoTable
  = (Admin.Raise Admin.OperationalError,
     {| Admin.db := Admin.NoTable; Admin.trace := [Admin.Ack None] |})
  /\ Admin.run (Admin.handle_update_user_info E variable_limit fuel body)
       Admin.NoTable
     = (Admin.Raise Admin.OperationalError,
        {| Admin.db := Admin.NoTable; Admin.trace := [Admin.Ack None] |}).
Proof. apply commands_without_table. Qed.

(** *** The pages of [users.list] *)

Lemma users_list_paged E (fuel : nat) cursor users w pages :
  Admin.paged E (Admin.trace w) cursor pages ->
  (length pages <= fuel)%nat ->
  Admin.users_list E fuel cursor users w
  = (Admin.Ok (users ++ concat (map Admin.members pages)),
     {| Admin.db := Admin.db w;
        Admin.trace := Admin.trace w ++ Admin.list_calls cursor pages |}).
Proof.
  intros Hpaged. destruct w as [d tr]. cbn [Admin.trace Admin.db] in *.
  revert fuel users.
  induction Hpaged as [tr cursor page Hpage Hlast
                      |tr cursor page pages Hpage Hmore Hpaged IH];
    intros fuel users Hfuel.
  - destruct fuel as [|fuel]; [simpl in Hfuel; lia|].
    cbn [Admin.users_list].
    unfold mbind, Admin.Cmd_bind, Admin.bind, Admin.call.
    cbn [Admin.trace Admin.db]. rewrite Hpage. cbn [Admin.answered].
    rewrite Hlast. cbn. now rewrite app_nil_r.
  - destruct fuel as [|fuel]; [simpl in Hfuel; lia|].
    cbn [Admin.users_list].
    unfold mbind, Admin.Cmd_bind, Admin.bind, Admin.call.
    cbn [Admin.trace Admin.db]. rewrite Hpage. cbn [Admin.answered].
    rewrite Hmore.
    rewrite (IH fuel (users ++ Admin.members page))
      by (simpl in Hfuel; lia).
    cbn [map concat Admin.list_calls]. now rewrite <- !app_assoc.
Qed.

Lemma users_list_short_of_fuel E (fuel : nat) cursor users w pages :
  Admin.paged E (Admin.trace w) cursor pages ->
  (fuel < length pages)%nat ->
  (Admin.users_list E fuel cursor users w).1 = Admin.OutOfFuel.
Proof.
  intros Hpaged. destruct w as [d tr]. cbn [Admin.trace] in *.
  revert fuel users.
  induction Hpaged as [tr cursor page Hpage Hlast
                      |tr cursor page pages Hpage Hmore Hpaged IH];
    intros fuel users Hfuel.
  - destruct fuel as [|fuel]; [reflexivity | simpl in Hfuel; lia].
  - destruct fuel as [|fuel]; [reflexivity|].
    cbn [Admin.users_list].
    unfold mbind, Admin.Cmd_bind, Admin.bind, Admin.call.
    cbn [Admin.trace Admin.db]. rewrite Hpage. cbn [Admin.answered].
    rewrite Hmore. apply IH. simpl in Hfuel. lia.
Qed.

(** X28. The loop over the pages of the user list gathers the users of
    all the pages in their order: when Slack answers with pages of which
    only the last gives no cursor, the loop calls [users.list] once per
    page, each time with the cursor of the page before, and ends with the
    users listed before followed by those of the pages; it needs as many
    rounds as there are pages, and is still running after fewer. *)
Theorem user_list_is_read_page_by_page
    (E : Admin.env) (fuel : nat) (cursor : option str)
    (users : list Admin.member) (w : Admin.world)
    (pages : list Admin.listing) :
  Admin.paged E (Admin.trace w) cursor pages ->
  ((length pages <= fuel)%nat ->
   Admin.users_list E fuel cursor users w
   = (Admin.Ok (users ++ concat (map Admin.members pages)),
      {| Admin.db := Admin.db w;
         Admin.trace := Admin.trace w ++ Admin.list_calls cursor pages |}))
  /\ ((fuel < length pages)%nat ->
      (Admin.users_list E fuel cursor users w).1 = Admin.OutOfFuel).
Proof.
  intros Hpaged. split.
  - now apply users_list_paged.
  - now apply users_list_short_of_fuel.
Qed.

Lemma paged_sample_pages tr :
  List.filter Admin.is_list_call tr = [] ->
  Admin.paged (Admin.paging Admin.sample_pages) tr None Admin.sample_pages.
Proof.
  intros Htr. unfold Admin.sample_pages.
  apply Admin.paged_more.
  - cbn [Admin.paging Admin.on_users_list].
    rewrite List.filter_app, Htr. reflexivity.
  - reflexivity.
  - apply Admin.paged_last.
    + cbn [Admin.paging Admin.on_users_list Admin.next_cursor].
      rewrite !List.filter_app, Htr. reflexivity.
    + reflexivity.
Qed.

Lemma user_list_is_read_page_by_page_witness :
  (Admin.run (Admin.users_list (Admin.paging Admin.sample_pages) 2 None [])
     Admin.NoFile).1
  = Admin.Ok (concat (map Admin.members Admin.sample_pages)).
Proof.
  unfold Admin.run.
  rewrite (proj1 (user_list_is_read_page_by_page
                    (Admin.paging Admin.sample_pages) 2 None []
                    {| Admin.db := Admin.NoFile; Admin.trace := [] |}
                    Admin.sample_pages
                    (paged_sample_pages [] eq_refl))).
  - reflexivity.
  - simpl. lia.
Defined.

(** *** The rows that the two loops write *)

Lemma insert_or_replace_upsert row rows :
  Admin.insert_or_replace row (Admin.Users rows)
  = Admin.Ok (Admin.Users (Admin.upsert row rows)).
Proof. reflexivity. Qed.

Lemma elem_of_upsert row rows r :
  r ∈ Admin.upsert row rows <-> (r ∈ rows /\ u_id r <> u_id row) \/ r = row.
Proof.
  unfold Admin.upsert. rewrite elem_of_app, list_elem_of_singleton.
  rewrite !list_elem_of_In, filter_In. unfold Admin.has_id.
  rewrite negb_true_iff, bool_decide_eq_false. reflexivity.
Qed.

Lemma upsert_ids row rows :
  map u_id (Admin.upsert row rows)
  = List.filter (fun i => negb (bool_decide (i = u_id row))) (map u_id rows)
    ++ [u_id row].
Proof.
  unfold Admin.upsert. rewrite map_app. f_equal.
  induction rows as [|r rows IH]; [reflexivity|].
  cbn [List.filter map]. unfold Admin.has_id at 1.
  destruct (bool_decide (u_id r = u_id row)); cbn [negb]; [exact IH|].
  cbn [map]. now rewrite IH.
Qed.

Lemma NoDup_filter_bool {A} (f : A -> bool) (l : list A) :
  NoDup l -> NoDup (List.filter f l).
Proof.
  induction 1 as [|x l Hx Hl IH]; cbn [List.filter]; [constructor|].
  destruct (f x); [|exact IH].
  constructor; [|exact IH].
  rewrite list_elem_of_In, filter_In, <- list_elem_of_In. tauto.
Qed.

Lemma upsert_NoDup row rows :
  NoDup (map u_id rows) -> NoDup (map u_id (Admin.upsert row rows)).
Proof.
  intros Hrows. rewrite upsert_ids. apply NoDup_app. split; [|split].
  - now apply NoDup_filter_bool.
  - intros i Hi Hrow. apply list_elem_of_singleton in Hrow as ->.
    apply list_elem_of_In, filter_In in Hi as [_ Hi].
    apply negb_true_iff, bool_decide_eq_false in Hi. now apply Hi.
  - apply NoDup_singleton.
Qed.

Lemma upsert_keeps_ids row rows r :
  r ∈ rows -> exists r', r' ∈ Admin.upsert row rows /\ u_id r' = u_id r.
Proof.
  intros Hr. destruct (decide (u_id r = u_id row)) as [Hid|Hid].
  - exists row. split; [|now symmetry]. apply elem_of_upsert. now right.
  - exists r. split; [|reflexivity]. apply elem_of_upsert. now left.
Qed.

Lemma upsert_length row rows :
  (length (Admin.upsert row rows) <= length rows + 1)%nat.
Proof.
  unfold Admin.upsert. rewrite length_app. simpl.
  pose proof (filter_length_le (fun r => negb (Admin.has_id (u_id row) r)) rows).
  lia.
Qed.

Section Loop.

Variable body : list str -> Admin.database -> Admin.member
                -> Admin.outcome Admin.database.
Variable good : Admin.member -> Prop.

(** What a round of either loop does to the table. *)
Hypothesis body_step : forall active rows m,
  good m ->
  (exists row,
      Admin.mb_is_bot m = Some false /\ Admin.mb_is_app_user m = Some false /\
      Admin.describes m row /\ u_id row ∈ active /\
      body active (Admin.Users rows) m
      = Admin.Ok (Admin.Users (Admin.upsert row rows)))
  \/ (body active (Admin.Users rows) m = Admin.Ok (Admin.Users rows) /\
      forall i, ~ (Admin.mb_is_bot m = Some false /\
                   Admin.mb_is_app_user m = Some false /\
                   Admin.mb_id m = Some i /\ i ∈ active)).

Lemma loop_rows active users rows :
  Forall good users ->
  exists rows',
    Admin.for_each (body active) users (Admin.Users rows)
    = Admin.Ok (Admin.Users rows') /\
    (NoDup (map u_id rows) -> NoDup (map u_id rows')) /\
    (forall r, r ∈ rows -> exists r', r' ∈ rows' /\ u_id r' = u_id r) /\
    (forall m i,
        m ∈ users ->
        Admin.mb_is_bot m = Some false ->
        Admin.mb_is_app_user m = Some false ->
        Admin.mb_id m = Some i -> i ∈ active ->
        exists r', r' ∈ rows' /\ u_id r' = i) /\
    (forall r',
        r' ∈ rows' ->
        (r' ∈ rows /\
         forall m, m ∈ users ->
                   ~ (Admin.mb_is_bot m = Some false /\
                      Admin.mb_is_app_user m = Some false /\
                      Admin.mb_id m = Some (u_id r') /\ u_id r' ∈ active)) \/
        exists m,
          m ∈ users /\ Admin.mb_is_bot m = Some false /\
          Admin.mb_is_app_user m = Some false /\
          u_id r' ∈ active /\ Admin.describes m r') /\
    (length rows' <= length rows + length users)%nat.
Proof.
  intros Hgood. revert rows.
  induction Hgood as [|m users Hm Husers IH]; intros rows.
  - exists rows. split; [reflexivity|].
    split; [tauto|]. split; [eauto|].
    split; [intros m i Hin; now apply elem_of_nil in Hin|].
    split; [|simpl; lia].
    intros r' Hr'. left. split; [exact Hr'|].
    intros m Hin. now apply elem_of_nil in Hin.
  - cbn [Admin.for_each].
    destruct (body_step active rows m Hm)
      as [(row & Hbot & Happ & Hrow & Hact & ->)|[-> Hnot]];
      cbn [mbind Admin.outcome_mbind Admin.outcome_bind].
    + destruct (IH (Admin.upsert row rows))
        as (rows' & Hrun & Hdup & Hkeep & Hin & Hfrom & Hlen).
      exists rows'. split; [exact Hrun|].
      split; [intros H; apply Hdup, upsert_NoDup, H|].
      split.
      { intros r Hr.
        destruct (upsert_keeps_ids row rows r Hr) as (r1 & Hr1 & <-).
        exact (Hkeep r1 Hr1). }
      split.
      { intros m' i Hm' Hbot' Happ' Hid' Hact'.
        apply elem_of_cons in Hm' as [->|Hm']; [|eauto].
        destruct Hrow as (Hid & _). rewrite Hid in Hid'. injection Hid' as <-.
        apply (Hkeep row). apply elem_of_upsert. now right. }
      split.
      { intros r' Hr'.
        destruct (Hfrom r' Hr') as [[Hup Hnone]|(m' & Hm' & Hrest)].
        - apply elem_of_upsert in Hup as [[Hold Hother]| ->].
          + left. split; [exact Hold|].
            intros m' Hm'. apply elem_of_cons in Hm' as [->|Hm'];
              [|now apply Hnone].
            intros (_ & _ & Hid' & _). destruct Hrow as (Hid & _).
            rewrite Hid in Hid'. injection Hid' as Hid'. now apply Hother.
          + right. exists m. split; [apply elem_of_cons; now left|]. tauto.
        - right. exists m'. split; [apply elem_of_cons; now right|]. tauto. }
      pose proof (upsert_length row rows). simpl. lia.
    + destruct (IH rows)
        as (rows' & Hrun & Hdup & Hkeep & Hin & Hfrom & Hlen).
      exists rows'. split; [exact Hrun|].
      split; [exact Hdup|]. split; [exact Hkeep|].
      split.
      { intros m' i Hm' Hbot' Happ' Hid' Hact'.
        apply elem_of_cons in Hm' as [->|Hm']; [|eauto].
        exfalso. apply (Hnot i). tauto. }
      split.
      { intros r' Hr'.
        destruct (Hfrom r' Hr') as [[Hold Hnone]|(m' & Hm' & Hrest)].
        - left. split; [exact Hold|].
          intros m' Hm'. apply elem_of_cons in Hm' as [->|Hm'];
            [apply Hnot | now apply Hnone].
        - right. exists m'. split; [apply elem_of_cons; now right|]. tauto. }
      simpl. lia.
Qed.

(** The rows after the loop, in the words of the listing. *)
Lemma loop_rows_listed users ids rows :
  Forall good users ->
  (forall i, i ∈ ids <-> Admin.active_id users i) ->
  exists rows',
    Admin.for_each (body ids) users (Admin.Users rows)
    = Admin.Ok (Admin.Users rows') /\
    (NoDup (map u_id rows) -> NoDup (map u_id rows')) /\
    (forall r, r ∈ rows -> exists r', r' ∈ rows' /\ u_id r' = u_id r) /\
    (forall m i, m ∈ users -> Admin.written users m i ->
                 exists r', r' ∈ rows' /\ u_id r' = i) /\
    (forall m i, m ∈ users -> Admin.written users m i ->
                 Admin.listed_once users m ->
                 exists r', r' ∈ rows' /\ Admin.describes m r') /\
    (forall r', r' ∈ rows' ->
                r' ∈ rows \/
                exists m, m ∈ users /\ Admin.written users m (u_id r') /\
                          Admin.describes m r') /\
    (length rows' <= length rows + length users)%nat.
Proof.
  intros Hgood Hactive.
  destruct (loop_rows ids users rows Hgood)
    as (rows' & Hloop & Hdup & Hkeep & Hin & Hfrom & Hlen).
  assert (Hwritten : forall m i, m ∈ users -> Admin.written users m i ->
                                 exists r', r' ∈ rows' /\ u_id r' = i).
  { intros m i Hm (Hbot & Happ & Hid & Hact).
    apply (Hin m i Hm Hbot Happ Hid). now apply Hactive. }
  exists rows'.
  split; [exact Hloop|]. split; [exact Hdup|]. split; [exact Hkeep|].
  split; [exact Hwritten|]. split; [|split; [|exact Hlen]].
  - intros m i Hm Hw Honce.
    destruct (Hwritten m i Hm Hw) as (r' & Hr' & Hi).
    exists r'. split; [exact Hr'|].
    destruct Hw as (Hbot & Happ & Hid & Hact).
    destruct (Hfrom r' Hr')
      as [[_ Hnone]|(m' & Hm' & _ & _ & _ & Hrow)].
    + exfalso. apply (Hnone m Hm). rewrite Hi.
      split; [exact Hbot|]. split; [exact Happ|]. split; [exact Hid|].
      now apply Hactive.
    + assert (m' = m) as <-; [|exact Hrow].
      apply Honce; [exact Hm'|].
      destruct Hrow as (Hid' & _). now rewrite Hid', Hi, Hid.
  - intros r' Hr'.
    destruct (Hfrom r' Hr')
      as [[Hold _]|(m & Hm & Hbot & Happ & Hact & Hrow)]; [now left|].
    right. exists m. split; [exact Hm|]. split; [|exact Hrow].
    split; [exact Hbot|]. split; [exact Happ|].
    split; [apply Hrow | now apply Hactive].
Qed.

End Loop.

Lemma active_user_ids_of_well_formed users :
  Forall Admin.well_formed users ->
  exists ids,
    Admin.active_user_ids_of users = Admin.Ok ids /\
    (forall i, i ∈ ids <-> Admin.active_id users i) /\
    (length ids <= length users)%nat.
Proof.
  induction 1 as [|m users Hm Husers (ids & Hrun & Hids & Hlen)].
  - exists []. split; [reflexivity|]. split; [|simpl; lia].
    intros i. split; [intros Hi; now apply elem_of_nil in Hi|].
    intros (m & Hm & _). now apply elem_of_nil in Hm.
  - destruct Hm as ([i Hi] & _ & [d Hd] & _).
    cbn [Admin.active_user_ids_of]. rewrite Hd, Hi, Hrun.
    cbn [Admin.key mbind Admin.outcome_mbind Admin.outcome_bind].
    destruct d; cbn [negb].
    + exists ids. split; [reflexivity|]. split; [|simpl; lia].
      intros j. rewrite Hids. split.
      * intros (m' & Hm' & Hrest). exists m'.
        split; [apply elem_of_cons; now right | exact Hrest].
      * intros (m' & Hm' & Hdel & Hid).
        apply elem_of_cons in Hm' as [->|Hm'];
          [rewrite Hd in Hdel; discriminate|].
        exists m'. tauto.
    + exists (i :: ids). split; [reflexivity|]. split; [|simpl; lia].
      intros j. rewrite elem_of_cons, Hids. split.
      * intros [->|(m' & Hm' & Hrest)].
        -- exists m. split; [apply elem_of_cons; now left | tauto].
        -- exists m'. split; [apply elem_of_cons; now right | exact Hrest].
      * intros (m' & Hm' & Hdel & Hid).
        apply elem_of_cons in Hm' as [->|Hm'].
        -- left. rewrite Hi in Hid. now injection Hid.
        -- right. exists m'. tauto.
Qed.

Lemma store_member_step active rows m :
  Admin.well_formed m ->
  (exists row,
      Admin.mb_is_bot m = Some false /\ Admin.mb_is_app_user m = Some false /\
      Admin.describes m row /\ u_id row ∈ active /\
      Admin.store_member active (Admin.Users rows) m
      = Admin.Ok (Admin.Users (Admin.upsert row rows)))
  \/ (Admin.store_member active (Admin.Users rows) m
      = Admin.Ok (Admin.Users rows) /\
      forall i, ~ (Admin.mb_is_bot m = Some false /\
                   Admin.mb_is_app_user m = Some false /\
                   Admin.mb_id m = Some i /\ i ∈ active)).
Proof.
  intros ([i Hi] & [n Hn] & _ & [b Hb] & [a Ha] & p & Hp & [rn Hrn]).
  unfold Admin.store_member, Admin.is_bot_or_app_user.
  rewrite Hb, Ha, Hi, Hp, Hn.
  cbn [Admin.key mbind Admin.outcome_mbind Admin.outcome_bind].
  rewrite Hrn. cbn [Admin.key Admin.outcome_bind].
  destruct b; cbn [Admin.outcome_bind].
  { right. split; [reflexivity|]. intros j (H & _). discriminate. }
  destruct a; cbn [Admin.outcome_bind].
  { right. split; [reflexivity|]. intros j (_ & H & _). discriminate. }
  case_bool_decide as Hact.
  - left. eexists. split; [reflexivity|]. split; [reflexivity|].
    split; [|split; [|apply insert_or_replace_upsert]].
    + unfold Admin.describes. cbn. rewrite Hi, Hn.
      split; [reflexivity|]. split; [reflexivity|]. split; [reflexivity|].
      exists p. rewrite Hrn. tauto.
    + exact Hact.
  - right. split; [reflexivity|].
    intros j (_ & _ & Hj & Hin). injection Hj as <-. contradiction.
Qed.

Lemma update_member_step active rows m :
  Admin.well_formed m /\ is_Some (Admin.mb_is_admin m) ->
  (exists row,
      Admin.mb_is_bot m = Some false /\ Admin.mb_is_app_user m = Some false /\
      Admin.describes m row /\ u_id row ∈ active /\
      Admin.update_member active (Admin.Users rows) m
      = Admin.Ok (Admin.Users (Admin.upsert row rows)))
  \/ (Admin.update_member active (Admin.Users rows) m
      = Admin.Ok (Admin.Users rows) /\
      forall i, ~ (Admin.mb_is_bot m = Some false /\
                   Admin.mb_is_app_user m = Some false /\
                   Admin.mb_id m = Some i /\ i ∈ active)).
Proof.
  intros [([i Hi] & [n Hn] & _ & [b Hb] & [a Ha] & p & Hp & [rn Hrn])
            [adm Hadm]].
  unfold Admin.update_member, Admin.is_bot_or_app_user.
  rewrite Hb, Ha, Hi, Hp, Hn, Hadm.
  cbn [Admin.key mbind Admin.outcome_mbind Admin.outcome_bind].
  rewrite Hrn. cbn [Admin.key Admin.outcome_bind].
  destruct b; cbn [Admin.outcome_bind].
  { right. split; [reflexivity|]. intros j (H & _). discriminate. }
  destruct a; cbn [Admin.outcome_bind].
  { right. split; [reflexivity|]. intros j (_ & H & _). discriminate. }
  case_bool_decide as Hact.
  - left. eexists. split; [reflexivity|]. split; [reflexivity|].
    split; [|split; [|apply insert_or_replace_upsert]].
    + unfold Admin.describes. cbn. rewrite Hi, Hn, Hadm.
      split; [reflexivity|]. split; [reflexivity|]. split; [reflexivity|].
      exists p. rewrite Hrn. tauto.
    + exact Hact.
  - right. split; [reflexivity|].
    intros j (_ & _ & Hj & Hin). injection Hj as <-. contradiction.
Qed.

Lemma store_user_info_rows E (fuel : nat) channel user w pages :
  let users := concat (map Admin.members pages) in
  let tr :=
    Admin.trace w ++ Admin.list_calls None pages
    ++ [Admin.ChatPostEphemeral channel user
          (lit "User information has been stored in the database")] in
  Admin.paged E (Admin.trace w) None pages ->
  (length pages <= fuel)%nat ->
  Forall Admin.well_formed users ->
  exists rows',
    Admin.store_user_info E fuel channel user w
    = (Admin.answered (Admin.on_chat_postEphemeral E tr),
       {| Admin.db := Admin.Users rows'; Admin.trace := tr |}) /\
    (NoDup (map u_id (Admin.rows_of (Admin.db w))) ->
     NoDup (map u_id rows')) /\
    (forall r, r ∈ Admin.rows_of (Admin.db w) ->
               exists r', r' ∈ rows' /\ u_id r' = u_id r) /\
    (forall m i, m ∈ users -> Admin.written users m i ->
                 exists r', r' ∈ rows' /\ u_id r' = i) /\
    (forall m i, m ∈ users -> Admin.written users m i ->
                 Admin.listed_once users m ->
                 exists r', r' ∈ rows' /\ Admin.describes m r') /\
    (forall r', r' ∈ rows' ->
                r' ∈ Admin.rows_of (Admin.db w) \/
                exists m, m ∈ users /\ Admin.written users m (u_id r') /\
                          Admin.describes m r').
Proof.
  intros users tr Hpaged Hfuel Hgood.
  destruct (active_user_ids_of_well_formed users Hgood)
    as (ids & Hids & Hactive & _).
  destruct (loop_rows_listed Admin.store_member Admin.well_formed
              store_member_step users ids (Admin.rows_of (Admin.db w))
              Hgood Hactive)
    as (rows' & Hloop & Hdup & Hkeep & Hin & Honce & Hfrom & _).
  exists rows'. split; [|tauto].
  unfold Admin.store_user_info.
  unfold mbind at 1, Admin.Cmd_bind at 1, Admin.bind at 1.
  rewrite (users_list_paged E fuel None [] w pages Hpaged Hfuel).
  cbn [app]. fold users.
  unfold mbind at 1, Admin.Cmd_bind at 1, Admin.bind at 1,
    Admin.of_outcome at 1.
  rewrite Hids.
  unfold mbind, Admin.Cmd_bind, Admin.bind, Admin.get_db_connection,
    Admin.create_table, Admin.read_db, Admin.of_outcome, Admin.commit,
    Admin.call.
  cbn [Admin.db Admin.trace].
  subst tr. destruct (Admin.db w); cbn [Admin.rows_of] in Hloop;
    rewrite Hloop; now rewrite <- !app_assoc.
Qed.

(** X29. [store_user_info] on a listing in which every user has the keys
    that the code subscripts: the command ends with its confirmation
    message and the table then exists.  It holds a row for every listed
    user that is neither a bot nor an app user and whose identifier is
    that of a user that is not deleted, and this row holds what Slack says
    of the user when the user is listed once.  No identifier that was in
    the table is lost (a member who left keeps a row); every row is an old
    one or holds what Slack says of such a user; and identifiers that were
    distinct stay distinct. *)
Theorem store_user_info_fills_the_table
    (E : Admin.env) (fuel : nat) (channel user : str) (w : Admin.world)
    (pages : list Admin.listing) :
  let users := concat (map Admin.members pages) in
  let tr :=
    Admin.trace w ++ Admin.list_calls None pages
    ++ [Admin.ChatPostEphemeral channel user
          (lit "User information has been stored in the database")] in
  Admin.paged E (Admin.trace w) None pages ->
  (length pages <= fuel)%nat ->
  Forall Admin.well_formed users ->
  exists rows',
    Admin.store_user_info E fuel channel user w
    = (Admin.answered (Admin.on_chat_postEphemeral E tr),
       {| Admin.db := Admin.Users rows'; Admin.trace := tr |}) /\
    (NoDup (map u_id (Admin.rows_of (Admin.db w))) ->
     NoDup (map u_id rows')) /\
    (forall r, r ∈ Admin.rows_of (Admin.db w) ->
               exists r', r' ∈ rows' /\ u_id r' = u_id r) /\
    (forall m i, m ∈ users -> Admin.written users m i ->
                 exists r', r' ∈ rows' /\ u_id r' = i) /\
    (forall m i, m ∈ users -> Admin.written users m i ->
                 Admin.listed_once users m ->
                 exists r', r' ∈ rows' /\ Admin.describes m r') /\
    (forall r', r' ∈ rows' ->
                r' ∈ Admin.rows_of (Admin.db w) \/
                exists m, m ∈ users /\ Admin.written users m (u_id r') /\
                          Admin.describes m r').
Proof. apply store_user_info_rows. Qed.

Lemma well_formed_sample_pages :
  Forall Admin.well_formed (concat (map Admin.members Admin.sample_pages)).
Proof.
  unfold Admin.well_formed, is_Some. cbn.
  repeat first [apply List.Forall_cons | apply List.Forall_nil
               | reflexivity | split | eexists].
Qed.

Lemma store_user_info_fills_the_table_witness :
  (Admin.run
     (Admin.store_user_info (Admin.paging Admin.sample_pages) 2 (lit "C1")
        (lit "U1"))
     Admin.NoFile).1
  = Admin.Ok tt.
Proof.
  unfold Admin.run.
  destruct (store_user_info_fills_the_table
              (Admin.paging Admin.sample_pages) 2 (lit "C1") (lit "U1")
              {| Admin.db := Admin.NoFile; Admin.trace := [] |}
              Admin.sample_pages
              (paged_sample_pages [] eq_refl)
              (le_n 2) well_formed_sample_pages)
    as (rows' & -> & _).
  reflexivity.
Defined.

(** *** The rows that /update-user-info deletes *)

Lemma remove_dups_length {A} `{EqDecision A} (l : list A) :
  (length (remove_dups l) <= length l)%nat.
Proof.
  induction l as [|x l IH]; [reflexivity|].
  cbn [remove_dups]. destruct (decide_rel elem_of x l); simpl; lia.
Qed.

Lemma same_id_same_row (rows : list user_row) r1 r2 :
  NoDup (map u_id rows) -> r1 ∈ rows -> r2 ∈ rows -> u_id r1 = u_id r2 ->
  r1 = r2.
Proof.
  induction rows as [|r rows IH]; intros Hdup H1 H2 Hid.
  - now apply elem_of_nil in H1.
  - cbn [map] in Hdup. apply NoDup_cons in Hdup as [Hr Hdup].
    apply elem_of_cons in H1 as [->|H1];
      apply elem_of_cons in H2 as [->|H2].
    + reflexivity.
    + exfalso. apply Hr. rewrite Hid.
      apply list_elem_of_In, in_map, list_elem_of_In, H2.
    + exfalso. apply Hr. rewrite <- Hid.
      apply list_elem_of_In, in_map, list_elem_of_In, H1.
    + now apply IH.
Qed.

Lemma NoDup_ids_filter (g : user_row -> bool) (rows : list user_row) :
  NoDup (map u_id rows) -> NoDup (map u_id (List.filter g rows)).
Proof.
  induction rows as [|r rows IH]; intros Hdup; [constructor|].
  cbn [map] in Hdup. apply NoDup_cons in Hdup as [Hr Hdup].
  cbn [List.filter]. destruct (g r); [|now apply IH].
  cbn [map]. apply NoDup_cons. split; [|now apply IH].
  intros Hi. apply Hr.
  apply list_elem_of_In, in_map_iff in Hi as (r2 & Hid & Hr2).
  apply filter_In in Hr2 as [Hr2 _].
  rewrite <- Hid. apply list_elem_of_In, in_map, Hr2.
Qed.

Lemma inactive_or_invalid_false ids r :
  Admin.inactive_or_invalid ids r = false
  <-> u_id r ∈ ids /\ Admin.at_listed_domain (u_email r).
Proof.
  unfold Admin.inactive_or_invalid, Admin.at_listed_domain.
  rewrite orb_false_iff, negb_false_iff, bool_decide_eq_true,
    andb_false_iff, !negb_false_iff.
  reflexivity.
Qed.

Lemma elem_of_deleted_ids ids rows x :
  x ∈ remove_dups
        (List.filter (fun ident => truthy (Some ident))
           (map u_id (List.filter (Admin.inactive_or_invalid ids) rows)))
  <-> x <> [] /\
      exists r, r ∈ rows /\ Admin.inactive_or_invalid ids r = true /\
                u_id r = x.
Proof.
  rewrite elem_of_remove_dups, list_elem_of_In, filter_In, in_map_iff.
  split.
  - intros [(r & <- & Hr) Hne]. apply filter_In in Hr as [Hr Hsel].
    split; [now destruct (u_id r)|].
    exists r. now rewrite list_elem_of_In.
  - intros [Hne (r & Hr & Hsel & <-)]. split.
    + exists r. split; [reflexivity|].
      apply filter_In. now rewrite <- list_elem_of_In.
    + now destruct (u_id r).
Qed.

Lemma delete_inactive_and_invalid_rows (limit : nat) ids rows :
  (length ids <= limit)%nat -> (length rows <= limit)%nat ->
  exists rows',
    Admin.delete_inactive_and_invalid limit ids (Admin.Users rows)
    = Admin.Ok (Admin.Users rows') /\
    (forall r, r ∈ rows' ->
               r ∈ rows /\
               (u_id r = [] \/ Admin.inactive_or_invalid ids r = false)) /\
    (NoDup (map u_id rows) ->
     forall r, r ∈ rows -> Admin.inactive_or_invalid ids r = false ->
               r ∈ rows') /\
    (NoDup (map u_id rows) -> NoDup (map u_id rows')).
Proof.
  intros Hids Hrows.
  set (del := remove_dups
                (List.filter (fun ident => truthy (Some ident))
                   (map u_id
                      (List.filter (Admin.inactive_or_invalid ids) rows)))).
  set (rows' := List.filter
                  (fun r => negb (bool_decide (u_id r ∈ del))) rows).
  assert (Hdel : (length del <= limit)%nat).
  { subst del.
    etransitivity; [apply remove_dups_length|].
    etransitivity; [apply filter_length_le|].
    rewrite length_map.
    etransitivity; [apply filter_length_le | exact Hrows]. }
  assert (Hin : forall r, r ∈ rows' <-> r ∈ rows /\ u_id r ∉ del).
  { intros r. subst rows'.
    rewrite list_elem_of_In, filter_In, <- list_elem_of_In,
      negb_true_iff, bool_decide_eq_false. reflexivity. }
  assert (Hrun : Admin.delete_inactive_and_invalid limit ids
                   (Admin.Users rows)
                 = Admin.Ok (Admin.Users rows')).
  { unfold Admin.delete_inactive_and_invalid, Admin.with_table.
    rewrite (proj2 (Nat.ltb_ge _ _) Hids).
    cbn [mbind Admin.outcome_mbind Admin.outcome_bind].
    destruct (map u_id (List.filter (Admin.inactive_or_invalid ids) rows))
      as [|x sel] eqn:Hsel.
    - f_equal. f_equal. subst rows' del. rewrite ?Hsel. cbn.
      clear. induction rows as [|r rows IH]; [reflexivity|].
      cbn [List.filter]. rewrite bool_decide_eq_false_2 by apply not_elem_of_nil.
      cbn [negb]. now rewrite <- IH.
    - fold del.
      rewrite (proj2 (Nat.ltb_ge _ _) Hdel). reflexivity. }
  exists rows'. split; [exact Hrun|]. split; [|split].
  - intros r Hr. apply Hin in Hr as [Hr Hout]. split; [exact Hr|].
    destruct (decide (u_id r = [])) as [He|Hne]; [now left|]. right.
    destruct (Admin.inactive_or_invalid ids r) eqn:Hsel; [|reflexivity].
    exfalso. apply Hout. apply elem_of_deleted_ids. eauto.
  - intros Hdup r Hr Hsel. apply Hin. split; [exact Hr|].
    intros Hd. apply elem_of_deleted_ids in Hd as [_ (r2 & Hr2 & Hsel2 & Hid)].
    rewrite (same_id_same_row rows r2 r Hdup Hr2 Hr Hid) in Hsel2.
    congruence.
  - intros Hdup. subst rows'. now apply NoDup_ids_filter.
Qed.

Lemma find_row_of_id (rows : list user_row) r :
  NoDup (map u_id rows) -> r ∈ rows ->
  List.find (Admin.has_id (u_id r)) rows = Some r.
Proof.
  intros Hdup Hr.
  destruct (List.find _ rows) as [r2|] eqn:Hfind.
  - apply List.find_some in Hfind as [Hr2 Hid].
    apply bool_decide_eq_true in Hid.
    f_equal. apply (same_id_same_row rows); try assumption.
    now apply list_elem_of_In.
  - pose proof (List.find_none _ _ Hfind r
                  (proj1 (list_elem_of_In _ _) Hr)) as Hno.
    apply bool_decide_eq_false in Hno. now contradiction Hno.
Qed.

Lemma handle_update_user_info_rows E (limit fuel : nat) body rows pages
    admin :
  let users := concat (map Admin.members pages) in
  let tr :=
    [Admin.Ack None] ++ Admin.list_calls None pages
    ++ [Admin.ChatPostEphemeral (Admin.channel_id body) (Admin.user_id body)
          (lit "User information has been updated in the database")] in
  NoDup (map u_id rows) ->
  admin ∈ rows -> u_id admin = Admin.user_id body ->
  u_is_admin admin = true ->
  Admin.paged E [Admin.Ack None] None pages ->
  (length pages <= fuel)%nat ->
  Forall (fun m => Admin.well_formed m /\ is_Some (Admin.mb_is_admin m))
    users ->
  (length rows + length users <= limit)%nat ->
  exists rows',
    Admin.run (Admin.handle_update_user_info E limit fuel body)
      (Admin.Users rows)
    = (Admin.answered (Admin.on_chat_postEphemeral E tr),
       {| Admin.db := Admin.Users rows'; Admin.trace := tr |}) /\
    NoDup (map u_id rows') /\
    (forall r', r' ∈ rows' ->
                u_id r' = [] \/
                (Admin.active_id users (u_id r') /\
                 Admin.at_listed_domain (u_email r'))) /\
    (forall r', r' ∈ rows' ->
                r' ∈ rows \/
                exists m, m ∈ users /\ Admin.written users m (u_id r') /\
                          Admin.describes m r') /\
    (forall m i, m ∈ users -> Admin.written users m i ->
                 Admin.listed_once users m ->
                 Admin.at_listed_domain (Admin.email_of m) ->
                 exists r', r' ∈ rows' /\ Admin.describes m r').
Proof.
  intros users tr Hdup Hadmin Hid Hflag Hpaged Hfuel Hgood Hlimit.
  assert (Hwf : Forall Admin.well_formed users).
  { eapply Forall_impl; [exact Hgood|]. now intros m [Hm _]. }
  destruct (active_user_ids_of_well_formed users Hwf)
    as (ids & Hids & Hactive & Hlen).
  destruct (loop_rows_listed Admin.update_member
              (fun m => Admin.well_formed m /\ is_Some (Admin.mb_is_admin m))
              update_member_step users ids rows Hgood Hactive)
    as (rows1 & Hloop & Hdup1 & _ & _ & Honce & Hfrom & Hlen1).
  destruct (delete_inactive_and_invalid_rows limit ids rows1
              ltac:(lia) ltac:(lia))
    as (rows' & Hdelete & Hleft & Hstay & Hdup').
  exists rows'. split; [|split; [|split; [|split]]].
  - unfold Admin.run, Admin.handle_update_user_info.
    unfold mbind at 1, Admin.Cmd_bind at 1, Admin.bind at 1.
    cbn [Admin.emit Admin.db Admin.trace app].
    unfold mbind at 1, Admin.Cmd_bind at 1, Admin.bind at 1.
    rewrite is_user_admin_rows, <- Hid, (find_row_of_id rows admin Hdup Hadmin),
      Hflag.
    cbn [negb].
    unfold mbind at 1, Admin.Cmd_bind at 1, Admin.bind at 1.
    rewrite (users_list_paged E fuel None []
               {| Admin.db := Admin.Users rows;
                  Admin.trace := [Admin.Ack None] |}
               pages Hpaged Hfuel).
    cbn [app Admin.db Admin.trace]. fold users.
    unfold mbind at 1, Admin.Cmd_bind at 1, Admin.bind at 1,
      Admin.of_outcome at 1.
    rewrite Hids.
    unfold mbind, Admin.Cmd_bind, Admin.bind, Admin.get_db_connection,
      Admin.read_db, Admin.of_outcome, Admin.commit, Admin.call.
    cbn [Admin.db Admin.trace].
    rewrite Hloop, Hdelete. subst tr. rewrite Hid. reflexivity.
  - now apply Hdup', Hdup1.
  - intros r' Hr'. destruct (Hleft r' Hr') as [_ [He|Hsel]]; [now left|].
    right. apply inactive_or_invalid_false in Hsel as [Hin Hdomain].
    split; [now apply Hactive | exact Hdomain].
  - intros r' Hr'. destruct (Hleft r' Hr') as [Hr1 _]. exact (Hfrom r' Hr1).
  - intros m i Hm Hw Hlisted Hdomain.
    destruct (Honce m i Hm Hw Hlisted) as (r1 & Hr1 & Hrow).
    exists r1. split; [|exact Hrow].
    apply (Hstay (Hdup1 Hdup) r1 Hr1).
    apply inactive_or_invalid_false.
    destruct Hw as (_ & _ & Hmid & Hact).
    destruct Hrow as (Hrid & _ & _ & p & Hp & _ & _ & _ & Hemail).
    split.
    + apply Hactive. rewrite Hmid in Hrid. injection Hrid as <-. exact Hact.
    + unfold Admin.email_of in Hdomain. rewrite Hp in Hdomain.
      now rewrite Hemail.
Qed.

(** X30. /update-user-info of an administrator, on a table with distinct
    identifiers and a listing in which every user has the keys that the
    code reads, the statements staying within the number of parameters
    that SQLite accepts: the command ends with its confirmation message,
    and every row left with a non-empty identifier is that of a listed
    user that is not deleted and has an email address ending, in whatever
    case, with one of the two domains of the code; the rows of all other
    addresses are deleted, those of the users just written included.  A
    user written and listed once whose address is at one of the domains
    has the row that holds what Slack says of the user; every row is an
    old one or such a row; the identifiers stay distinct. *)
Theorem update_keeps_the_listed_domains
    (E : Admin.env) (variable_limit fuel : nat) (body : Admin.command)
    (rows : list user_row) (pages : list Admin.listing) (admin : user_row) :
  let users := concat (map Admin.members pages) in
  let tr :=
    [Admin.Ack None] ++ Admin.list_calls None pages
    ++ [Admin.ChatPostEphemeral (Admin.channel_id body) (Admin.user_id body)
          (lit "User information has been updated in the database")] in
  NoDup (map u_id rows) ->
  admin ∈ rows -> u_id admin = Admin.user_id body ->
  u_is_admin admin = true ->
  Admin.paged E [Admin.Ack None] None pages ->
  (length pages <= fuel)%nat ->
  Forall (fun m => Admin.well_formed m /\ is_Some (Admin.mb_is_admin m))
    users ->
  (length rows + length users <= variable_limit)%nat ->
  exists rows',
    Admin.run (Admin.handle_update_user_info E variable_limit fuel body)
      (Admin.Users rows)
    = (Admin.answered (Admin.on_chat_postEphemeral E tr),
       {| Admin.db := Admin.Users rows'; Admin.trace := tr |}) /\
    NoDup (map u_id rows') /\
    (forall r', r' ∈ rows' ->
                u_id r' = [] \/
                (Admin.active_id users (u_id r') /\
                 Admin.at_listed_domain (u_email r'))) /\
    (forall r', r' ∈ rows' ->
                r' ∈ rows \/
                exists m, m ∈ users /\ Admin.written users m (u_id r') /\
                          Admin.describes m r') /\
    (forall m i, m ∈ users -> Admin.written users m i ->
                 Admin.listed_once users m ->
                 Admin.at_listed_domain (Admin.email_of m) ->
                 exists r', r' ∈ rows' /\ Admin.describes m r').
Proof. apply handle_update_user_info_rows. Qed.

Lemma update_keeps_the_listed_domains_witness :
  (Admin.run
     (Admin.handle_update_user_info (Admin.paging Admin.sample_pages) 999 2
        Admin.sample_command)
     (Admin.Users [Admin.sample_admin; sample_row "U7" "John Roe"])).1
  = Admin.Ok tt.
Proof.
  destruct (update_keeps_the_listed_domains
              (Admin.paging Admin.sample_pages) 999 2 Admin.sample_command
              [Admin.sample_admin; sample_row "U7" "John Roe"]
              Admin.sample_pages Admin.sample_admin)
    as (rows' & -> & _).
  - by_compute.
  - apply elem_of_cons. now left.
  - reflexivity.
  - reflexivity.
  - exact (paged_sample_pages [Admin.Ack None] eq_refl).
  - simpl. lia.
  - unfold Admin.well_formed, is_Some. cbn.
    repeat first [apply List.Forall_cons | apply List.Forall_nil
                 | reflexivity | split | eexists].
  - simpl. lia.
  - reflexivity.
Defined.
